(** * node-vpk: the byte cursor (BinaryParser) and the VPK directory reader (VPKFile)

    A shallow embedding of [BinaryParser.ts] and [VPKFile.ts].  JavaScript
    numbers that hold offsets and sizes are integers ([Z]); a [Buffer] is a
    list of bytes; an exception is a value of [Error] returned next to the
    state the object is left in, because a throwing method keeps every
    mutation it made before the throw. *)

From Stdlib Require Import ZArith Lia Strings.Byte Ascii String DecimalString.
From stdpp Require Import base option list strings gmap.

Local Open Scope Z_scope.

(** ** Errors

    The source raises with [assert(cond, message)] or lets a [Buffer] range
    error escape.  One constructor per message:
    - [BadSignature]        'Invalid file signature (bad magic)'
    - [UnsupportedVersion]  'Unsupported file version'
    - [InvalidHeader]       'Invalid value of field `OtherMD5SectionSize`'
    - [BadEntryTerminator]  'Bad entry terminator'
    - [OutOfBounds]         the range error of [Buffer.readUInt32LE] / [readUInt16LE]
    - [InsufficientData]    'Insufficient bytes'
    - [InvalidOffset]       'Invalid offset'
    - [FileNotFound]        'File ... not found'
    - [ShortRead]           'Cannot read file from sub-archive ...'
    - [ValidationFailed]    'Validation failed'
    - [CopyOutOfRange]      the range error of [Buffer.copy]
    - [HostError]           a failure of the host's [open], [read], [close] or [readFile]
    - [LoopBudget]          never raised by the program: the iteration budget
                            of a modelled [while] loop ran out (shown
                            impossible for the budget [fromFileData] uses). *)
Inductive Error :=
  | BadSignature | UnsupportedVersion | InvalidHeader | BadEntryTerminator
  | OutOfBounds | InsufficientData | InvalidOffset
  | FileNotFound | ShortRead | ValidationFailed
  | CopyOutOfRange | HostError | LoopBudget.

Inductive res (A : Type) :=
  | Ok (a : A)
  | Err (e : Error).
Arguments Ok {A} a.
Arguments Err {A} e.

(** ** State with exceptions

    [SE St A] is a method body over an object of type [St]: it returns a
    value or throws, and in both cases hands back the object as it left it. *)
Definition SE (St A : Type) : Type := St -> res A * St.

Definition ret {St A} (a : A) : SE St A := fun s => (Ok a, s).

Definition throw {St A} (e : Error) : SE St A := fun s => (Err e, s).

Definition bind {St A B} (m : SE St A) (k : A -> SE St B) : SE St B :=
  fun s => match m s with
           | (Ok a, s') => k a s'
           | (Err e, s') => (Err e, s')
           end.

(** [assert(cond, message)] *)
Definition assert {St} (cond : bool) (e : Error) : SE St unit :=
  if cond then ret tt else throw e.

Declare Scope se_scope.
Delimit Scope se_scope with se.
Notation "'let*' x := m 'in' k" := (bind m (fun x => k))
  (at level 10, x name, m at level 100, k at level 200) : se_scope.
Notation "m ;;; k" := (bind m (fun _ => k))
  (at level 100, k at level 200, right associativity) : se_scope.

(** ** Node's Buffer *)
Module Buffer.

(** A buffer is its list of bytes. *)
Abbreviation t := (list byte) (only parsing).

Definition length (b : t) : Z := Z.of_nat (List.length b).

(** [b[i]]: [undefined] (here [None]) outside [0 .. length-1]. *)
Definition get (b : t) (i : Z) : option byte :=
  if i <? 0 then None else b !! Z.to_nat i.

Definition u8 (x : byte) : Z := Z.of_N (Byte.to_N x).

(** JavaScript truthiness of [b[i]]: false for [0] and for [undefined]. *)
Definition truthy (o : option byte) : bool :=
  match o with
  | Some x => negb (u8 x =? 0)
  | None => false
  end.

(** [Buffer.alloc(n)]: [n] zero bytes. *)
Definition alloc (n : Z) : t := replicate (Z.to_nat n) x00.

(** [b.readUInt32LE(offset)]: a range error unless the four bytes exist. *)
Definition readUInt32LE (b : t) (offset : Z) : res Z :=
  match get b offset, get b (offset + 1), get b (offset + 2), get b (offset + 3) with
  | Some b0, Some b1, Some b2, Some b3 =>
      Ok (u8 b0 + u8 b1 * 2 ^ 8 + u8 b2 * 2 ^ 16 + u8 b3 * 2 ^ 24)
  | _, _, _, _ => Err OutOfBounds
  end.

(** [b.readUInt16LE(offset)] *)
Definition readUInt16LE (b : t) (offset : Z) : res Z :=
  match get b offset, get b (offset + 1) with
  | Some b0, Some b1 => Ok (u8 b0 + u8 b1 * 2 ^ 8)
  | _, _ => Err OutOfBounds
  end.

(** The bytes [start .. end-1], both ends clamped to the buffer: the range
    that [toString(encoding, start, end)] decodes. *)
Definition slice (b : t) (start end_ : Z) : t :=
  take (Z.to_nat end_ - Z.to_nat start)%nat (drop (Z.to_nat start) b).

(** 'ascii' decoding clears the top bit of every byte. *)
Definition ascii_char (x : byte) : ascii :=
  ascii_of_N (N.land (Byte.to_N x) 127).

(** [b.toString('ascii', start, end)] *)
Definition toString_ascii (b : t) (start end_ : Z) : string :=
  string_of_list_ascii (map ascii_char (slice b start end_)).

(** A relative index of [subarray]: negative counts from the end, and the
    result is clamped to [0 .. length]. *)
Definition rel_index (len i : Z) : Z :=
  if i <? 0 then Z.max (len + i) 0 else Z.min i len.

(** [b.subarray(start, end)]; [end] omitted means the length. *)
Definition subarray (b : t) (start : Z) (end_ : option Z) : t :=
  let len := length b in
  let s := rel_index len start in
  let e := match end_ with Some e => rel_index len e | None => len end in
  slice b s e.

(** [source.copy(target, targetStart, sourceStart, sourceEnd)], the target
    after the call.  The fourth argument is an END index into the source,
    not a byte count.  [sourceEnd] omitted means the source length. *)
Definition copy (source target : t) (targetStart sourceStart : Z)
           (sourceEnd : option Z) : res t :=
  let sourceEnd := match sourceEnd with Some e => e | None => length source end in
  if (targetStart <? 0) || (sourceStart <? 0) || (length source <? sourceStart)
     || (sourceEnd <? 0)
  then Err CopyOutOfRange
  else if (length target <=? targetStart) || (sourceEnd <=? sourceStart)
  then Ok target
  else
    let nb := Z.min (Z.min (sourceEnd - sourceStart) (length target - targetStart))
                    (length source - sourceStart) in
    let chunk := slice source sourceStart (sourceStart + nb) in
    Ok (take (Z.to_nat targetStart) target ++ chunk
          ++ drop (Z.to_nat (targetStart + nb)) target).

(** Writing [bytes] into [target] at [offset], as the host's [read] does
    with the bytes it obtained. *)
Definition write (target : t) (offset : Z) (bytes : t) : t :=
  let nb := Z.min (length bytes) (length target - offset) in
  if nb <=? 0 then target
  else take (Z.to_nat offset) target ++ take (Z.to_nat nb) bytes
         ++ drop (Z.to_nat (offset + nb)) target.

End Buffer.

Local Open Scope se_scope.

(** ** BinaryParser *)

Inductive SeekMode := Absolute | Relative.

Module BinaryParser.

(** The cursor is a JavaScript number that holds an integer.  It is kept
    here as the integer itself: number arithmetic is exact on integers of
    magnitude up to 2^53, which covers every cursor a parser reaches from 0
    by reads and seeks within or near its buffer.  Beyond that magnitude
    [cursor += 4] no longer adds 4, and nothing is said here. *)
Record t := mk {
  data : Buffer.t;
  cursor : Z
}.

(** [new BinaryParser(data)]: the cursor starts at 0. *)
Definition new (d : Buffer.t) : t := mk d 0.

(** [this.cursor = c] *)
Definition setCursor (c : Z) : SE t unit :=
  fun p => (Ok tt, mk (data p) c).

(** A read of the buffer that leaves the object as it is. *)
Definition lift {A} (f : t -> res A) : SE t A :=
  fun p => (f p, p).

(** [readUInt32LE(offset?)]: without an offset the cursor moves on by 4
    BEFORE the buffer is read, so it has moved also when the read throws. *)
Definition readUInt32LE (offset : option Z) : SE t Z :=
  match offset with
  | Some o => lift (fun p => Buffer.readUInt32LE (data p) o)
  | None =>
      fun p =>
        let o := cursor p in
        (setCursor (cursor p + 4) ;;;
         lift (fun p' => Buffer.readUInt32LE (data p') o)) p
  end.

(** [readUInt16LE(offset?)] *)
Definition readUInt16LE (offset : option Z) : SE t Z :=
  match offset with
  | Some o => lift (fun p => Buffer.readUInt16LE (data p) o)
  | None =>
      fun p =>
        let o := cursor p in
        (setCursor (cursor p + 2) ;;;
         lift (fun p' => Buffer.readUInt16LE (data p') o)) p
  end.

(** [while(end < length && data[end]) end++], at most [budget] rounds. *)
Fixpoint scan (budget : nat) (d : Buffer.t) (end_ : Z) : Z :=
  match budget with
  | O => end_
  | S budget' =>
      if (end_ <? Buffer.length d) && Buffer.truthy (Buffer.get d end_)
      then scan budget' d (end_ + 1)
      else end_
  end.

(** Where the scan that starts at [offset] stops.  The buffer length bounds
    the number of rounds (see [scanEnd_stops]). *)
Definition scanEnd (d : Buffer.t) (offset : Z) : Z :=
  scan (List.length d) d offset.

(** [<number><unknown>!data[end]]: 1 when [data[end]] is 0 or undefined. *)
Definition notAsNumber (o : option byte) : Z :=
  if Buffer.truthy o then 0 else 1.

(** [readString(offset?)] *)
Definition readString (offset : option Z) : SE t string :=
  match offset with
  | Some o =>
      lift (fun p => Ok (Buffer.toString_ascii (data p) o (scanEnd (data p) o)))
  | None =>
      fun p =>
        let o := cursor p in
        let end_ := scanEnd (data p) o in
        (setCursor (end_ + notAsNumber (Buffer.get (data p) end_)) ;;;
         ret (Buffer.toString_ascii (data p) o end_)) p
  end.

(** [readBytes(bytes)] *)
Definition readBytes (bytes : Z) : SE t Buffer.t :=
  fun p =>
    (assert (cursor p + bytes <=? Buffer.length (data p)) InsufficientData ;;;
     let start := cursor p in
     setCursor (cursor p + bytes) ;;;
     ret (Buffer.subarray (data p) start (Some (start + bytes)))) p.

(** [reset()] *)
Definition reset : SE t unit := setCursor 0.

(** [seek(offset?, mode = Absolute)] *)
Definition seek (offset : option Z) (mode : SeekMode) : SE t Z :=
  fun p =>
    let length := Buffer.length (data p) in
    match offset with
    | Some offset =>
        match mode with
        | Absolute =>
            (assert ((0 <? offset) && (offset <=? length)) InvalidOffset ;;;
             setCursor offset ;;;
             ret offset) p
        | Relative =>
            let r := cursor p + offset in
            (assert ((0 <? r) && (r <=? length)) InvalidOffset ;;;
             setCursor r ;;;
             ret r) p
        end
    | None => (Ok (cursor p), p)
    end.

(** [eof()] *)
Definition eof (p : t) : bool := Buffer.length (data p) <=? cursor p.

End BinaryParser.

(** ** VPKEntryMeta *)
Module VPKEntryMeta.

Record t := mk {
  extension : string;
  folder : string;
  fileName : string;
  path : string;
  CRC : Z;
  preloadBytes : Z;
  preload : option Buffer.t;
  archiveIndex : Z;
  entryOffset : Z;
  entryLength : Z
}.

End VPKEntryMeta.

(** ** What VPKFile.ts imports from the host: 'fs' and 'crc'

    [W] is the state of the world outside the program.  [fs_read fd length
    position] yields the bytes the host obtained for the request, which
    [read] stores into the caller's buffer; their number is [bytesRead].
    [fs_close fd index array] is the promisified [close] the way
    [closeSubArchives] calls it, as the callback of [Array.map]: with the
    descriptor, its index and the array. *)
Class Imports (W : Type) := {
  crc32 : Buffer.t -> Z;
  fs_readFile : string -> W -> res Buffer.t * W;
  fs_open : string -> W -> res Z * W;
  fs_read : Z -> Z -> Z -> W -> res Buffer.t * W;
  fs_close : Z -> Z -> list Z -> W -> res unit * W
}.

(** The calls made to the host, in the order they are made. *)
Inductive Call :=
  | CallOpen (path : string)
  | CallRead (fd length position : Z)
  | CallClose (fd : Z).

(** ** A JavaScript [Map] that is iterated: keys in insertion order *)
Module JSMap.

Definition t (V : Type) := list (Z * V).

(** [m.set(k, v)]: an existing key keeps its place, a new one goes last. *)
Fixpoint set {V} (m : t V) (k : Z) (v : V) : t V :=
  match m with
  | [] => [(k, v)]
  | (k', v') :: m' => if k' =? k then (k, v) :: m' else (k', v') :: set m' k v
  end.

(** [[...m.values()]] *)
Definition values {V} (m : t V) : list V := map snd m.

(** [m.clear()] leaves the empty map; [new Map(m.entries())] is [m]. *)
Definition empty {V} : t V := [].

End JSMap.

(** ** VPKFile *)
Module VPKFile.

Definition SIGNATURE : Z := 0x55aa1234.
Definition HEADER_SIZE_V1 : Z := 3 * 4.
Definition HEADER_SIZE_V2 : Z := 7 * 4.

(** The four section sizes are assigned for version 2 only. *)
Record t := mk {
  version : Z;
  fileDataSectionSize : option Z;
  archiveMD5SectionSize : option Z;
  otherMD5SectionSize : option Z;
  signatureSectionSize : option Z;
  path : string;
  entries : gmap string VPKEntryMeta.t;
  data : Buffer.t;
  fdCache : JSMap.t Z
}.

(** [!s] for a string: true for the empty string only. *)
Definition isEmpty (s : string) : bool :=
  match s with
  | EmptyString => true
  | String _ _ => false
  end.

(** The loop the tree parser nests three times:
    [while(true) { const s = parser.readString(); if(!s) break; body }].
    [acc] is what the body updates ([file.entries]); [budget] bounds the
    number of rounds. *)
Fixpoint eachString {A} (budget : nat)
         (body : string -> A -> SE BinaryParser.t A) (acc : A)
  : SE BinaryParser.t A :=
  match budget with
  | O => throw LoopBudget
  | S budget' =>
      let* s := BinaryParser.readString None in
      if isEmpty s then ret acc
      else
        let* acc' := body s acc in
        eachString budget' body acc'
  end.

(** The body of the innermost loop up to [node.preload = ...]: one entry
    record. *)
Definition readEntry (extension folder fileName : string)
  : SE BinaryParser.t VPKEntryMeta.t :=
  let path := (folder +:+ "/" +:+ fileName +:+ "." +:+ extension)%string in
  let* CRC := BinaryParser.readUInt32LE None in
  let* preloadBytes := BinaryParser.readUInt16LE None in
  let* archiveIndex := BinaryParser.readUInt16LE None in
  let* entryOffset := BinaryParser.readUInt32LE None in
  let* entryLength := BinaryParser.readUInt32LE None in
  let* terminator := BinaryParser.readUInt16LE None in
  assert (terminator =? 0xffff) BadEntryTerminator ;;;
  let* preload :=
    (if preloadBytes =? 0 then ret None
     else let* b := BinaryParser.readBytes preloadBytes in ret (Some b)) in
  ret (VPKEntryMeta.mk extension folder fileName path CRC preloadBytes preload
                       archiveIndex entryOffset entryLength).

(** [file.entries.set(path, node)] after the record is read. *)
Definition fileBody (extension folder fileName : string)
           (entries : gmap string VPKEntryMeta.t)
  : SE BinaryParser.t (gmap string VPKEntryMeta.t) :=
  let* node := readEntry extension folder fileName in
  ret (<[VPKEntryMeta.path node := node]> entries).

Definition folderBody (budget : nat) (extension folder : string)
           (entries : gmap string VPKEntryMeta.t)
  : SE BinaryParser.t (gmap string VPKEntryMeta.t) :=
  eachString budget (fileBody extension folder) entries.

Definition extensionBody (budget : nat) (extension : string)
           (entries : gmap string VPKEntryMeta.t)
  : SE BinaryParser.t (gmap string VPKEntryMeta.t) :=
  eachString budget (folderBody budget extension) entries.

(** The three nested loops of the tree. *)
Definition tree (budget : nat) (entries : gmap string VPKEntryMeta.t)
  : SE BinaryParser.t (gmap string VPKEntryMeta.t) :=
  eachString budget (extensionBody budget) entries.

(** The header fields read after [treeSize]: [dataOffset] and, for version
    2, the four section sizes. *)
Definition headerRest (version treeSize : Z)
  : SE BinaryParser.t (Z * option Z * option Z * option Z * option Z) :=
  if version =? 2 then
    let dataOffset := HEADER_SIZE_V2 + treeSize in
    let* fileDataSectionSize := BinaryParser.readUInt32LE None in
    let* archiveMD5SectionSize := BinaryParser.readUInt32LE None in
    let* otherMD5SectionSize := BinaryParser.readUInt32LE None in
    assert (otherMD5SectionSize =? 48) InvalidHeader ;;;
    let* signatureSectionSize := BinaryParser.readUInt32LE None in
    ret (dataOffset, Some fileDataSectionSize, Some archiveMD5SectionSize,
         Some otherMD5SectionSize, Some signatureSectionSize)
  else
    ret (HEADER_SIZE_V1 + treeSize, None, None, None, None).

(** The header: signature, version, [treeSize], and what [headerRest]
    yields. *)
Definition header
  : SE BinaryParser.t (Z * (Z * option Z * option Z * option Z * option Z)) :=
  let* signature := BinaryParser.readUInt32LE None in
  assert (signature =? SIGNATURE) BadSignature ;;;
  let* version := BinaryParser.readUInt32LE None in
  assert ((version =? 1) || (version =? 2)) UnsupportedVersion ;;;
  let* treeSize := BinaryParser.readUInt32LE None in
  let* h := headerRest version treeSize in
  ret (version, h).

(** The body of [fromFile] once the file's bytes are there.  The loops of
    the tree get one round more than the buffer has bytes. *)
Definition parse (path : string) (data : Buffer.t) : SE BinaryParser.t t :=
  let* vh := header in
  let '(version, (dataOffset, fds, amd, omd, sss)) := vh in
  let* entries := tree (S (List.length data)) ∅ in
  ret (mk version fds amd omd sss path entries
          (Buffer.subarray data dataOffset None) JSMap.empty).

(** [fromFile] on a file whose content is [data]. *)
Definition fromFileData (path : string) (data : Buffer.t) : res t :=
  fst (parse path data (BinaryParser.new data)).

(** *** The methods that talk to the host *)
Section Methods.

Context {W : Type} `{Imports W}.

(** [fromFile(path)] *)
Definition fromFile (path : string) (w : W) : res t * W :=
  match fs_readFile path w with
  | (Ok data, w') => (fromFileData path data, w')
  | (Err e, w') => (Err e, w')
  end.

(** The object, the world around it, and the host calls made so far. *)
Record Sys := mkSys {
  file : t;
  world : W;
  calls : list Call
}.

Definition hostCall {A} (c : Call) (f : W -> res A * W) : SE Sys A :=
  fun s =>
    let '(r, w') := f (world s) in
    (r, mkSys (file s) w' (calls s ++ [c])).

Definition open (archivePath : string) : SE Sys Z :=
  hostCall (CallOpen archivePath) (fs_open archivePath).

(** [read(fd, buff, offset, length, position)]: [bytesRead] and the buffer
    after the call; at most [length] bytes are stored. *)
Definition read (fd : Z) (buff : Buffer.t) (offset length position : Z)
  : SE Sys (Z * Buffer.t) :=
  let* got := hostCall (CallRead fd length position) (fs_read fd length position) in
  let bytes := take (Z.to_nat length) got in
  ret (Buffer.length bytes, Buffer.write buff offset bytes).

Definition close (fd index : Z) (array : list Z) : SE Sys unit :=
  hostCall (CallClose fd) (fs_close fd index array).

(** [this.fdCache.set(archiveIndex, fd)] *)
Definition fdCacheSet (archiveIndex fd : Z) : SE Sys unit :=
  fun s =>
    let f := file s in
    (Ok tt,
     mkSys (mk (version f) (fileDataSectionSize f) (archiveMD5SectionSize f)
               (otherMD5SectionSize f) (signatureSectionSize f) (path f)
               (entries f) (data f) (JSMap.set (fdCache f) archiveIndex fd))
           (world s) (calls s)).

(** [this.fdCache.clear()] *)
Definition fdCacheClear : SE Sys unit :=
  fun s =>
    let f := file s in
    (Ok tt,
     mkSys (mk (version f) (fileDataSectionSize f) (archiveMD5SectionSize f)
               (otherMD5SectionSize f) (signatureSectionSize f) (path f)
               (entries f) (data f) JSMap.empty)
           (world s) (calls s)).

Definition ofRes {A} (r : res A) : SE Sys A := fun s => (r, s).

(** [path.replace(/\\/g, '/')] *)
Fixpoint normalize (p : string) : string :=
  match p with
  | EmptyString => EmptyString
  | String c rest =>
      String (if Ascii.eqb c "\"%char then "/"%char else c) (normalize rest)
  end.

(** [n.toString()] for an integer. *)
Definition toString (n : Z) : string :=
  match n with
  | Z0 => "0"
  | Zpos q => NilZero.string_of_uint (Pos.to_uint q)
  | Zneg q => "-" +:+ NilZero.string_of_uint (Pos.to_uint q)
  end.

(** [s.padStart(3, '0')] *)
Definition padStart3 (s : string) : string :=
  (String.concat EmptyString (replicate (3 - String.length s)%nat "0") +:+ s)%string.

(** [s.replace(/_dir\.vpk$/, replacement)] *)
Definition replaceDirSuffix (s replacement : string) : string :=
  let n := String.length s in
  if (8 <=? n)%nat && String.eqb (substring (n - 8) 8 s) "_dir.vpk"
  then (substring 0 (n - 8) s +:+ replacement)%string
  else s.

Definition archivePathOf (dirPath : string) (archiveIndex : Z) : string :=
  replaceDirSuffix dirPath ("_" +:+ padStart3 (toString archiveIndex) +:+ ".vpk")%string.

(** [readFile(path, validate = false)] *)
Definition readFile (path : string) (validate : bool) : SE Sys Buffer.t :=
  let path := normalize path in
  fun s =>
    let this := file s in
    match entries this !! path with
    | None => (Err FileNotFound, s)
    | Some e =>
        let archiveIndex := VPKEntryMeta.archiveIndex e in
        let entryOffset := VPKEntryMeta.entryOffset e in
        let preloadBytes := VPKEntryMeta.preloadBytes e in
        let entryLength := VPKEntryMeta.entryLength e in
        let buff := Buffer.alloc (preloadBytes + entryLength) in
        (let* buff :=
           match VPKEntryMeta.preload e with
           | Some preload => ofRes (Buffer.copy preload buff 0 0 None)
           | None => ret buff
           end in
         if 0 <? entryLength then
           if archiveIndex =? 0x7fff then
             ofRes (Buffer.copy (data this) buff preloadBytes entryOffset
                                (Some entryLength))
           else
             let archivePath := archivePathOf (VPKFile.path this) archiveIndex in
             let* fd := open archivePath in
             fdCacheSet archiveIndex fd ;;;
             let* r := read fd buff preloadBytes entryLength entryOffset in
             let '(bytesRead, buff) := r in
             assert (bytesRead =? entryLength) ShortRead ;;;
             (if validate
              then assert (crc32 buff =? VPKEntryMeta.CRC e) ValidationFailed
              else ret tt) ;;;
             ret buff
         else ret buff) s
    end.

(** [array.map(close)] from position [index] on, [fds] being the elements
    still to visit: [close(fd, index, array)] is called for every one of
    them, whatever the other calls do. *)
Fixpoint closeEach (array : list Z) (index : Z) (fds : list Z) (s : Sys)
  : list (res unit) * Sys :=
  match fds with
  | [] => ([], s)
  | fd :: rest =>
      let '(r, s1) := close fd index array s in
      let '(rs, s2) := closeEach array (index + 1) rest s1 in
      (r :: rs, s2)
  end.

(** [Promise.all]: fulfilled when every promise is, rejected with the
    first rejection otherwise. *)
Fixpoint promiseAll (rs : list (res unit)) : res unit :=
  match rs with
  | [] => Ok tt
  | Ok _ :: rest => promiseAll rest
  | Err e :: _ => Err e
  end.

(** [closeSubArchives()] *)
Definition closeSubArchives : SE Sys unit :=
  fun s =>
    let cache := fdCache (file s) in
    (fdCacheClear ;;;
     fun s1 =>
       let array := JSMap.values cache in
       let '(rs, s2) := closeEach array 0 array s1 in
       (promiseAll rs, s2)) s.

End Methods.

End VPKFile.

(** ** A host to run the methods against

    An in-memory file system: files by path, descriptors handed out in
    increasing order, and the CRC-32 of the 'crc' package (reflected
    polynomial 0xEDB88320, all-ones initial value and final xor, unsigned
    result) computed bit by bit. *)
Module MemHost.

Record world := mkWorld {
  files : list (string * Buffer.t);
  nextFd : Z;
  openFds : list (Z * string)
}.

Fixpoint fileAt (fs : list (string * Buffer.t)) (path : string) : option Buffer.t :=
  match fs with
  | [] => None
  | (p, c) :: rest => if String.eqb p path then Some c else fileAt rest path
  end.

Fixpoint pathOf (fds : list (Z * string)) (fd : Z) : option string :=
  match fds with
  | [] => None
  | (d, p) :: rest => if d =? fd then Some p else pathOf rest fd
  end.

Definition readFile (path : string) (w : world) : res Buffer.t * world :=
  match fileAt (files w) path with
  | Some c => (Ok c, w)
  | None => (Err HostError, w)
  end.

Definition open (path : string) (w : world) : res Z * world :=
  match fileAt (files w) path with
  | Some _ =>
      (Ok (nextFd w),
       mkWorld (files w) (nextFd w + 1) ((nextFd w, path) :: openFds w))
  | None => (Err HostError, w)
  end.

Definition read (fd length position : Z) (w : world) : res Buffer.t * world :=
  match pathOf (openFds w) fd ≫= fileAt (files w) with
  | Some c => (Ok (Buffer.slice c position (position + length)), w)
  | None => (Err HostError, w)
  end.

(** [fs.close(fd, callback)]: the descriptor is closed when [callback] is
    a function; anything else in its place is refused with a type error and
    the descriptor stays open. *)
Definition fsClose (fd : Z) (callbackIsFunction : bool) (w : world)
  : res unit * world :=
  if callbackIsFunction then
    match pathOf (openFds w) fd with
    | Some _ =>
        (Ok tt,
         mkWorld (files w) (nextFd w)
                 (filter (fun dp => fst dp ≠ fd) (openFds w)))
    | None => (Err HostError, w)
    end
  else (Err HostError, w).

(** The promisified [close] called with [(fd, index, array)] hands
    [fs.close] the number [index] where the callback goes. *)
Definition close (fd index : Z) (array : list Z) (w : world) : res unit * world :=
  fsClose fd false w.

Definition crcBit (crc : Z) : Z :=
  if Z.testbit crc 0
  then Z.lxor (Z.shiftr crc 1) 0xEDB88320
  else Z.shiftr crc 1.

Definition crcByte (crc : Z) (b : byte) : Z :=
  Nat.iter 8 crcBit (Z.lxor crc (Buffer.u8 b)).

Definition crc32 (buf : Buffer.t) : Z :=
  Z.lxor (fold_left crcByte buf 0xFFFFFFFF) 0xFFFFFFFF.

#[global] Instance imports : Imports world :=
  Build_Imports world crc32 readFile open read close.

End MemHost.

(** ** Sequences of parser operations

    The cursor-moving methods as data, to speak about every sequence of
    calls on one parser.  A call that throws leaves the parser usable, so a
    sequence goes on after a failure. *)
Inductive Op :=
  | ReadUInt32LE
  | ReadUInt16LE
  | ReadString
  | ReadBytes (bytes : Z)
  | Seek (offset : option Z) (mode : SeekMode)
  | Reset.

(** Whether the call returned, and the parser after it. *)
Definition perform (op : Op) (p : BinaryParser.t) : bool * BinaryParser.t :=
  let returned {A} (r : res A * BinaryParser.t) : bool * BinaryParser.t :=
    (match fst r with Ok _ => true | Err _ => false end, snd r) in
  match op with
  | ReadUInt32LE => returned (BinaryParser.readUInt32LE None p)
  | ReadUInt16LE => returned (BinaryParser.readUInt16LE None p)
  | ReadString => returned (BinaryParser.readString None p)
  | ReadBytes n => returned (BinaryParser.readBytes n p)
  | Seek o m => returned (BinaryParser.seek o m p)
  | Reset => returned (BinaryParser.reset p)
  end.

Definition performAll (ops : list Op) (p : BinaryParser.t) : BinaryParser.t :=
  fold_left (fun q op => snd (perform op q)) ops p.

(** A byte count handed to [readBytes] is not negative. *)
Definition countOk (op : Op) : Prop :=
  match op with
  | ReadBytes n => 0 <= n
  | _ => True
  end.

(** ** Notions used to reason about the parser *)

(** Two parsers at the same cursor over buffers of one length that hold the
    same bytes from index [k] on. *)
Definition agree (k : Z) (p q : BinaryParser.t) : Prop :=
  BinaryParser.cursor p = BinaryParser.cursor q
  /\ List.length (BinaryParser.data p) = List.length (BinaryParser.data q)
  /\ forall i, k <= i ->
       Buffer.get (BinaryParser.data p) i = Buffer.get (BinaryParser.data q) i.

(** A loop budget of [n] rounds is enough at [p]: every round that goes on
    consumes at least one byte. *)
Definition enough (n : nat) (p : BinaryParser.t) : Prop :=
  (1 <= n)%nat
  /\ Buffer.length (BinaryParser.data p) - BinaryParser.cursor p < Z.of_nat n.

(** A property of parser states that survives moving the cursor forward. *)
Definition stable (P : BinaryParser.t -> Prop) : Prop :=
  forall p p',
    BinaryParser.data p' = BinaryParser.data p ->
    BinaryParser.cursor p <= BinaryParser.cursor p' ->
    P p -> P p'.

(** [sound k P m Q]: started at a cursor at or after [k] in a state with
    [P], the step [m] never runs out of loop budget; when it returns, its
    value has [Q], the buffer is the same and the cursor has not moved back;
    and it does the same on every parser that agrees from [k] on. *)
Definition sound {A} (k : Z) (P : BinaryParser.t -> Prop)
           (m : SE BinaryParser.t A) (Q : A -> Prop) : Prop :=
  forall p, k <= BinaryParser.cursor p -> P p ->
    fst (m p) <> Err LoopBudget
    /\ (forall a, fst (m p) = Ok a ->
        Q a
        /\ BinaryParser.data (snd (m p)) = BinaryParser.data p
        /\ BinaryParser.cursor p <= BinaryParser.cursor (snd (m p)))
    /\ (forall q, agree k p q ->
        fst (m q) = fst (m p)
        /\ (forall a, fst (m p) = Ok a -> agree k (snd (m p)) (snd (m q)))).

(** [Reached body acc p s acc' p']: the loop [eachString _ body], started
    with [acc] at [p], comes to run [body s acc'] at [p']. *)
Inductive Reached {A} (body : string -> A -> SE BinaryParser.t A)
  : A -> BinaryParser.t -> string -> A -> BinaryParser.t -> Prop :=
  | Reached_here acc p s p1 :
      BinaryParser.readString None p = (Ok s, p1) ->
      VPKFile.isEmpty s = false ->
      Reached body acc p s acc p1
  | Reached_next acc p s p1 acc1 p2 s' acc' p' :
      BinaryParser.readString None p = (Ok s, p1) ->
      VPKFile.isEmpty s = false ->
      body s acc p1 = (Ok acc1, p2) ->
      Reached body acc1 p2 s' acc' p' ->
      Reached body acc p s' acc' p'.

(** The parse of [d] comes to read the entry record of
    [folder/fileName.extension] at parser state [p], with [entries] read so
    far. *)
Definition EntryReached (d : Buffer.t) (extension folder fileName : string)
           (entries : gmap string VPKEntryMeta.t) (p : BinaryParser.t) : Prop :=
  let budget := S (List.length d) in
  exists vh p0 es1 p1 es2 p2,
    VPKFile.header (BinaryParser.new d) = (Ok vh, p0)
    /\ Reached (VPKFile.extensionBody budget) ∅ p0 extension es1 p1
    /\ Reached (VPKFile.folderBody budget extension) es1 p1 folder es2 p2
    /\ Reached (VPKFile.fileBody extension folder) es2 p2 fileName entries p.

(** What [parse] does once [version] and [treeSize] are read. *)
Definition afterTreeSize (path : string) (d : Buffer.t) (version treeSize : Z)
  : SE BinaryParser.t VPKFile.t :=
  let* h := VPKFile.headerRest version treeSize in
  let '(dataOffset, fds, amd, omd, sss) := h in
  let* entries := VPKFile.tree (S (List.length d)) ∅ in
  ret (VPKFile.mk version fds amd omd sss path entries
                  (Buffer.subarray d dataOffset None) JSMap.empty).

(** The header size that goes into [dataOffset]. *)
Definition headerSize (version : Z) : Z :=
  if version =? 2 then VPKFile.HEADER_SIZE_V2 else VPKFile.HEADER_SIZE_V1.

(** The section sizes and the entry table, which are read without regard to
    [treeSize]. *)
Definition sectionsAndTree (budget : nat) (version : Z)
  : SE BinaryParser.t
       ((Z * option Z * option Z * option Z * option Z)
        * gmap string VPKEntryMeta.t) :=
  let* h := VPKFile.headerRest version 0 in
  let* entries := VPKFile.tree budget ∅ in
  ret (h, entries).

(** ** Sample inputs *)

(** Magic, version 1, treeSize 0, and one zero byte. *)
Definition emptyTreeBytes : Buffer.t :=
  [x34; x12; xaa; x55;  x01; x00; x00; x00;  x00; x00; x00; x00;  x00].

(** An entry whose content is the one byte at offset 1 of the directory
    file's own data ([archiveIndex] 0x7fff, [entryOffset] 1, [entryLength]
    1, no preload). *)
Definition inlineEntry : VPKEntryMeta.t :=
  VPKEntryMeta.mk "txt" "scripts" "items" "scripts/items.txt"
                  0 0 None 0x7fff 1 1.

Definition inlineFile : VPKFile.t :=
  VPKFile.mk 1 None None None None "pak01_dir.vpk"
             {[ "scripts/items.txt"%string := inlineEntry ]}
             [xaa; xbb] JSMap.empty.

(** An entry stored in archive 3, bytes 1..2, with one preload byte 'A' and
    the checksum of 'A' followed by those two bytes. *)
Definition externalEntry : VPKEntryMeta.t :=
  VPKEntryMeta.mk "txt" "scripts" "items" "scripts/items.txt"
                  (MemHost.crc32 [x41; x02; x03]) 1 (Some [x41]) 3 1 2.

Definition externalFile : VPKFile.t :=
  VPKFile.mk 1 None None None None "pak01_dir.vpk"
             {[ "scripts/items.txt"%string := externalEntry ]}
             [] JSMap.empty.

(** A world that holds archive 3 and hands out descriptors from 10 on. *)
Definition sampleWorld : MemHost.world :=
  MemHost.mkWorld [("pak01_003.vpk"%string, [x01; x02; x03; x04])] 10 [].

(** Entries whose stored checksum 0 is not the checksum of their content:
    one in the directory file's own data, one that is preload only, one in
    archive 3. *)
Definition staleInlineFile : VPKFile.t :=
  VPKFile.mk 1 None None None None "pak01_dir.vpk"
             {[ "scripts/items.txt"%string :=
                  VPKEntryMeta.mk "txt" "scripts" "items" "scripts/items.txt"
                                  0 0 None 0x7fff 0 2 ]}
             [xaa; xbb] JSMap.empty.

Definition stalePreloadFile : VPKFile.t :=
  VPKFile.mk 1 None None None None "pak01_dir.vpk"
             {[ "scripts/items.txt"%string :=
                  VPKEntryMeta.mk "txt" "scripts" "items" "scripts/items.txt"
                                  0 1 (Some [x41]) 0x7fff 0 0 ]}
             [] JSMap.empty.

Definition staleExternalFile : VPKFile.t :=
  VPKFile.mk 1 None None None None "pak01_dir.vpk"
             {[ "scripts/items.txt"%string :=
                  VPKEntryMeta.mk "txt" "scripts" "items" "scripts/items.txt"
                                  0 0 None 3 0 2 ]}
             [] JSMap.empty.

(** A tree with the one entry scripts/items.txt: checksum 0x04030201, two
    preload bytes [aa bb], content of length 2 at offset 0 of the directory
    file's own data; [terminator] is the byte pair after the record's five
    fields. *)
Definition treeBytes (terminator : Buffer.t) : Buffer.t :=
  [x74; x78; x74; x00] (* txt *)
  ++ [x73; x63; x72; x69; x70; x74; x73; x00] (* scripts *)
  ++ [x69; x74; x65; x6d; x73; x00] (* items *)
  ++ [x01; x02; x03; x04;  x02; x00;  xff; x7f;  x00; x00; x00; x00;
      x02; x00; x00; x00]
  ++ terminator
  ++ [xaa; xbb]
  ++ [x00; x00; x00]
  ++ [x10; x11].

(** A version-1 directory file around [treeBytes], with the four bytes of
    its [treeSize] field as given. *)
Definition directoryBytes (treeSize terminator : Buffer.t) : Buffer.t :=
  [x34; x12; xaa; x55;  x01; x00; x00; x00] ++ treeSize ++ treeBytes terminator.

(** ** Integers as JavaScript numbers

    The integers a number holds exactly, with exact sums and differences
    as long as the result is one of them too. *)
Definition exactInteger (n : Z) : Prop := - 2 ^ 53 <= n <= 2 ^ 53.

(** ** asIterator

    The generator [*asIterator()].  Its body starts to run at the first
    [next()], where it takes the buffer length; it stops at each [yield]
    with the cursor still on the byte it hands out, and goes on from there
    at the following [next()], where the loop's [this.cursor++] runs first.
    The cursor is the parser's own, shared with every other method. *)
Inductive GenState :=
  | GenFresh
  | GenYielded (length : Z)
  | GenDone.

(** What [next()] returns: [{ value, done: false }], where [value] is
    [this.data[this.cursor]] (possibly [undefined]), or [{ done: true }]. *)
Inductive IterResult :=
  | IterValue (value : option byte)
  | IterDone.

(** The loop test followed by the [yield]. *)
Definition genLoop (length : Z) : SE BinaryParser.t (IterResult * GenState) :=
  fun p =>
    if BinaryParser.cursor p <? length
    then (Ok (IterValue (Buffer.get (BinaryParser.data p) (BinaryParser.cursor p)),
              GenYielded length), p)
    else (Ok (IterDone, GenDone), p).

(** [gen.next()] *)
Definition genNext (g : GenState) : SE BinaryParser.t (IterResult * GenState) :=
  match g with
  | GenFresh => fun p => genLoop (Buffer.length (BinaryParser.data p)) p
  | GenYielded length =>
      fun p =>
        (BinaryParser.setCursor (BinaryParser.cursor p + 1) ;;;
         genLoop length) p
  | GenDone => ret (IterDone, GenDone)
  end.

(** [[...gen]]: [next()] until it reports [done], at most [budget] times. *)
Fixpoint genCollect (budget : nat) (g : GenState)
  : SE BinaryParser.t (list (option byte)) :=
  match budget with
  | O => throw LoopBudget
  | S budget' =>
      let* r := genNext g in
      match r with
      | (IterValue v, g') =>
          let* rest := genCollect budget' g' in
          ret (v :: rest)
      | (IterDone, _) => ret []
      end
  end.

(** ** What the parsed table looks like *)

(** An entry as [fromFile] builds it, stored under [key]: the key is its
    path [folder/fileName.extension], the three names are not empty, the
    numbers have the width they were read with, and [preload] is there
    exactly when [preloadBytes] is not 0, with that many bytes. *)
Definition entryOk (key : string) (e : VPKEntryMeta.t) : Prop :=
  key = VPKEntryMeta.path e
  /\ VPKEntryMeta.path e
     = (VPKEntryMeta.folder e +:+ "/" +:+ VPKEntryMeta.fileName e
        +:+ "." +:+ VPKEntryMeta.extension e)%string
  /\ VPKFile.isEmpty (VPKEntryMeta.extension e) = false
  /\ VPKFile.isEmpty (VPKEntryMeta.folder e) = false
  /\ VPKFile.isEmpty (VPKEntryMeta.fileName e) = false
  /\ 0 <= VPKEntryMeta.CRC e < 2 ^ 32
  /\ 0 <= VPKEntryMeta.preloadBytes e < 2 ^ 16
  /\ 0 <= VPKEntryMeta.archiveIndex e < 2 ^ 16
  /\ 0 <= VPKEntryMeta.entryOffset e < 2 ^ 32
  /\ 0 <= VPKEntryMeta.entryLength e < 2 ^ 32
  /\ match VPKEntryMeta.preload e with
     | Some b =>
         VPKEntryMeta.preloadBytes e <> 0
         /\ Buffer.length b = VPKEntryMeta.preloadBytes e
     | None => VPKEntryMeta.preloadBytes e = 0
     end.

Definition tableOk (entries : gmap string VPKEntryMeta.t) : Prop :=
  forall key e, entries !! key = Some e -> entryOk key e.

(** The errors the parser's own steps can end in, the loop budget among
    them. *)
Definition stepError (e : Error) : Prop :=
  e = BadSignature \/ e = UnsupportedVersion \/ e = InvalidHeader
  \/ e = BadEntryTerminator \/ e = OutOfBounds \/ e = InsufficientData
  \/ e = LoopBudget.

(** [holds m Q]: from a cursor that is not negative, the step [m] returns a
    value with [Q] at a cursor that is not negative, or throws one of the
    parser's errors. *)
Definition holds {A} (m : SE BinaryParser.t A) (Q : A -> Prop) : Prop :=
  forall p, 0 <= BinaryParser.cursor p ->
    match m p with
    | (Ok a, p') => Q a /\ 0 <= BinaryParser.cursor p'
    | (Err e, _) => stepError e
    end.

(** [this.fdCache.get(archiveIndex)] *)
Fixpoint cacheGet (m : JSMap.t Z) (k : Z) : option Z :=
  match m with
  | [] => None
  | (k', v) :: m' => if k' =? k then Some v else cacheGet m' k
  end.

(** The bytes of an entry's preload; none when there is no preload. *)
Definition preloadOf (e : VPKEntryMeta.t) : Buffer.t :=
  match VPKEntryMeta.preload e with
  | Some b => b
  | None => []
  end.

(** The branch of [readFile] for content in an external archive, from the
    buffer [buff] that already holds the preload. *)
Definition readExternal {W : Type} `{Imports W} (this : VPKFile.t)
           (e : VPKEntryMeta.t) (validate : bool) (buff : Buffer.t)
  : SE VPKFile.Sys Buffer.t :=
  let archiveIndex := VPKEntryMeta.archiveIndex e in
  let archivePath := VPKFile.archivePathOf (VPKFile.path this) archiveIndex in
  let* fd := VPKFile.open archivePath in
  VPKFile.fdCacheSet archiveIndex fd ;;;
  let* r := VPKFile.read fd buff (VPKEntryMeta.preloadBytes e)
                         (VPKEntryMeta.entryLength e)
                         (VPKEntryMeta.entryOffset e) in
  let '(bytesRead, buff) := r in
  assert (bytesRead =? VPKEntryMeta.entryLength e) ShortRead ;;;
  (if validate
   then assert (crc32 buff =? VPKEntryMeta.CRC e) ValidationFailed
   else ret tt) ;;;
  ret buff.

(** The object with another handle cache. *)
Definition withCache (f : VPKFile.t) (cache : JSMap.t Z) : VPKFile.t :=
  VPKFile.mk (VPKFile.version f) (VPKFile.fileDataSectionSize f)
             (VPKFile.archiveMD5SectionSize f) (VPKFile.otherMD5SectionSize f)
             (VPKFile.signatureSectionSize f) (VPKFile.path f)
             (VPKFile.entries f) (VPKFile.data f) cache.

(** * Properties *)

(** ** Buffers *)

Lemma u8_zero (b : byte) : Buffer.u8 b = 0 <-> b = x00.
Proof.
  split; [| intros ->; reflexivity].
  destruct b; vm_compute; congruence.
Qed.

Lemma u8_range (b : byte) : 0 <= Buffer.u8 b < 256.
Proof. destruct b; vm_compute; split; congruence. Qed.

Lemma truthy_true (o : option byte) :
  Buffer.truthy o = true <-> exists b, o = Some b /\ b <> x00.
Proof.
  destruct o as [b|]; simpl.
  - rewrite negb_true_iff, Z.eqb_neq, u8_zero. split.
    + intros Hb. exists b. auto.
    + intros (b' & [= <-] & Hb). exact Hb.
  - split; [discriminate | intros (b & Hb & _); discriminate].
Qed.

Lemma truthy_false (o : option byte) :
  Buffer.truthy o = false <-> o = Some x00 \/ o = None.
Proof.
  destruct o as [b|]; simpl.
  - rewrite negb_false_iff, Z.eqb_eq, u8_zero. split.
    + intros ->. auto.
    + intros [[= ->] | [=]]. reflexivity.
  - split; auto.
Qed.

Lemma get_None (d : Buffer.t) (i : Z) :
  Buffer.get d i = None <-> i < 0 \/ Buffer.length d <= i.
Proof.
  unfold Buffer.get, Buffer.length.
  destruct (Z.ltb_spec i 0).
  - split; auto.
  - rewrite lookup_ge_None. lia.
Qed.

Lemma get_Some (d : Buffer.t) (i : Z) :
  0 <= i < Buffer.length d -> exists b, Buffer.get d i = Some b.
Proof.
  intros Hi. destruct (Buffer.get d i) as [b|] eqn:E; [eauto |].
  apply get_None in E. lia.
Qed.

(** ** The scan of [readString] *)

Lemma scan_ge (n : nat) (d : Buffer.t) (e : Z) : e <= BinaryParser.scan n d e.
Proof.
  revert e. induction n as [|n IH]; intros e; simpl; [lia |].
  destruct (_ && _); [| lia]. specialize (IH (e + 1)). lia.
Qed.

Lemma scan_le (n : nat) (d : Buffer.t) (e : Z) :
  BinaryParser.scan n d e <= Z.max e (Buffer.length d).
Proof.
  revert e. induction n as [|n IH]; intros e; simpl; [lia |].
  destruct (Z.ltb_spec e (Buffer.length d)); simpl; [| lia].
  destruct (Buffer.truthy _); [| lia]. specialize (IH (e + 1)). lia.
Qed.

Lemma scan_truthy (n : nat) (d : Buffer.t) (e i : Z) :
  e <= i < BinaryParser.scan n d e -> Buffer.truthy (Buffer.get d i) = true.
Proof.
  revert e. induction n as [|n IH]; intros e; simpl; [lia |].
  destruct (_ && _) eqn:E; [| lia].
  intros Hi. apply andb_true_iff in E as [_ E].
  destruct (Z.eq_dec i e) as [-> | Hne]; [exact E |].
  apply (IH (e + 1)). lia.
Qed.

(** The budget [scanEnd] gives the loop is enough: where it stops, the loop
    condition is false. *)
Lemma scan_stops (n : nat) (d : Buffer.t) (e : Z) :
  Buffer.length d - e <= Z.of_nat n \/ e < 0 ->
  let e' := BinaryParser.scan n d e in
  (e' <? Buffer.length d) && Buffer.truthy (Buffer.get d e') = false.
Proof.
  revert e. induction n as [|n IH]; intros e Hn; simpl.
  - destruct Hn as [Hn | Hn].
    + apply andb_false_iff. left. apply Z.ltb_ge. lia.
    + apply andb_false_iff. right. apply truthy_false. right.
      apply get_None. lia.
  - destruct ((e <? Buffer.length d) && Buffer.truthy (Buffer.get d e)) eqn:E;
      [| exact E].
    apply IH. apply andb_true_iff in E as [_ E].
    apply truthy_true in E as (b & Hb & _).
    destruct Hn as [Hn | Hn]; [left; lia |].
    assert (Buffer.get d e = None) by (apply get_None; lia). congruence.
Qed.

Lemma scanEnd_stops (d : Buffer.t) (c : Z) :
  let e := BinaryParser.scanEnd d c in
  Buffer.get d e = Some x00 \/ Buffer.get d e = None.
Proof.
  intros e. apply truthy_false.
  pose proof (scan_stops (List.length d) d c) as H.
  assert (Hn : Buffer.length d - c <= Z.of_nat (List.length d) \/ c < 0)
    by (unfold Buffer.length; lia).
  specialize (H Hn). cbv zeta in H. fold (BinaryParser.scanEnd d c) in H. fold e in H.
  apply andb_false_iff in H as [H | H]; [| exact H].
  apply truthy_false. right. apply get_None. apply Z.ltb_ge in H. lia.
Qed.

Lemma scanEnd_ge (d : Buffer.t) (c : Z) : c <= BinaryParser.scanEnd d c.
Proof. apply scan_ge. Qed.

Lemma scanEnd_le (d : Buffer.t) (c : Z) :
  BinaryParser.scanEnd d c <= Z.max c (Buffer.length d).
Proof. apply scan_le. Qed.

Lemma notAsNumber_scanEnd (d : Buffer.t) (c : Z) :
  BinaryParser.notAsNumber (Buffer.get d (BinaryParser.scanEnd d c)) = 1.
Proof.
  unfold BinaryParser.notAsNumber.
  destruct (scanEnd_stops d c) as [-> | ->]; reflexivity.
Qed.

Lemma readString_eq (d : Buffer.t) (c : Z) :
  BinaryParser.readString None (BinaryParser.mk d c)
  = (Ok (Buffer.toString_ascii d c (BinaryParser.scanEnd d c)),
     BinaryParser.mk d (BinaryParser.scanEnd d c + 1)).
Proof.
  unfold BinaryParser.readString, bind, BinaryParser.setCursor, ret. simpl.
  rewrite notAsNumber_scanEnd. reflexivity.
Qed.

Lemma slice_length (d : Buffer.t) (s e : Z) :
  0 <= s <= e -> e <= Buffer.length d ->
  List.length (Buffer.slice d s e) = Z.to_nat (e - s).
Proof.
  intros Hs He. unfold Buffer.slice, Buffer.length in *.
  rewrite length_take, length_drop. lia.
Qed.

Lemma slice_empty (d : Buffer.t) (s : Z) : Buffer.slice d s s = [].
Proof. unfold Buffer.slice. rewrite Nat.sub_diag. reflexivity. Qed.

Lemma toString_ascii_length (d : Buffer.t) (s e : Z) :
  String.length (Buffer.toString_ascii d s e) = List.length (Buffer.slice d s e).
Proof.
  unfold Buffer.toString_ascii.
  generalize (Buffer.slice d s e). intros l.
  induction l as [|x l IH]; simpl; congruence.
Qed.

Lemma scanEnd_falsy (d : Buffer.t) (c : Z) :
  Buffer.truthy (Buffer.get d c) = false -> BinaryParser.scanEnd d c = c.
Proof.
  intros Hc. pose proof (scanEnd_ge d c) as Hge.
  destruct (Z.eq_dec (BinaryParser.scanEnd d c) c) as [E | E]; [exact E |].
  assert (Ht : Buffer.truthy (Buffer.get d c) = true).
  { apply (scan_truthy (List.length d) d c c).
    fold (BinaryParser.scanEnd d c). lia. }
  congruence.
Qed.

(** C6: the cursor-advancing [readString] scans from the cursor [c] to the
    first position [e] that holds a zero byte or no byte at all, returns the
    bytes [c .. e-1] decoded as ASCII and sets the cursor to [e + 1].  The
    result is empty when the byte at [c] is zero or [c] is the buffer end;
    when no zero byte is found from a cursor inside the buffer, the scan
    stops at the buffer length [L]; and whenever it stops at [L] the cursor
    becomes [L + 1]. *)
Theorem readString_advances (d : Buffer.t) (c : Z) :
  let L := Buffer.length d in
  let e := BinaryParser.scanEnd d c in
  BinaryParser.readString None (BinaryParser.mk d c)
    = (Ok (Buffer.toString_ascii d c e), BinaryParser.mk d (e + 1))
  /\ c <= e
  /\ (forall i, c <= i < e -> exists b, Buffer.get d i = Some b /\ b <> x00)
  /\ (Buffer.get d e = Some x00 \/ Buffer.get d e = None)
  /\ (0 <= c <= L ->
      e <= L /\ String.length (Buffer.toString_ascii d c e) = Z.to_nat (e - c))
  /\ (Buffer.get d c = Some x00 \/ c = L ->
      e = c /\ Buffer.toString_ascii d c e = EmptyString)
  /\ (0 <= c <= L -> (forall i, c <= i < L -> Buffer.get d i <> Some x00) ->
      e = L)
  /\ (e = L ->
      BinaryParser.cursor (snd (BinaryParser.readString None (BinaryParser.mk d c)))
      = L + 1).
Proof.
  intros L e.
  pose proof (scanEnd_ge d c) as Hge. pose proof (scanEnd_le d c) as Hle.
  pose proof (scanEnd_stops d c) as Hstop. cbv zeta in Hstop.
  fold e in Hge, Hle, Hstop. fold L in Hle.
  assert (Hin : 0 <= c <= L -> e <= L) by lia.
  assert (Hempty : Buffer.get d c = Some x00 \/ c = L -> e = c).
  { intros H. apply scanEnd_falsy. apply truthy_false.
    destruct H as [H | ->]; [auto |]. right. apply get_None. lia. }
  assert (Hend : 0 <= c <= L ->
                 (forall i, c <= i < L -> Buffer.get d i <> Some x00) -> e = L).
  { intros Hc Hnz. destruct Hstop as [Hz | Hn].
    - destruct (Z.eq_dec e L) as [E | E]; [exact E |].
      exfalso. apply (Hnz e); [lia | exact Hz].
    - apply get_None in Hn. lia. }
  split_and!.
  - apply readString_eq.
  - exact Hge.
  - intros i Hi. apply truthy_true.
    apply (scan_truthy (List.length d) d c i). exact Hi.
  - exact Hstop.
  - intros Hc. split; [auto |].
    rewrite toString_ascii_length. apply slice_length; [lia | auto].
  - intros H. split; [auto |].
    rewrite (Hempty H). unfold Buffer.toString_ascii.
    rewrite slice_empty. reflexivity.
  - exact Hend.
  - intros E. rewrite readString_eq. simpl. fold e. rewrite E. reflexivity.
Qed.

(** At the two bytes 'ab' with no terminator the read returns 'ab' and leaves
    the cursor at 3, one past the buffer length. *)
Lemma readString_advances_witness :
  BinaryParser.cursor
    (snd (BinaryParser.readString None (BinaryParser.mk [x61; x62] 0)))
  = Buffer.length [x61; x62] + 1.
Proof.
  destruct (readString_advances [x61; x62] 0) as (_ & _ & _ & _ & _ & _ & H & HL).
  apply HL. apply H.
  - vm_compute. split; discriminate.
  - intros i Hi.
    assert (Hc : i = 0 \/ i = 1) by (change (Buffer.length [x61; x62]) with 2 in Hi; lia).
    destruct Hc as [-> | ->]; vm_compute; discriminate.
Defined.

(** ** seek *)

(** C7 as amended: [seek(offset, Absolute)] returns [offset] and moves the
    cursor there iff [0 < offset <= L], and throws 'Invalid offset' leaving
    the cursor alone otherwise; so [seek(0)] and [seek(L+1)] throw, and
    [seek(L)] returns for a buffer that is not empty.  [seek(offset,
    Relative)] does the same with [cursor + offset]. *)
Theorem seek_range (d : Buffer.t) (c offset : Z) :
  let L := Buffer.length d in
  let p := BinaryParser.mk d c in
  (0 < offset <= L ->
   BinaryParser.seek (Some offset) Absolute p = (Ok offset, BinaryParser.mk d offset))
  /\ (~ 0 < offset <= L ->
      BinaryParser.seek (Some offset) Absolute p = (Err InvalidOffset, p))
  /\ BinaryParser.seek (Some 0) Absolute p = (Err InvalidOffset, p)
  /\ (0 < L -> BinaryParser.seek (Some L) Absolute p = (Ok L, BinaryParser.mk d L))
  /\ BinaryParser.seek (Some (L + 1)) Absolute p = (Err InvalidOffset, p)
  /\ (0 < c + offset <= L ->
      BinaryParser.seek (Some offset) Relative p
      = (Ok (c + offset), BinaryParser.mk d (c + offset)))
  /\ (~ 0 < c + offset <= L ->
      BinaryParser.seek (Some offset) Relative p = (Err InvalidOffset, p)).
Proof.
  intros L p.
  assert (Habs : forall o,
             BinaryParser.seek (Some o) Absolute p
             = if (0 <? o) && (o <=? L)
               then (Ok o, BinaryParser.mk d o) else (Err InvalidOffset, p)).
  { intros o. unfold BinaryParser.seek, bind, assert. simpl. fold L.
    destruct ((0 <? o) && (o <=? L)); reflexivity. }
  assert (Hrel : BinaryParser.seek (Some offset) Relative p
                 = if (0 <? c + offset) && (c + offset <=? L)
                   then (Ok (c + offset), BinaryParser.mk d (c + offset))
                   else (Err InvalidOffset, p)).
  { unfold BinaryParser.seek, bind, assert. simpl. fold L.
    destruct ((0 <? c + offset) && (c + offset <=? L)); reflexivity. }
  assert (Hb : forall o, (0 <? o) && (o <=? L) = true <-> 0 < o <= L).
  { intros o. rewrite andb_true_iff, Z.ltb_lt, Z.leb_le. tauto. }
  split_and!.
  - intros Ho. rewrite Habs. apply Hb in Ho. rewrite Ho. reflexivity.
  - intros Ho. rewrite Habs.
    destruct ((0 <? offset) && (offset <=? L)) eqn:E; [| reflexivity].
    apply Hb in E. contradiction.
  - rewrite Habs. reflexivity.
  - intros HL. rewrite Habs.
    assert (E : (0 <? L) && (L <=? L) = true) by (apply Hb; lia).
    rewrite E. reflexivity.
  - rewrite Habs.
    destruct ((0 <? L + 1) && (L + 1 <=? L)) eqn:E; [| reflexivity].
    apply Hb in E. lia.
  - intros Ho. rewrite Hrel. apply Hb in Ho. rewrite Ho. reflexivity.
  - intros Ho. rewrite Hrel.
    destruct ((0 <? c + offset) && (c + offset <=? L)) eqn:E; [| reflexivity].
    apply Hb in E. contradiction.
Qed.

(** On a two-byte buffer [seek(2)] returns 2, and from cursor 1 a relative
    seek by 1 returns 2 as well. *)
Lemma seek_range_witness :
  BinaryParser.seek (Some 2) Absolute (BinaryParser.mk [x61; x62] 0)
  = (Ok 2, BinaryParser.mk [x61; x62] 2)
  /\ BinaryParser.seek (Some 1) Relative (BinaryParser.mk [x61; x62] 1)
     = (Ok 2, BinaryParser.mk [x61; x62] 2).
Proof.
  split.
  - destruct (seek_range [x61; x62] 0 2) as (H & _). apply H.
    vm_compute. split; [reflexivity | discriminate].
  - destruct (seek_range [x61; x62] 1 1) as (_ & _ & _ & _ & _ & H & _). apply H.
    vm_compute. split; [reflexivity | discriminate].
Defined.

(** C7 as stated fails on the empty buffer: its length is 0, and
    [seek(length, Absolute)] throws 'Invalid offset' there instead of
    succeeding. *)
Lemma seek_length_of_empty_buffer_fails :
  BinaryParser.seek (Some (Buffer.length [])) Absolute (BinaryParser.new [])
  = (Err InvalidOffset, BinaryParser.new []).
Proof. reflexivity. Qed.

(** ** The cursor over sequences of operations *)

Lemma perform_data (op : Op) (p : BinaryParser.t) :
  BinaryParser.data (snd (perform op p)) = BinaryParser.data p.
Proof.
  destruct p as [d c]. destruct op; simpl; try reflexivity.
  - unfold BinaryParser.readBytes, bind, assert. simpl.
    destruct (c + bytes <=? Buffer.length d); reflexivity.
  - unfold BinaryParser.seek, bind, assert. simpl.
    destruct offset as [offset |]; [| reflexivity].
    destruct mode; simpl.
    + destruct ((0 <? offset) && (offset <=? Buffer.length d)); reflexivity.
    + destruct ((0 <? c + offset) && (c + offset <=? Buffer.length d)); reflexivity.
Qed.

(** What one call does to the cursor.  The integer reads move it whether or
    not they return; [readBytes] and [seek] move it only when they return,
    and then to a place inside the buffer. *)
Lemma perform_cursor (op : Op) (p : BinaryParser.t) :
  let L := Buffer.length (BinaryParser.data p) in
  let c := BinaryParser.cursor p in
  let c' := BinaryParser.cursor (snd (perform op p)) in
  match op with
  | ReadUInt32LE => c' = c + 4
  | ReadUInt16LE => c' = c + 2
  | ReadString => c' = BinaryParser.scanEnd (BinaryParser.data p) c + 1
  | ReadBytes n =>
      if fst (perform op p) then c' = c + n /\ c' <= L else c' = c
  | Seek (Some _) _ =>
      if fst (perform op p) then 0 < c' <= L else c' = c
  | Seek None _ => c' = c
  | Reset => c' = 0
  end.
Proof.
  destruct p as [d c]. destruct op; unfold perform; cbn [fst snd];
    cbn [BinaryParser.data BinaryParser.cursor]; try reflexivity.
  - rewrite readString_eq. reflexivity.
  - unfold BinaryParser.readBytes, bind, assert. simpl.
    destruct (Z.leb_spec (c + bytes) (Buffer.length d)); simpl; [split |]; lia.
  - unfold BinaryParser.seek, bind, assert. simpl.
    destruct offset as [offset |]; [| reflexivity].
    destruct mode; simpl.
    + destruct ((0 <? offset) && (offset <=? Buffer.length d)) eqn:E; simpl;
        [| reflexivity].
      apply andb_true_iff in E as [E1 E2]. apply Z.ltb_lt in E1.
      apply Z.leb_le in E2. lia.
    + destruct ((0 <? c + offset) && (c + offset <=? Buffer.length d)) eqn:E;
        simpl; [| reflexivity].
      apply andb_true_iff in E as [E1 E2]. apply Z.ltb_lt in E1.
      apply Z.leb_le in E2. lia.
Qed.

Lemma perform_cursor_bound (op : Op) (p : BinaryParser.t) (B : Z) :
  countOk op ->
  let L := Buffer.length (BinaryParser.data p) in
  0 <= BinaryParser.cursor p <= L + B ->
  0 <= B ->
  0 <= BinaryParser.cursor (snd (perform op p)) <= L + (B + 4).
Proof.
  intros Hop L Hc HB. pose proof (perform_cursor op p) as H. cbv zeta in H.
  fold L in H.
  destruct op; try lia.
  - pose proof (scanEnd_ge (BinaryParser.data p) (BinaryParser.cursor p)).
    pose proof (scanEnd_le (BinaryParser.data p) (BinaryParser.cursor p)).
    fold L in H1. lia.
  - simpl in Hop. destruct (fst _); lia.
  - destruct offset; [destruct (fst _) |]; lia.
Qed.

Lemma performAll_snoc (ops : list Op) (op : Op) (p : BinaryParser.t) :
  performAll (ops ++ [op]) p = snd (perform op (performAll ops p)).
Proof. unfold performAll. rewrite fold_left_app. reflexivity. Qed.

Lemma performAll_data (ops : list Op) (p : BinaryParser.t) :
  BinaryParser.data (performAll ops p) = BinaryParser.data p.
Proof.
  induction ops as [|op ops IH] using rev_ind; [reflexivity |].
  rewrite performAll_snoc, perform_data. exact IH.
Qed.

Lemma performAll_cursor_bound (d : Buffer.t) (ops : list Op) :
  Forall countOk ops ->
  0 <= BinaryParser.cursor (performAll ops (BinaryParser.new d))
    <= Buffer.length d + 4 * Z.of_nat (List.length ops).
Proof.
  induction ops as [|op ops IH] using rev_ind; intros Hops.
  - simpl. unfold Buffer.length. lia.
  - apply Forall_app in Hops as [Hops Hop].
    apply Forall_cons in Hop as [Hop _].
    specialize (IH Hops).
    rewrite performAll_snoc, length_app. simpl.
    pose proof (perform_cursor_bound op (performAll ops (BinaryParser.new d))
                  (4 * Z.of_nat (List.length ops)) Hop) as H.
    cbv zeta in H. rewrite performAll_data in H. simpl in H.
    specialize (H IH). lia.
Qed.

(** C3 as amended: on a fresh parser over a buffer of length [L], after any
    sequence [ops] of calls (byte counts not negative) and one more call
    [op], the cursor is a non-negative integer that exceeds [L] by at most 4
    for every call made.  It is within [L] after [reset], after a [seek]
    that moved it and after a [readBytes] that returned; a [seek] or
    [readBytes] that throws leaves it where it was, as does [seek] without
    an offset.  An integer read moves
    it by its width whether or not the read throws, and [readString] puts it
    one past the place its scan stopped, so both can take it past [L]. *)
Theorem cursor_after_operations (d : Buffer.t) (ops : list Op) (op : Op) :
  Forall countOk ops -> countOk op ->
  let L := Buffer.length d in
  let p := performAll ops (BinaryParser.new d) in
  let c := BinaryParser.cursor p in
  let c' := BinaryParser.cursor (snd (perform op p)) in
  0 <= c' <= L + 4 * (Z.of_nat (List.length ops) + 1)
  /\ match op with
     | ReadUInt32LE => c' = c + 4
     | ReadUInt16LE => c' = c + 2
     | ReadString => c' = BinaryParser.scanEnd d c + 1
     | ReadBytes n => if fst (perform op p) then c' = c + n /\ c' <= L else c' = c
     | Seek (Some _) _ => if fst (perform op p) then 0 < c' <= L else c' = c
     | Seek None _ => c' = c
     | Reset => c' = 0
     end.
Proof.
  intros Hops Hop L p c c'. split.
  - pose proof (performAll_cursor_bound d (ops ++ [op])) as H.
    rewrite performAll_snoc, length_app in H. simpl in H.
    fold p in H. fold c' in H. fold L in H.
    assert (Hall : Forall countOk (ops ++ [op])).
    { apply Forall_app. split; [exact Hops |]. apply Forall_cons. split; [exact Hop | constructor]. }
    specialize (H Hall). lia.
  - subst c' c p L.
    pose proof (perform_cursor op (performAll ops (BinaryParser.new d))) as H.
    cbv zeta in H. rewrite !performAll_data in H. exact H.
Qed.

(** After [readBytes(1)] on a two-byte buffer the cursor is 1, and the
    [seek(2)] that follows returns with the cursor at 2. *)
Lemma cursor_after_operations_witness :
  0 <= BinaryParser.cursor
         (snd (perform (Seek (Some 2) Absolute)
                       (performAll [ReadBytes 1] (BinaryParser.new [x61; x62]))))
    <= Buffer.length [x61; x62] + 4 * (Z.of_nat (List.length [ReadBytes 1]) + 1).
Proof.
  apply (cursor_after_operations [x61; x62] [ReadBytes 1] (Seek (Some 2) Absolute)).
  - apply Forall_cons. split; [simpl; lia | constructor].
  - simpl. exact I.
Defined.

(** C3 as stated fails.  On the empty buffer [readString] leaves the cursor
    at 1; on a one-byte buffer [readUInt32LE] throws its range error and
    leaves the cursor at 4.  Both are past the buffer length. *)
Lemma cursor_exceeds_buffer_length :
  ~ (BinaryParser.cursor (performAll [ReadString] (BinaryParser.new []))
     <= Buffer.length [])
  /\ fst (BinaryParser.readUInt32LE None (BinaryParser.new [x01])) = Err OutOfBounds
  /\ ~ (BinaryParser.cursor (performAll [ReadUInt32LE] (BinaryParser.new [x01]))
        <= Buffer.length [x01]).
Proof.
  split_and!.
  - vm_compute. intros H. apply H. reflexivity.
  - reflexivity.
  - vm_compute. intros H. apply H. reflexivity.
Qed.

(** ** Parsing the smallest directory *)

(** C5 as amended: the 13 bytes parse to a version-1 directory with an empty
    entry table, and its residual data is the buffer from offset
    [12 + treeSize = 12] on: the one zero byte that ended the tree. *)
Theorem parse_emptyTreeBytes (path : string) :
  VPKFile.fromFileData path emptyTreeBytes
  = Ok (VPKFile.mk 1 None None None None path ∅ [x00] JSMap.empty).
Proof. reflexivity. Qed.

(** C5 as stated fails: the residual data of that parse is not empty. *)
Lemma parse_emptyTreeBytes_residual_not_empty :
  ~ exists f, VPKFile.fromFileData "pak01_dir.vpk" emptyTreeBytes = Ok f
              /\ VPKFile.entries f = ∅ /\ VPKFile.data f = [].
Proof.
  intros (f & Hf & _ & Hd). vm_compute in Hf.
  injection Hf as <-. discriminate Hd.
Qed.

(** ** readFile *)

Lemma copy_whole_ok (source target : Buffer.t) :
  exists b, Buffer.copy source target 0 0 None = Ok b.
Proof.
  unfold Buffer.copy. cbv zeta.
  assert (H : (Buffer.length source <? 0) = false)
    by (apply Z.ltb_ge; unfold Buffer.length; lia).
  rewrite H. cbn [Z.ltb Z.compare orb].
  destruct ((Buffer.length target <=? 0) || (Buffer.length source <=? 0));
    eexists; reflexivity.
Qed.

(** Content held in the directory file's own data: the buffer is filled by
    [data.copy(buff, preloadBytes, entryOffset, entryLength)], whose last
    argument is the END of the source range. *)
Lemma readFile_residual `{Imports W} (s : VPKFile.Sys) (path : string)
      (validate : bool) (e : VPKEntryMeta.t) :
  VPKFile.entries (VPKFile.file s) !! VPKFile.normalize path = Some e ->
  VPKEntryMeta.preload e = None ->
  0 < VPKEntryMeta.entryLength e ->
  VPKEntryMeta.archiveIndex e = 0x7fff ->
  VPKFile.readFile path validate s
  = (Buffer.copy (VPKFile.data (VPKFile.file s))
                 (Buffer.alloc (VPKEntryMeta.preloadBytes e
                                + VPKEntryMeta.entryLength e))
                 (VPKEntryMeta.preloadBytes e) (VPKEntryMeta.entryOffset e)
                 (Some (VPKEntryMeta.entryLength e)),
     s).
Proof.
  intros He Hpre Hlen Hidx. unfold VPKFile.readFile. rewrite He, Hpre.
  unfold bind, ret, VPKFile.ofRes.
  apply Z.ltb_lt in Hlen. rewrite Hlen.
  apply Z.eqb_eq in Hidx. rewrite Hidx. reflexivity.
Qed.

(** [validate] makes no difference unless the content comes from an
    external archive. *)
Lemma readFile_validate_ignored `{Imports W} (s : VPKFile.Sys) (path : string)
      (e : VPKEntryMeta.t) :
  VPKFile.entries (VPKFile.file s) !! VPKFile.normalize path = Some e ->
  VPKEntryMeta.entryLength e <= 0 \/ VPKEntryMeta.archiveIndex e = 0x7fff ->
  VPKFile.readFile path true s = VPKFile.readFile path false s.
Proof.
  intros He Hcase. unfold VPKFile.readFile. rewrite He. unfold bind.
  assert (Htail : forall buff : Buffer.t,
             (if 0 <? VPKEntryMeta.entryLength e
              then if VPKEntryMeta.archiveIndex e =? 0x7fff then true else false
              else true) = true).
  { intros _. destruct (Z.ltb_spec 0 (VPKEntryMeta.entryLength e)); [| reflexivity].
    destruct Hcase as [Hcase | Hcase]; [lia |].
    apply Z.eqb_eq in Hcase. rewrite Hcase. reflexivity. }
  specialize (Htail []).
  destruct (VPKEntryMeta.preload e) as [pre |]; unfold VPKFile.ofRes, ret.
  - destruct (Buffer.copy pre _ 0 0 None) as [buff | err]; [| reflexivity].
    destruct (0 <? VPKEntryMeta.entryLength e); [| reflexivity].
    destruct (VPKEntryMeta.archiveIndex e =? 0x7fff); [reflexivity | discriminate].
  - destruct (0 <? VPKEntryMeta.entryLength e); [| reflexivity].
    destruct (VPKEntryMeta.archiveIndex e =? 0x7fff); [reflexivity | discriminate].
Qed.

(** A read from an external archive starts by opening the archive, whatever
    the cache holds. *)
Lemma readFile_external_opens `{Imports W} (s : VPKFile.Sys) (path : string)
      (validate : bool) (e : VPKEntryMeta.t) :
  VPKFile.entries (VPKFile.file s) !! VPKFile.normalize path = Some e ->
  0 < VPKEntryMeta.entryLength e ->
  VPKEntryMeta.archiveIndex e <> 0x7fff ->
  exists rest,
    VPKFile.calls (snd (VPKFile.readFile path validate s))
    = VPKFile.calls s
      ++ CallOpen (VPKFile.archivePathOf (VPKFile.path (VPKFile.file s))
                                         (VPKEntryMeta.archiveIndex e))
      :: rest.
Proof.
  intros He Hlen Hidx. unfold VPKFile.readFile. rewrite He. unfold bind at 1.
  assert (Hpre : exists b,
             (match VPKEntryMeta.preload e with
              | Some preload =>
                  VPKFile.ofRes
                    (Buffer.copy preload
                       (Buffer.alloc (VPKEntryMeta.preloadBytes e
                                      + VPKEntryMeta.entryLength e)) 0 0 None)
              | None =>
                  ret (Buffer.alloc (VPKEntryMeta.preloadBytes e
                                     + VPKEntryMeta.entryLength e))
              end) s = (Ok b, s)).
  { destruct (VPKEntryMeta.preload e) as [pre |]; [| eexists; reflexivity].
    destruct (copy_whole_ok pre (Buffer.alloc (VPKEntryMeta.preloadBytes e
                                               + VPKEntryMeta.entryLength e)))
      as [b Hb].
    exists b. unfold VPKFile.ofRes. rewrite Hb. reflexivity. }
  destruct Hpre as [b Hb]. rewrite Hb. clear Hb.
  apply Z.ltb_lt in Hlen. rewrite Hlen. clear Hlen.
  apply Z.eqb_neq in Hidx. rewrite Hidx. clear Hidx.
  unfold bind, VPKFile.open, VPKFile.fdCacheSet, VPKFile.read, VPKFile.hostCall,
    bind, assert, ret, throw.
  cbn [VPKFile.world VPKFile.file VPKFile.calls].
  destruct (fs_open _ (VPKFile.world s)) as [[fd | err] w1];
    [| eexists; reflexivity].
  cbn [VPKFile.world VPKFile.file VPKFile.calls].
  destruct (fs_read fd _ _ w1) as [[got | err] w2];
    cbn [VPKFile.world VPKFile.file VPKFile.calls];
    repeat match goal with
           | |- context [if ?c then _ else _] => destruct c
           end;
    cbn [snd VPKFile.calls]; rewrite <- app_assoc; eexists; reflexivity.
Qed.

(** C1 at a failing input: the entry asks for the byte at offset 1 of the
    residual data [aa bb], which is [bb]; [readFile] returns the zero byte
    the buffer was allocated with, because [entryLength] is passed to
    [copy] as the end of the source range and the range [1 .. 1) is empty. *)
Theorem readFile_residual_offset_not_copied :
  fst (VPKFile.readFile "scripts/items.txt" false
                        (VPKFile.mkSys inlineFile sampleWorld []))
  = Ok [x00]
  /\ Buffer.slice (VPKFile.data inlineFile)
                  (VPKEntryMeta.entryOffset inlineEntry)
                  (VPKEntryMeta.entryOffset inlineEntry
                   + VPKEntryMeta.entryLength inlineEntry)
     = [xbb].
Proof. split; reflexivity. Qed.

(** C2 at a failing input: two reads of the same entry of archive 3 open the
    archive twice.  The second read does not look into the cache, where
    descriptor 10 is waiting; it opens descriptor 11 and puts it in the
    place of 10, which stays open and is known to nobody. *)
Theorem readFile_opens_archive_again :
  let s0 := VPKFile.mkSys externalFile sampleWorld [] in
  let s1 := snd (VPKFile.readFile "scripts/items.txt" false s0) in
  let s2 := snd (VPKFile.readFile "scripts/items.txt" false s1) in
  VPKFile.fdCache (VPKFile.file s1) = [(3, 10)]
  /\ VPKFile.calls s2
     = [CallOpen "pak01_003.vpk"; CallRead 10 2 1;
        CallOpen "pak01_003.vpk"; CallRead 11 2 1]
  /\ VPKFile.fdCache (VPKFile.file s2) = [(3, 11)]
  /\ MemHost.openFds (VPKFile.world s2)
     = [(11, "pak01_003.vpk"%string); (10, "pak01_003.vpk"%string)].
Proof. vm_compute. split_and!; reflexivity. Qed.

(** C4 at failing inputs: with [validate = true] and a stored checksum that
    is not the checksum of the content, [readFile] returns the content of an
    entry held in the directory file's own data and of an entry that is
    preload only; it throws 'Validation failed' for the entry of archive 3
    alone. *)
Theorem readFile_validate_skips_inline_content :
  fst (VPKFile.readFile "scripts/items.txt" true
                        (VPKFile.mkSys staleInlineFile sampleWorld []))
  = Ok [xaa; xbb]
  /\ MemHost.crc32 [xaa; xbb] <> 0
  /\ fst (VPKFile.readFile "scripts/items.txt" true
                           (VPKFile.mkSys stalePreloadFile sampleWorld []))
     = Ok [x41]
  /\ MemHost.crc32 [x41] <> 0
  /\ fst (VPKFile.readFile "scripts/items.txt" true
                           (VPKFile.mkSys staleExternalFile sampleWorld []))
     = Err ValidationFailed.
Proof. vm_compute. split_and!; (reflexivity || discriminate). Qed.

(** ** closeSubArchives *)

Lemma closeEach_spec `{Imports W} (array : list Z) (index : Z) (fds : list Z)
      (s : VPKFile.Sys) :
  VPKFile.file (snd (VPKFile.closeEach array index fds s)) = VPKFile.file s
  /\ VPKFile.calls (snd (VPKFile.closeEach array index fds s))
     = VPKFile.calls s ++ map CallClose fds
  /\ List.length (fst (VPKFile.closeEach array index fds s)) = List.length fds.
Proof.
  revert index s. induction fds as [|fd fds IH]; intros index s; simpl.
  - rewrite app_nil_r. auto.
  - unfold VPKFile.close, VPKFile.hostCall.
    destruct (fs_close fd index array (VPKFile.world s)) as [r w'].
    specialize (IH (index + 1)
                   (VPKFile.mkSys (VPKFile.file s) w'
                                  (VPKFile.calls s ++ [CallClose fd]))).
    destruct (VPKFile.closeEach array (index + 1) fds _) as [rs s2]. simpl in *.
    destruct IH as (IH1 & IH2 & IH3). rewrite IH1, IH2, IH3, <- app_assoc.
    auto.
Qed.





(** ** Steps of the parser: budget, progress, and dependence on the buffer *)

Lemma get_nat (d : Buffer.t) (n : nat) : Buffer.get d (Z.of_nat n) = d !! n.
Proof.
  unfold Buffer.get. destruct (Z.ltb_spec (Z.of_nat n) 0); [lia |].
  rewrite Nat2Z.id. reflexivity.
Qed.

Lemma slice_lookup (d : Buffer.t) (s e : Z) (i : nat) :
  Buffer.slice d s e !! i
  = if decide (i < Z.to_nat e - Z.to_nat s)%nat
    then Buffer.get d (Z.of_nat (Z.to_nat s + i)) else None.
Proof.
  unfold Buffer.slice. rewrite lookup_take, lookup_drop, get_nat. reflexivity.
Qed.

Lemma agree_refl (k : Z) (p : BinaryParser.t) : agree k p p.
Proof. unfold agree. auto. Qed.

Lemma stable_True : stable (fun _ => True).
Proof. intros p p' _ _ _. exact I. Qed.

Lemma stable_enough (n : nat) : stable (enough n).
Proof.
  intros p p' Hd Hc [Hn Hp]. unfold enough. rewrite Hd. split; [exact Hn | lia].
Qed.

Lemma stable_and (P P' : BinaryParser.t -> Prop) :
  stable P -> stable P' -> stable (fun p => P p /\ P' p).
Proof.
  intros HP HP' p p' Hd Hc [H1 H2].
  split; [apply (HP p) | apply (HP' p)]; assumption.
Qed.

Section Sound.

Variable k : Z.
Hypothesis k_nonneg : 0 <= k.

Lemma slice_agree (d d' : Buffer.t) (s e : Z) :
  k <= s ->
  (forall i, k <= i -> Buffer.get d i = Buffer.get d' i) ->
  Buffer.slice d s e = Buffer.slice d' s e.
Proof.
  intros Hs Hget. apply list_eq. intros i. rewrite !slice_lookup.
  case_decide; [| reflexivity]. apply Hget. lia.
Qed.

Lemma scan_agree (n : nat) (d d' : Buffer.t) (e : Z) :
  k <= e ->
  List.length d = List.length d' ->
  (forall i, k <= i -> Buffer.get d i = Buffer.get d' i) ->
  BinaryParser.scan n d e = BinaryParser.scan n d' e.
Proof.
  intros He Hlen Hget. revert e He.
  induction n as [|n IH]; intros e He; simpl; [reflexivity |].
  unfold Buffer.length. rewrite <- Hlen, <- (Hget e He).
  destruct (_ && _); [apply IH; lia | reflexivity].
Qed.

Lemma sound_ret {A} (P : BinaryParser.t -> Prop) (a : A) (Q : A -> Prop) :
  Q a -> sound k P (ret a) Q.
Proof.
  intros HQ p Hk HP. simpl. split_and!.
  - discriminate.
  - intros a' [= <-]. split_and!; [exact HQ | reflexivity | lia].
  - intros q Hq. split; [reflexivity |]. intros _ _. exact Hq.
Qed.

Lemma sound_assert (P : BinaryParser.t -> Prop) (b : bool) (e : Error) :
  e <> LoopBudget -> sound k P (assert b e) (fun _ => b = true).
Proof.
  intros He p Hk HP. destruct b; simpl; split_and!.
  - discriminate.
  - intros a' _. split_and!; [reflexivity | reflexivity | lia].
  - intros q Hq. split; [reflexivity |]. intros _ _. exact Hq.
  - congruence.
  - discriminate.
  - intros q Hq. split; [reflexivity |]. discriminate.
Qed.

Lemma sound_bind {A B} (P : BinaryParser.t -> Prop)
      (m : SE BinaryParser.t A) (f : A -> SE BinaryParser.t B)
      (Q : A -> Prop) (R : B -> Prop) :
  stable P ->
  sound k P m Q ->
  (forall a, Q a -> sound k P (f a) R) ->
  sound k P (bind m f) R.
Proof.
  intros HP Hm Hf p Hk Hp. unfold bind.
  destruct (Hm p Hk Hp) as (Hm1 & Hm2 & Hm3).
  destruct (m p) as [[a | e] p1] eqn:Emp; simpl in *.
  - destruct (Hm2 a eq_refl) as (HQ & Hd & Hc).
    assert (Hk1 : k <= BinaryParser.cursor p1) by lia.
    assert (Hp1 : P p1) by (apply (HP p); assumption).
    destruct (Hf a HQ p1 Hk1 Hp1) as (Hf1 & Hf2 & Hf3).
    split_and!.
    + exact Hf1.
    + intros b Hb. destruct (Hf2 b Hb) as (HR & Hd' & Hc').
      split_and!; [exact HR | congruence | lia].
    + intros q Hq. destruct (Hm3 q Hq) as (Hr & Hag).
      destruct (m q) as [rq q1]. simpl in *. subst rq.
      apply Hf3. apply (Hag a). reflexivity.
  - split_and!.
    + intros [= ->]. apply Hm1. reflexivity.
    + discriminate.
    + intros q Hq. destruct (Hm3 q Hq) as (Hr & _).
      destruct (m q) as [rq q1]. simpl in *. subst rq.
      split; [reflexivity | discriminate].
Qed.

Lemma sound_weaken {A} (P P' : BinaryParser.t -> Prop)
      (m : SE BinaryParser.t A) (Q Q' : A -> Prop) :
  sound k P m Q ->
  (forall p, P' p -> P p) ->
  (forall a, Q a -> Q' a) ->
  sound k P' m Q'.
Proof.
  intros Hm HP HQ p Hk Hp. destruct (Hm p Hk (HP p Hp)) as (H1 & H2 & H3).
  split_and!; [exact H1 | | exact H3].
  intros a Ha. destruct (H2 a Ha) as (Hq & Hd & Hc). auto.
Qed.

Lemma readUInt32LE_agree (d d' : Buffer.t) (o : Z) :
  k <= o ->
  (forall i, k <= i -> Buffer.get d i = Buffer.get d' i) ->
  Buffer.readUInt32LE d o = Buffer.readUInt32LE d' o.
Proof.
  intros Ho Hget. unfold Buffer.readUInt32LE.
  rewrite !(Hget o), !(Hget (o + 1)), !(Hget (o + 2)), !(Hget (o + 3)) by lia.
  reflexivity.
Qed.

Lemma readUInt16LE_agree (d d' : Buffer.t) (o : Z) :
  k <= o ->
  (forall i, k <= i -> Buffer.get d i = Buffer.get d' i) ->
  Buffer.readUInt16LE d o = Buffer.readUInt16LE d' o.
Proof.
  intros Ho Hget. unfold Buffer.readUInt16LE.
  rewrite !(Hget o), !(Hget (o + 1)) by lia.
  reflexivity.
Qed.

Lemma readUInt32LE_nonneg (d : Buffer.t) (o v : Z) :
  Buffer.readUInt32LE d o = Ok v -> 0 <= v < 2 ^ 32.
Proof.
  unfold Buffer.readUInt32LE.
  destruct (Buffer.get d o) as [b0|]; [| discriminate].
  destruct (Buffer.get d (o + 1)) as [b1|]; [| discriminate].
  destruct (Buffer.get d (o + 2)) as [b2|]; [| discriminate].
  destruct (Buffer.get d (o + 3)) as [b3|]; [| discriminate].
  intros [= <-].
  pose proof (u8_range b0). pose proof (u8_range b1).
  pose proof (u8_range b2). pose proof (u8_range b3). lia.
Qed.

Lemma readUInt16LE_nonneg (d : Buffer.t) (o v : Z) :
  Buffer.readUInt16LE d o = Ok v -> 0 <= v < 2 ^ 16.
Proof.
  unfold Buffer.readUInt16LE.
  destruct (Buffer.get d o) as [b0|]; [| discriminate].
  destruct (Buffer.get d (o + 1)) as [b1|]; [| discriminate].
  intros [= <-].
  pose proof (u8_range b0). pose proof (u8_range b1). lia.
Qed.

Lemma readUInt32LE_err (d : Buffer.t) (o : Z) :
  Buffer.readUInt32LE d o <> Err LoopBudget.
Proof.
  unfold Buffer.readUInt32LE.
  repeat (destruct (Buffer.get _ _); try discriminate).
Qed.

Lemma readUInt16LE_err (d : Buffer.t) (o : Z) :
  Buffer.readUInt16LE d o <> Err LoopBudget.
Proof.
  unfold Buffer.readUInt16LE.
  repeat (destruct (Buffer.get _ _); try discriminate).
Qed.

Lemma sound_readUInt32LE (P : BinaryParser.t -> Prop) :
  sound k P (BinaryParser.readUInt32LE None) (fun v => 0 <= v).
Proof.
  intros [d c] Hk HP. simpl in Hk.
  change (BinaryParser.readUInt32LE None (BinaryParser.mk d c))
    with (Buffer.readUInt32LE d c, BinaryParser.mk d (c + 4)).
  simpl. split_and!.
  - apply readUInt32LE_err.
  - intros v Hv. apply readUInt32LE_nonneg in Hv. split_and!; [lia | reflexivity | lia].
  - intros [d' c'] (Hc & Hlen & Hget). simpl in *. subst c'.
    change (BinaryParser.readUInt32LE None (BinaryParser.mk d' c))
      with (Buffer.readUInt32LE d' c, BinaryParser.mk d' (c + 4)).
    simpl. split.
    + symmetry. apply readUInt32LE_agree; assumption.
    + intros _ _. unfold agree. simpl. auto.
Qed.

Lemma sound_readUInt16LE (P : BinaryParser.t -> Prop) :
  sound k P (BinaryParser.readUInt16LE None) (fun v => 0 <= v).
Proof.
  intros [d c] Hk HP. simpl in Hk.
  change (BinaryParser.readUInt16LE None (BinaryParser.mk d c))
    with (Buffer.readUInt16LE d c, BinaryParser.mk d (c + 2)).
  simpl. split_and!.
  - apply readUInt16LE_err.
  - intros v Hv. apply readUInt16LE_nonneg in Hv. split_and!; [lia | reflexivity | lia].
  - intros [d' c'] (Hc & Hlen & Hget). simpl in *. subst c'.
    change (BinaryParser.readUInt16LE None (BinaryParser.mk d' c))
      with (Buffer.readUInt16LE d' c, BinaryParser.mk d' (c + 2)).
    simpl. split.
    + symmetry. apply readUInt16LE_agree; assumption.
    + intros _ _. unfold agree. simpl. auto.
Qed.

Lemma sound_readString (P : BinaryParser.t -> Prop) :
  sound k P (BinaryParser.readString None) (fun _ => True).
Proof.
  intros [d c] Hk HP. simpl in Hk. rewrite readString_eq.
  cbn [fst snd BinaryParser.data BinaryParser.cursor].
  pose proof (scanEnd_ge d c) as Hge. split_and!.
  - discriminate.
  - intros s _. split_and!; [exact I | reflexivity | lia].
  - intros [d' c'] (Hc & Hlen & Hget).
    cbn [BinaryParser.cursor BinaryParser.data] in Hc, Hlen, Hget. subst c'.
    rewrite readString_eq. cbn [fst snd].
    assert (E : BinaryParser.scanEnd d' c = BinaryParser.scanEnd d c).
    { unfold BinaryParser.scanEnd. rewrite <- Hlen. symmetry.
      apply scan_agree; assumption. }
    rewrite E. split.
    + unfold Buffer.toString_ascii.
      rewrite (slice_agree d d' c (BinaryParser.scanEnd d c)); auto.
    + intros _ _. unfold agree. simpl. auto.
Qed.

Lemma readBytes_eq (d : Buffer.t) (c n : Z) :
  BinaryParser.readBytes n (BinaryParser.mk d c)
  = if c + n <=? Buffer.length d
    then (Ok (Buffer.subarray d c (Some (c + n))), BinaryParser.mk d (c + n))
    else (Err InsufficientData, BinaryParser.mk d c).
Proof.
  unfold BinaryParser.readBytes, bind, assert. simpl.
  destruct (c + n <=? Buffer.length d); reflexivity.
Qed.

Lemma subarray_inside (d : Buffer.t) (s e : Z) :
  0 <= s <= e -> e <= Buffer.length d ->
  Buffer.subarray d s (Some e) = Buffer.slice d s e.
Proof.
  intros Hs He. unfold Buffer.subarray, Buffer.rel_index.
  destruct (Z.ltb_spec s 0); [lia |]. destruct (Z.ltb_spec e 0); [lia |].
  rewrite !Z.min_l by lia. reflexivity.
Qed.

Lemma sound_readBytes (P : BinaryParser.t -> Prop) (n : Z) :
  0 <= n -> sound k P (BinaryParser.readBytes n) (fun _ => True).
Proof.
  intros Hn [d c] Hk HP. simpl in Hk. rewrite readBytes_eq.
  destruct (Z.leb_spec (c + n) (Buffer.length d)) as [Hle | Hgt];
    cbn [fst snd BinaryParser.data BinaryParser.cursor]; split_and!.
  - discriminate.
  - intros b _. split_and!; [exact I | reflexivity | lia].
  - intros [d' c'] (Hc & Hlen & Hget).
    cbn [BinaryParser.cursor BinaryParser.data] in Hc, Hlen, Hget. subst c'.
    rewrite readBytes_eq.
    assert (EL : Buffer.length d' = Buffer.length d)
      by (unfold Buffer.length; rewrite Hlen; reflexivity).
    rewrite EL. destruct (Z.leb_spec (c + n) (Buffer.length d)); [| lia].
    cbn [fst snd]. split.
    + rewrite !subarray_inside by lia.
      rewrite (slice_agree d d' c (c + n)); auto.
    + intros _ _. unfold agree. simpl. auto.
  - discriminate.
  - discriminate.
  - intros [d' c'] (Hc & Hlen & Hget).
    cbn [BinaryParser.cursor BinaryParser.data] in Hc, Hlen, Hget. subst c'.
    rewrite readBytes_eq.
    assert (EL : Buffer.length d' = Buffer.length d)
      by (unfold Buffer.length; rewrite Hlen; reflexivity).
    rewrite EL. destruct (Z.leb_spec (c + n) (Buffer.length d)); [lia |].
    cbn [fst snd]. split; [reflexivity | discriminate].
Qed.

(** A string read that is not empty started inside the buffer and stopped
    further on. *)
Lemma toString_ascii_nonempty (d : Buffer.t) (c e : Z) :
  0 <= c ->
  VPKFile.isEmpty (Buffer.toString_ascii d c e) = false ->
  c < e /\ c < Buffer.length d.
Proof.
  intros Hc Hne.
  assert (Hlen : (0 < List.length (Buffer.slice d c e))%nat).
  { rewrite <- toString_ascii_length.
    destruct (Buffer.toString_ascii d c e); [discriminate | simpl; lia]. }
  unfold Buffer.slice, Buffer.length in *.
  rewrite length_take, length_drop in Hlen. lia.
Qed.

Lemma eachString_S {A} (n : nat) (body : string -> A -> SE BinaryParser.t A)
      (acc : A) (d : Buffer.t) (c : Z) :
  let e := BinaryParser.scanEnd d c in
  let s := Buffer.toString_ascii d c e in
  VPKFile.eachString (S n) body acc (BinaryParser.mk d c)
  = if VPKFile.isEmpty s then (Ok acc, BinaryParser.mk d (e + 1))
    else bind (body s acc) (fun acc' => VPKFile.eachString n body acc')
              (BinaryParser.mk d (e + 1)).
Proof.
  intros e s. cbn [VPKFile.eachString]. unfold bind at 1.
  rewrite readString_eq. fold e. fold s.
  destruct (VPKFile.isEmpty s); reflexivity.
Qed.

Lemma sound_eachString {A} (P : BinaryParser.t -> Prop)
      (body : string -> A -> SE BinaryParser.t A) (n : nat) (acc : A) :
  stable P ->
  (forall s a, sound k P (body s a) (fun _ => True)) ->
  sound k (fun p => P p /\ enough n p) (VPKFile.eachString n body acc)
        (fun _ => True).
Proof.
  intros HP Hbody. revert acc.
  induction n as [|n IH]; intros acc [d c] Hk [Hp [Hn1 Hn2]].
  { lia. }
  cbn [BinaryParser.cursor BinaryParser.data] in Hk, Hn2.
  rewrite eachString_S.
  pose proof (scanEnd_ge d c) as Hge.
  set (e := BinaryParser.scanEnd d c) in *.
  set (s := Buffer.toString_ascii d c e).
  assert (Hq : forall d' : Buffer.t,
             agree k (BinaryParser.mk d c) (BinaryParser.mk d' c) ->
             BinaryParser.scanEnd d' c = e
             /\ Buffer.toString_ascii d' c e = s
             /\ agree k (BinaryParser.mk d (e + 1)) (BinaryParser.mk d' (e + 1))).
  { intros d' Hag.
    destruct (sound_readString P (BinaryParser.mk d c) Hk Hp) as (_ & _ & H3).
    destruct (H3 _ Hag) as (Hr & Hag'). rewrite !readString_eq in Hr, Hag'.
    cbn [fst snd] in Hr, Hag'. fold e in Hr, Hag'. fold s in Hr, Hag'.
    specialize (Hag' s eq_refl).
    assert (Ee : BinaryParser.scanEnd d' c = e).
    { destruct Hag' as (Hc' & _). cbn [BinaryParser.cursor] in Hc'. lia. }
    rewrite Ee in Hr, Hag'. injection Hr as Hr. auto. }
  destruct (VPKFile.isEmpty s) eqn:Es.
  - cbn [fst snd BinaryParser.cursor BinaryParser.data]. split_and!.
    + discriminate.
    + intros a _. split_and!; [exact I | reflexivity | lia].
    + intros [d' c'] Hag. pose proof Hag as (Hc' & _).
      cbn [BinaryParser.cursor] in Hc'. subst c'.
      rewrite eachString_S. destruct (Hq d' Hag) as (Ee & Et & Hag').
      rewrite Ee, Et, Es. cbn [fst snd]. split; [reflexivity |].
      intros _ _. exact Hag'.
  - destruct (toString_ascii_nonempty d c e ltac:(lia) Es) as (Hce & HcL).
    assert (Hrest : sound k (fun p => P p /\ enough n p)
                          (bind (body s acc)
                                (fun acc' => VPKFile.eachString n body acc'))
                          (fun _ => True)).
    { apply (sound_bind _ _ _ (fun _ => True)).
      - apply stable_and; [exact HP | apply stable_enough].
      - apply (sound_weaken P _ _ (fun _ => True)); [apply Hbody | tauto | auto].
      - intros a _. apply IH. }
    assert (Hk1 : k <= BinaryParser.cursor (BinaryParser.mk d (e + 1)))
      by (cbn [BinaryParser.cursor]; lia).
    assert (Hp1 : P (BinaryParser.mk d (e + 1)) /\ enough n (BinaryParser.mk d (e + 1))).
    { split.
      - apply (HP (BinaryParser.mk d c)); [reflexivity | | exact Hp].
        cbn [BinaryParser.cursor]. lia.
      - unfold enough. cbn [BinaryParser.cursor BinaryParser.data]. lia. }
    destruct (Hrest _ Hk1 Hp1) as (H1 & H2 & H3). split_and!.
    + exact H1.
    + intros a Ha. destruct (H2 a Ha) as (_ & Hd & Hc).
      cbn [BinaryParser.cursor BinaryParser.data] in *.
      split_and!; [exact I | exact Hd | lia].
    + intros [d' c'] Hag. pose proof Hag as (Hc' & _).
      cbn [BinaryParser.cursor] in Hc'. subst c'.
      rewrite eachString_S. destruct (Hq d' Hag) as (Ee & Et & Hag').
      rewrite Ee, Et, Es. apply H3. exact Hag'.
Qed.

Lemma sound_readEntry (P : BinaryParser.t -> Prop)
      (extension folder fileName : string) :
  stable P ->
  sound k P (VPKFile.readEntry extension folder fileName) (fun _ => True).
Proof.
  intros HP. unfold VPKFile.readEntry.
  assert (Hne : BadEntryTerminator <> LoopBudget) by discriminate.
  apply (sound_bind _ _ _ _ _ HP (sound_readUInt32LE P)). intros CRC _.
  apply (sound_bind _ _ _ _ _ HP (sound_readUInt16LE P)). intros preloadBytes Hpb.
  apply (sound_bind _ _ _ _ _ HP (sound_readUInt16LE P)). intros archiveIndex _.
  apply (sound_bind _ _ _ _ _ HP (sound_readUInt32LE P)). intros entryOffset _.
  apply (sound_bind _ _ _ _ _ HP (sound_readUInt32LE P)). intros entryLength _.
  apply (sound_bind _ _ _ _ _ HP (sound_readUInt16LE P)). intros terminator _.
  apply (sound_bind _ _ _ _ _ HP (sound_assert P _ _ Hne)).
  intros _ _.
  apply (sound_bind _ _ _ (fun _ => True) _ HP).
  - destruct (preloadBytes =? 0).
    + apply sound_ret. exact I.
    + apply (sound_bind _ _ _ _ _ HP (sound_readBytes P _ Hpb)). intros b _.
      apply sound_ret. exact I.
  - intros preload _. apply sound_ret. exact I.
Qed.

Lemma sound_fileBody (P : BinaryParser.t -> Prop)
      (extension folder fileName : string) (entries : gmap string VPKEntryMeta.t) :
  stable P ->
  sound k P (VPKFile.fileBody extension folder fileName entries) (fun _ => True).
Proof.
  intros HP. unfold VPKFile.fileBody.
  apply (sound_bind _ _ _ _ _ HP (sound_readEntry P _ _ _ HP)). intros node _.
  apply sound_ret. exact I.
Qed.

Lemma sound_folderBody (n : nat) (extension folder : string)
      (entries : gmap string VPKEntryMeta.t) :
  sound k (enough n) (VPKFile.folderBody n extension folder entries)
        (fun _ => True).
Proof.
  unfold VPKFile.folderBody.
  apply (sound_weaken (fun p => enough n p /\ enough n p) _ _ (fun _ => True));
    [| tauto | auto].
  apply sound_eachString; [apply stable_enough |].
  intros s a. apply sound_fileBody. apply stable_enough.
Qed.

Lemma sound_extensionBody (n : nat) (extension : string)
      (entries : gmap string VPKEntryMeta.t) :
  sound k (enough n) (VPKFile.extensionBody n extension entries)
        (fun _ => True).
Proof.
  unfold VPKFile.extensionBody.
  apply (sound_weaken (fun p => enough n p /\ enough n p) _ _ (fun _ => True));
    [| tauto | auto].
  apply sound_eachString; [apply stable_enough |].
  intros s a. apply sound_folderBody.
Qed.

Lemma sound_tree (n : nat) (entries : gmap string VPKEntryMeta.t) :
  sound k (enough n) (VPKFile.tree n entries) (fun _ => True).
Proof.
  unfold VPKFile.tree.
  apply (sound_weaken (fun p => enough n p /\ enough n p) _ _ (fun _ => True));
    [| tauto | auto].
  apply sound_eachString; [apply stable_enough |].
  intros s a. apply sound_extensionBody.
Qed.

Lemma sound_headerRest (P : BinaryParser.t -> Prop) (version treeSize : Z) :
  stable P ->
  sound k P (VPKFile.headerRest version treeSize) (fun _ => True).
Proof.
  intros HP. unfold VPKFile.headerRest.
  assert (Hne : InvalidHeader <> LoopBudget) by discriminate.
  destruct (version =? 2).
  - apply (sound_bind _ _ _ _ _ HP (sound_readUInt32LE P)). intros fds _.
    apply (sound_bind _ _ _ _ _ HP (sound_readUInt32LE P)). intros amd _.
    apply (sound_bind _ _ _ _ _ HP (sound_readUInt32LE P)). intros omd _.
    apply (sound_bind _ _ _ _ _ HP (sound_assert P _ _ Hne)).
    intros _ _.
    apply (sound_bind _ _ _ _ _ HP (sound_readUInt32LE P)). intros sss _.
    apply sound_ret. exact I.
  - apply sound_ret. exact I.
Qed.

End Sound.

(** ** The loops of [fromFile] end within their budget *)

Lemma sound_header (k : Z) (P : BinaryParser.t -> Prop) :
  0 <= k -> stable P -> sound k P VPKFile.header (fun _ => True).
Proof.
  intros Hk HP. unfold VPKFile.header.
  eapply sound_bind; [exact HP | apply sound_readUInt32LE | intros sig _].
  eapply sound_bind; [exact HP | apply sound_assert; discriminate | intros _ _].
  eapply sound_bind; [exact HP | apply sound_readUInt32LE | intros v _].
  eapply sound_bind; [exact HP | apply sound_assert; discriminate | intros _ _].
  eapply sound_bind; [exact HP | apply sound_readUInt32LE | intros ts _].
  eapply sound_bind; [exact HP | apply sound_headerRest; assumption | intros h _].
  apply sound_ret. exact I.
Qed.

Lemma sound_parse (k : Z) (path : string) (d : Buffer.t) :
  0 <= k ->
  sound k (enough (S (List.length d))) (VPKFile.parse path d) (fun _ => True).
Proof.
  intros Hk. unfold VPKFile.parse.
  pose proof (stable_enough (S (List.length d))) as HP.
  eapply sound_bind; [exact HP | apply sound_header; assumption |].
  intros [version [[[[dataOffset fds] amd] omd] sss]] _.
  eapply sound_bind; [exact HP | apply sound_tree; assumption | intros entries _].
  apply sound_ret. exact I.
Qed.

Lemma enough_new (d : Buffer.t) : enough (S (List.length d)) (BinaryParser.new d).
Proof. unfold enough, Buffer.length. simpl. lia. Qed.

(** The budget [parse] gives the loops of the tree is never used up:
    [fromFile] returns a directory or throws one of its own errors. *)
Lemma fromFileData_within_budget (path : string) (d : Buffer.t) :
  VPKFile.fromFileData path d <> Err LoopBudget.
Proof.
  unfold VPKFile.fromFileData.
  destruct (sound_parse 0 path d ltac:(lia) (BinaryParser.new d)) as (H & _).
  - simpl. lia.
  - apply enough_new.
  - exact H.
Qed.

(** ** The entry table and the [treeSize] field *)

Lemma readUInt32LE_at (d : Buffer.t) (c : Z) :
  BinaryParser.readUInt32LE None (BinaryParser.mk d c)
  = (Buffer.readUInt32LE d c, BinaryParser.mk d (c + 4)).
Proof. reflexivity. Qed.

Lemma readUInt16LE_at (d : Buffer.t) (c : Z) :
  BinaryParser.readUInt16LE None (BinaryParser.mk d c)
  = (Buffer.readUInt16LE d c, BinaryParser.mk d (c + 2)).
Proof. reflexivity. Qed.

Lemma readUInt32LE_Ok (d : Buffer.t) (o : Z) :
  (exists v, Buffer.readUInt32LE d o = Ok v) <-> 0 <= o /\ o + 3 < Buffer.length d.
Proof.
  unfold Buffer.readUInt32LE. split.
  - intros [v Hv].
    destruct (Buffer.get d o) eqn:E0; [| discriminate].
    destruct (Buffer.get d (o + 1)) eqn:E1; [| discriminate].
    destruct (Buffer.get d (o + 2)) eqn:E2; [| discriminate].
    destruct (Buffer.get d (o + 3)) eqn:E3; [| discriminate].
    destruct (Z.le_gt_cases 0 o) as [Ho | Ho].
    + destruct (Z.lt_ge_cases (o + 3) (Buffer.length d)) as [Hl | Hl]; [lia |].
      assert (Buffer.get d (o + 3) = None) by (apply get_None; lia). congruence.
    + assert (Buffer.get d o = None) by (apply get_None; lia). congruence.
  - intros [Ho Hl].
    destruct (get_Some d o ltac:(lia)) as [b0 ->].
    destruct (get_Some d (o + 1) ltac:(lia)) as [b1 ->].
    destruct (get_Some d (o + 2) ltac:(lia)) as [b2 ->].
    destruct (get_Some d (o + 3) ltac:(lia)) as [b3 ->].
    eauto.
Qed.

Lemma readUInt32LE_Err (d : Buffer.t) (o : Z) (e : Error) :
  Buffer.readUInt32LE d o = Err e -> e = OutOfBounds.
Proof.
  unfold Buffer.readUInt32LE.
  repeat (destruct (Buffer.get _ _); try discriminate); congruence.
Qed.

Lemma parse_unfold (path : string) (d : Buffer.t) :
  VPKFile.parse path d (BinaryParser.new d)
  = match Buffer.readUInt32LE d 0 with
    | Err e => (Err e, BinaryParser.mk d 4)
    | Ok signature =>
        if signature =? VPKFile.SIGNATURE then
          match Buffer.readUInt32LE d 4 with
          | Err e => (Err e, BinaryParser.mk d 8)
          | Ok version =>
              if (version =? 1) || (version =? 2) then
                match Buffer.readUInt32LE d 8 with
                | Err e => (Err e, BinaryParser.mk d 12)
                | Ok treeSize =>
                    afterTreeSize path d version treeSize (BinaryParser.mk d 12)
                end
              else (Err UnsupportedVersion, BinaryParser.mk d 8)
          end
        else (Err BadSignature, BinaryParser.mk d 4)
    end.
Proof.
  unfold VPKFile.parse, VPKFile.header, BinaryParser.new.
  unfold bind at 1 2. rewrite readUInt32LE_at. change (0 + 4) with 4.
  destruct (Buffer.readUInt32LE d 0) as [signature | e]; [| reflexivity].
  unfold bind at 1. unfold assert.
  destruct (signature =? VPKFile.SIGNATURE); [| reflexivity].
  cbn [ret]. unfold bind at 1. rewrite readUInt32LE_at. change (4 + 4) with 8.
  destruct (Buffer.readUInt32LE d 4) as [version | e]; [| reflexivity].
  unfold bind at 1.
  destruct ((version =? 1) || (version =? 2)); [| reflexivity].
  cbn [ret]. unfold bind at 1. rewrite readUInt32LE_at. change (8 + 4) with 12.
  destruct (Buffer.readUInt32LE d 8) as [treeSize | e]; [| reflexivity].
  unfold afterTreeSize, bind.
  destruct (VPKFile.headerRest version treeSize (BinaryParser.mk d 12))
    as [[[[[[dataOffset fds] amd] omd] sss] | e] p1]; reflexivity.
Qed.

Lemma headerRest_treeSize (version treeSize : Z) (p : BinaryParser.t) :
  VPKFile.headerRest version treeSize p
  = match VPKFile.headerRest version 0 p with
    | (Ok (_, fds, amd, omd, sss), p') =>
        (Ok (headerSize version + treeSize, fds, amd, omd, sss), p')
    | (Err e, p') => (Err e, p')
    end.
Proof.
  unfold VPKFile.headerRest, headerSize.
  destruct (version =? 2); [| reflexivity].
  unfold bind.
  destruct (BinaryParser.readUInt32LE None p) as [[fds | e] p1]; [| reflexivity].
  destruct (BinaryParser.readUInt32LE None p1) as [[amd | e] p2]; [| reflexivity].
  destruct (BinaryParser.readUInt32LE None p2) as [[omd | e] p3]; [| reflexivity].
  unfold assert. destruct (omd =? 48); [| reflexivity].
  cbn [ret].
  destruct (BinaryParser.readUInt32LE None p3) as [[sss | e] p4]; reflexivity.
Qed.

Lemma afterTreeSize_sections (path : string) (d : Buffer.t)
      (version treeSize : Z) (p : BinaryParser.t) :
  afterTreeSize path d version treeSize p
  = match sectionsAndTree (S (List.length d)) version p with
    | (Ok ((_, fds, amd, omd, sss), entries), p') =>
        (Ok (VPKFile.mk version fds amd omd sss path entries
                        (Buffer.subarray d (headerSize version + treeSize) None)
                        JSMap.empty), p')
    | (Err e, p') => (Err e, p')
    end.
Proof.
  unfold afterTreeSize, sectionsAndTree. unfold bind at 1 3.
  rewrite headerRest_treeSize.
  destruct (VPKFile.headerRest version 0 p)
    as [[[[[[off fds] amd] omd] sss] | e] p1]; [| reflexivity].
  unfold bind.
  destruct (VPKFile.tree (S (List.length d)) ∅ p1) as [[entries | e] p2];
    reflexivity.
Qed.

Lemma sound_sectionsAndTree (k : Z) (n : nat) (version : Z) :
  0 <= k ->
  sound k (enough n) (sectionsAndTree n version) (fun _ => True).
Proof.
  intros Hk. unfold sectionsAndTree.
  pose proof (stable_enough n) as HP.
  eapply sound_bind; [exact HP | apply sound_headerRest; assumption | intros h _].
  eapply sound_bind; [exact HP | apply sound_tree; assumption | intros es _].
  apply sound_ret. exact I.
Qed.

(** Two buffers that differ in the four bytes of [treeSize] at most. *)
Lemma get_around_treeSize (pre ts1 ts2 rest : Buffer.t) (i : Z) :
  List.length pre = 8%nat -> List.length ts1 = 4%nat -> List.length ts2 = 4%nat ->
  i < 8 \/ 12 <= i ->
  Buffer.get (pre ++ ts1 ++ rest) i = Buffer.get (pre ++ ts2 ++ rest) i.
Proof.
  intros Hpre H1 H2 Hi. unfold Buffer.get.
  destruct (Z.ltb_spec i 0); [reflexivity |].
  destruct Hi as [Hi | Hi].
  - rewrite !lookup_app_l by lia. reflexivity.
  - rewrite !(lookup_app_r pre) by lia.
    rewrite !lookup_app_r by lia. rewrite Hpre, H1, H2. reflexivity.
Qed.

(** C9: two directory buffers of one length that hold the same bytes
    everywhere but in the [treeSize] field (bytes 8 to 11) either both fail
    to parse, with the same error, or both parse, to the same entry table,
    version and section sizes.  [treeSize] shows only in the residual data,
    which is each buffer from [headerSize + treeSize] on. *)
Theorem entries_independent_of_treeSize (path : string) (d1 d2 : Buffer.t) :
  List.length d1 = List.length d2 ->
  (forall i, i < 8 \/ 12 <= i -> Buffer.get d1 i = Buffer.get d2 i) ->
  match VPKFile.fromFileData path d1, VPKFile.fromFileData path d2 with
  | Ok f1, Ok f2 =>
      VPKFile.entries f1 = VPKFile.entries f2
      /\ VPKFile.version f1 = VPKFile.version f2
      /\ VPKFile.fileDataSectionSize f1 = VPKFile.fileDataSectionSize f2
      /\ VPKFile.archiveMD5SectionSize f1 = VPKFile.archiveMD5SectionSize f2
      /\ VPKFile.otherMD5SectionSize f1 = VPKFile.otherMD5SectionSize f2
      /\ VPKFile.signatureSectionSize f1 = VPKFile.signatureSectionSize f2
      /\ exists treeSize1 treeSize2,
          Buffer.readUInt32LE d1 8 = Ok treeSize1
          /\ Buffer.readUInt32LE d2 8 = Ok treeSize2
          /\ VPKFile.data f1
             = Buffer.subarray d1 (headerSize (VPKFile.version f1) + treeSize1) None
          /\ VPKFile.data f2
             = Buffer.subarray d2 (headerSize (VPKFile.version f2) + treeSize2) None
  | Err e1, Err e2 => e1 = e2
  | _, _ => False
  end.
Proof.
  intros Hlen Hget. unfold VPKFile.fromFileData. rewrite !parse_unfold.
  assert (E0 : Buffer.readUInt32LE d1 0 = Buffer.readUInt32LE d2 0).
  { unfold Buffer.readUInt32LE.
    rewrite (Hget 0), (Hget (0 + 1)), (Hget (0 + 2)), (Hget (0 + 3)) by lia.
    reflexivity. }
  assert (E4 : Buffer.readUInt32LE d1 4 = Buffer.readUInt32LE d2 4).
  { unfold Buffer.readUInt32LE.
    rewrite (Hget 4), (Hget (4 + 1)), (Hget (4 + 2)), (Hget (4 + 3)) by lia.
    reflexivity. }
  assert (EL : Buffer.length d1 = Buffer.length d2)
    by (unfold Buffer.length; rewrite Hlen; reflexivity).
  rewrite E0, E4.
  destruct (Buffer.readUInt32LE d2 0) as [signature | e]; [| reflexivity].
  destruct (signature =? VPKFile.SIGNATURE); [| reflexivity].
  destruct (Buffer.readUInt32LE d2 4) as [version | e]; [| reflexivity].
  destruct ((version =? 1) || (version =? 2)); [| reflexivity].
  destruct (Buffer.readUInt32LE d1 8) as [ts1 | e1] eqn:E1;
    destruct (Buffer.readUInt32LE d2 8) as [ts2 | e2] eqn:E2.
  - rewrite !afterTreeSize_sections. rewrite <- Hlen.
    assert (Hag : agree 12 (BinaryParser.mk d1 12) (BinaryParser.mk d2 12)).
    { unfold agree. simpl. split_and!; [reflexivity | exact Hlen |].
      intros i Hi. apply Hget. lia. }
    destruct (sound_sectionsAndTree 12 (S (List.length d1)) version ltac:(lia)
                (BinaryParser.mk d1 12)) as (_ & _ & H3).
    { simpl. lia. }
    { unfold enough, Buffer.length. simpl. lia. }
    destruct (H3 _ Hag) as (Hr & _).
    destruct (sectionsAndTree (S (List.length d1)) version (BinaryParser.mk d1 12))
      as [r1 p1].
    destruct (sectionsAndTree (S (List.length d1)) version (BinaryParser.mk d2 12))
      as [r2 p2].
    cbn [fst] in Hr. subst r2.
    destruct r1 as [[[[[[off fds] amd] omd] sss] entries] | e]; cbn [fst].
    + cbn [VPKFile.entries VPKFile.version VPKFile.fileDataSectionSize
           VPKFile.archiveMD5SectionSize VPKFile.otherMD5SectionSize
           VPKFile.signatureSectionSize VPKFile.data].
      split_and!; try reflexivity.
      exists ts1, ts2. auto.
    + reflexivity.
  - exfalso.
    assert (H1 : exists v, Buffer.readUInt32LE d1 8 = Ok v) by eauto.
    apply readUInt32LE_Ok in H1. rewrite EL in H1.
    apply readUInt32LE_Ok in H1 as [v Hv]. congruence.
  - exfalso.
    assert (H2 : exists v, Buffer.readUInt32LE d2 8 = Ok v) by eauto.
    apply readUInt32LE_Ok in H2. rewrite <- EL in H2.
    apply readUInt32LE_Ok in H2 as [v Hv]. congruence.
  - cbn [fst]. apply readUInt32LE_Err in E1, E2. congruence.
Qed.

(** The one-entry directory parses to the same table whether its
    [treeSize] field says 0 or 41. *)
Lemma entries_independent_of_treeSize_witness :
  match VPKFile.fromFileData "pak01_dir.vpk"
                             (directoryBytes [x00; x00; x00; x00] [xff; xff]),
        VPKFile.fromFileData "pak01_dir.vpk"
                             (directoryBytes [x29; x00; x00; x00] [xff; xff])
  with
  | Ok f1, Ok f2 => VPKFile.entries f1 = VPKFile.entries f2
  | _, _ => False
  end.
Proof.
  pose proof (entries_independent_of_treeSize "pak01_dir.vpk"
                (directoryBytes [x00; x00; x00; x00] [xff; xff])
                (directoryBytes [x29; x00; x00; x00] [xff; xff])) as H.
  assert (Hlen : List.length (directoryBytes [x00; x00; x00; x00] [xff; xff])
                 = List.length (directoryBytes [x29; x00; x00; x00] [xff; xff]))
    by reflexivity.
  assert (Hget : forall i, i < 8 \/ 12 <= i ->
                   Buffer.get (directoryBytes [x00; x00; x00; x00] [xff; xff]) i
                   = Buffer.get (directoryBytes [x29; x00; x00; x00] [xff; xff]) i).
  { intros i Hi. unfold directoryBytes.
    apply get_around_treeSize; [reflexivity | reflexivity | reflexivity | exact Hi]. }
  specialize (H Hlen Hget).
  destruct (VPKFile.fromFileData _ (directoryBytes [x00; x00; x00; x00] _))
    as [f1 | e1] eqn:E1; [| vm_compute in E1; discriminate E1].
  destruct (VPKFile.fromFileData _ (directoryBytes [x29; x00; x00; x00] _))
    as [f2 | e2] eqn:E2; [| vm_compute in E2; discriminate E2].
  destruct H as (H & _). exact H.
Defined.

(** ** Entry records *)

Lemma readUInt16LE_Ok (d : Buffer.t) (o : Z) :
  0 <= o -> o + 1 < Buffer.length d -> exists v, Buffer.readUInt16LE d o = Ok v.
Proof.
  intros Ho Hl. unfold Buffer.readUInt16LE.
  destruct (get_Some d o ltac:(lia)) as [b0 ->].
  destruct (get_Some d (o + 1) ltac:(lia)) as [b1 ->].
  eauto.
Qed.

(** One entry record whose six fields lie inside the buffer. *)
Lemma readEntry_eq (extension folder fileName : string) (d : Buffer.t)
      (c CRC preloadBytes archiveIndex entryOffset entryLength terminator : Z) :
  Buffer.readUInt32LE d c = Ok CRC ->
  Buffer.readUInt16LE d (c + 4) = Ok preloadBytes ->
  Buffer.readUInt16LE d (c + 6) = Ok archiveIndex ->
  Buffer.readUInt32LE d (c + 8) = Ok entryOffset ->
  Buffer.readUInt32LE d (c + 12) = Ok entryLength ->
  Buffer.readUInt16LE d (c + 16) = Ok terminator ->
  let node preload :=
    VPKEntryMeta.mk extension folder fileName
                    (folder +:+ "/" +:+ fileName +:+ "." +:+ extension)
                    CRC preloadBytes preload archiveIndex entryOffset entryLength in
  VPKFile.readEntry extension folder fileName (BinaryParser.mk d c)
  = if terminator =? 0xffff then
      if preloadBytes =? 0 then (Ok (node None), BinaryParser.mk d (c + 18))
      else if c + 18 + preloadBytes <=? Buffer.length d then
        (Ok (node (Some (Buffer.subarray d (c + 18) (Some (c + 18 + preloadBytes))))),
         BinaryParser.mk d (c + 18 + preloadBytes))
      else (Err InsufficientData, BinaryParser.mk d (c + 18))
    else (Err BadEntryTerminator, BinaryParser.mk d (c + 18)).
Proof.
  intros H0 H4 H6 H8 H12 H16 node. unfold VPKFile.readEntry.
  unfold bind at 1. rewrite readUInt32LE_at, H0.
  unfold bind at 1. rewrite readUInt16LE_at, H4.
  replace (c + 4 + 2) with (c + 6) by lia.
  unfold bind at 1. rewrite readUInt16LE_at, H6.
  replace (c + 6 + 2) with (c + 8) by lia.
  unfold bind at 1. rewrite readUInt32LE_at, H8.
  replace (c + 8 + 4) with (c + 12) by lia.
  unfold bind at 1. rewrite readUInt32LE_at, H12.
  replace (c + 12 + 4) with (c + 16) by lia.
  unfold bind at 1. rewrite readUInt16LE_at, H16.
  replace (c + 16 + 2) with (c + 18) by lia.
  unfold bind at 1. unfold assert.
  destruct (terminator =? 0xffff); [| reflexivity].
  cbn [ret]. unfold bind at 1.
  destruct (preloadBytes =? 0); [reflexivity |].
  unfold bind at 1. rewrite readBytes_eq.
  destruct (c + 18 + preloadBytes <=? Buffer.length d); reflexivity.
Qed.

Lemma fileBody_eq (extension folder fileName : string)
      (entries : gmap string VPKEntryMeta.t) (p : BinaryParser.t) :
  VPKFile.fileBody extension folder fileName entries p
  = match VPKFile.readEntry extension folder fileName p with
    | (Ok node, p') => (Ok (<[VPKEntryMeta.path node := node]> entries), p')
    | (Err e, p') => (Err e, p')
    end.
Proof. reflexivity. Qed.

(** An error of the body in a round that the loop reaches is the error of
    the loop. *)
Lemma eachString_reached {A} (k : Z) (P : BinaryParser.t -> Prop)
      (body : string -> A -> SE BinaryParser.t A)
      (acc : A) (p : BinaryParser.t) (s : string) (acc' : A) (p' : BinaryParser.t) :
  0 <= k -> stable P ->
  (forall s a, sound k P (body s a) (fun _ => True)) ->
  Reached body acc p s acc' p' ->
  forall n, k <= BinaryParser.cursor p -> P p -> enough n p ->
  (k <= BinaryParser.cursor p' /\ P p'
   /\ BinaryParser.data p' = BinaryParser.data p)
  /\ forall e q, body s acc' p' = (Err e, q) ->
                 VPKFile.eachString n body acc p = (Err e, q).
Proof.
  intros Hk0 HP Hbody Hreach.
  induction Hreach as [acc p s p1 Hrs Hs
                      | acc p s p1 acc1 p2 s' acc' p' Hrs Hs Hb Hreach IH];
    intros n Hk Hp [Hn1 Hn2]; destruct p as [d c];
    cbn [BinaryParser.cursor BinaryParser.data] in Hk, Hn2;
    rewrite readString_eq in Hrs; injection Hrs as Es Hp1; subst p1;
    pose proof (scanEnd_ge d c) as Hge;
    pose proof Hs as Hs0; rewrite <- Es in Hs0;
    destruct (toString_ascii_nonempty d c _ ltac:(lia) Hs0) as (Hce & HcL);
    (destruct n as [|n]; [lia |]).
  - split.
    + split_and!; [cbn [BinaryParser.cursor]; lia | | reflexivity].
      apply (HP (BinaryParser.mk d c)); [reflexivity | | exact Hp].
      cbn [BinaryParser.cursor]. lia.
    + intros e q Hb. rewrite eachString_S, Es, Hs. unfold bind.
      rewrite Hb. reflexivity.
  - set (p1 := BinaryParser.mk d (BinaryParser.scanEnd d c + 1)) in *.
    assert (Hk1 : k <= BinaryParser.cursor p1) by (cbn [BinaryParser.cursor p1]; lia).
    assert (Hp1 : P p1).
    { apply (HP (BinaryParser.mk d c)); [reflexivity | | exact Hp].
      cbn [BinaryParser.cursor p1]. lia. }
    destruct (Hbody s acc p1 Hk1 Hp1) as (_ & H2 & _).
    rewrite Hb in H2. cbn [fst snd] in H2.
    destruct (H2 acc1 eq_refl) as (_ & Hd2 & Hc2).
    cbn [BinaryParser.cursor BinaryParser.data p1] in Hd2, Hc2.
    assert (Hk2 : k <= BinaryParser.cursor p2) by lia.
    assert (Hp2 : P p2).
    { apply (HP p1); [exact Hd2 | exact Hc2 | exact Hp1]. }
    assert (Hn : enough n p2).
    { unfold enough. rewrite Hd2. lia. }
    destruct (IH n Hk2 Hp2 Hn) as ((Hk' & Hp' & Hd') & Herr).
    split.
    + split_and!; [exact Hk' | exact Hp' | rewrite Hd', Hd2; reflexivity].
    + intros e q Hbe. rewrite eachString_S, Es, Hs. unfold bind. fold p1.
      rewrite Hb. apply Herr. exact Hbe.
Qed.

(** An entry record that the parse reaches lies in the parsed buffer, and an
    error raised while reading it is the error of the whole parse. *)
Lemma reached_entry_error (path : string) (d : Buffer.t)
      (extension folder fileName : string)
      (entries : gmap string VPKEntryMeta.t) (p : BinaryParser.t) :
  EntryReached d extension folder fileName entries p ->
  (BinaryParser.data p = d /\ 0 <= BinaryParser.cursor p)
  /\ forall e q,
       VPKFile.readEntry extension folder fileName p = (Err e, q) ->
       VPKFile.fromFileData path d = Err e.
Proof.
  intros (vh & p0 & es1 & p1 & es2 & p2 & Hh & R1 & R2 & R3).
  set (B := S (List.length d)) in *.
  pose proof (stable_enough B) as HP.
  destruct (sound_header 0 (enough B) ltac:(lia) HP (BinaryParser.new d))
    as (_ & H2 & _); [simpl; lia | apply enough_new |].
  rewrite Hh in H2. cbn [fst snd] in H2.
  destruct (H2 vh eq_refl) as (_ & Hd0 & Hc0).
  cbn [BinaryParser.new BinaryParser.data BinaryParser.cursor] in Hd0, Hc0.
  assert (He0 : enough B p0).
  { apply (HP (BinaryParser.new d)); [exact Hd0 | exact Hc0 | apply enough_new]. }
  destruct (eachString_reached 0 (enough B) _ _ _ _ _ _ ltac:(lia) HP
              (fun s a => sound_extensionBody 0 ltac:(lia) B s a) R1 B Hc0 He0 He0)
    as ((Hc1 & He1 & Hd1) & Herr1).
  destruct (eachString_reached 0 (enough B) _ _ _ _ _ _ ltac:(lia) HP
              (fun s a => sound_folderBody 0 ltac:(lia) B extension s a)
              R2 B Hc1 He1 He1)
    as ((Hc2 & He2 & Hd2) & Herr2).
  destruct (eachString_reached 0 (enough B) _ _ _ _ _ _ ltac:(lia) HP
              (fun s a => sound_fileBody 0 ltac:(lia) (enough B) extension folder s a HP)
              R3 B Hc2 He2 He2)
    as ((Hc3 & He3 & Hd3) & Herr3).
  split.
  - split; [congruence | exact Hc3].
  - intros e q Hre.
    assert (Hfb : VPKFile.fileBody extension folder fileName entries p = (Err e, q))
      by (rewrite fileBody_eq, Hre; reflexivity).
    pose proof (Herr1 e q (Herr2 e q (Herr3 e q Hfb))) as Htree.
    fold (VPKFile.tree B ∅) in Htree.
    unfold VPKFile.fromFileData, VPKFile.parse. unfold bind at 1. rewrite Hh.
    destruct vh as [version [[[[dataOffset fds] amd] omd] sss]].
    unfold bind. fold B. rewrite Htree. reflexivity.
Qed.

(** C8: at an entry record that the parse reaches, with its 18 bytes inside
    the buffer, the fields are read in the order [crc] (u32 at the cursor
    [c]), [preloadBytes] (u16 at [c+4]), [archiveIndex] (u16 at [c+6]),
    [entryOffset] (u32 at [c+8]), [entryLength] (u32 at [c+12]) and the
    terminator (u16 at [c+16]).  A terminator other than 0xffff stops the
    record at [c+18], before any preload byte is read and with nothing
    inserted, and makes the whole parse throw 'Bad entry terminator'.  With
    the terminator 0xffff the entry is inserted under
    [folder/fileName.extension]: without preload when [preloadBytes] is 0,
    and otherwise with the [preloadBytes] bytes that follow the record. *)
Theorem entry_record (path : string) (d : Buffer.t)
        (extension folder fileName : string)
        (entries : gmap string VPKEntryMeta.t) (p : BinaryParser.t) :
  EntryReached d extension folder fileName entries p ->
  let c := BinaryParser.cursor p in
  let L := Buffer.length d in
  c + 18 <= L ->
  p = BinaryParser.mk d c /\ 0 <= c
  /\ exists CRC preloadBytes archiveIndex entryOffset entryLength terminator,
      Buffer.readUInt32LE d c = Ok CRC
      /\ Buffer.readUInt16LE d (c + 4) = Ok preloadBytes
      /\ Buffer.readUInt16LE d (c + 6) = Ok archiveIndex
      /\ Buffer.readUInt32LE d (c + 8) = Ok entryOffset
      /\ Buffer.readUInt32LE d (c + 12) = Ok entryLength
      /\ Buffer.readUInt16LE d (c + 16) = Ok terminator
      /\ 0 <= preloadBytes
      /\ let key := (folder +:+ "/" +:+ fileName +:+ "." +:+ extension)%string in
         let node preload :=
           VPKEntryMeta.mk extension folder fileName key CRC preloadBytes
                           preload archiveIndex entryOffset entryLength in
         let step := VPKFile.fileBody extension folder fileName entries p in
         (terminator <> 0xffff ->
          step = (Err BadEntryTerminator, BinaryParser.mk d (c + 18))
          /\ VPKFile.fromFileData path d = Err BadEntryTerminator)
         /\ (terminator = 0xffff -> preloadBytes = 0 ->
             step = (Ok (<[key := node None]> entries), BinaryParser.mk d (c + 18)))
         /\ (terminator = 0xffff -> 0 < preloadBytes ->
             c + 18 + preloadBytes <= L ->
             step
             = (Ok (<[key := node (Some (Buffer.slice d (c + 18)
                                                     (c + 18 + preloadBytes)))]>
                      entries),
                BinaryParser.mk d (c + 18 + preloadBytes)))
         /\ (terminator = 0xffff -> 0 < preloadBytes ->
             L < c + 18 + preloadBytes ->
             step = (Err InsufficientData, BinaryParser.mk d (c + 18))
             /\ VPKFile.fromFileData path d = Err InsufficientData).
Proof.
  intros Hreach c L Hin.
  destruct (reached_entry_error path d _ _ _ _ _ Hreach) as ((Hd & Hc) & Herr).
  fold c in Hc.
  assert (Ep : p = BinaryParser.mk d c).
  { destruct p as [d' c']. simpl in *. subst d'. reflexivity. }
  split; [exact Ep |]. split; [exact Hc |].
  destruct (proj2 (readUInt32LE_Ok d c) ltac:(fold L; lia)) as [CRC H0].
  destruct (readUInt16LE_Ok d (c + 4) ltac:(lia) ltac:(fold L; lia)) as [pb H4].
  destruct (readUInt16LE_Ok d (c + 6) ltac:(lia) ltac:(fold L; lia)) as [ai H6].
  destruct (proj2 (readUInt32LE_Ok d (c + 8)) ltac:(fold L; lia)) as [eo H8].
  destruct (proj2 (readUInt32LE_Ok d (c + 12)) ltac:(fold L; lia)) as [el H12].
  destruct (readUInt16LE_Ok d (c + 16) ltac:(lia) ltac:(fold L; lia)) as [term H16].
  exists CRC, pb, ai, eo, el, term.
  pose proof (readUInt16LE_nonneg d _ _ H4) as Hpb.
  split_and!; try assumption; [lia |].
  intros key node step.
  pose proof (readEntry_eq extension folder fileName d c _ _ _ _ _ _
                           H0 H4 H6 H8 H12 H16) as Hre.
  cbv zeta in Hre. fold key in Hre. fold L in Hre. rewrite <- Ep in Hre.
  assert (Hstep : step
                  = match VPKFile.readEntry extension folder fileName p with
                    | (Ok n, p') => (Ok (<[VPKEntryMeta.path n := n]> entries), p')
                    | (Err e, p') => (Err e, p')
                    end) by apply fileBody_eq.
  split_and!.
  - intros Ht. apply Z.eqb_neq in Ht. rewrite Ht in Hre.
    split; [rewrite Hstep, Hre; reflexivity |].
    apply (Herr _ _ Hre).
  - intros Ht H0pb. apply Z.eqb_eq in Ht. rewrite Ht in Hre.
    apply Z.eqb_eq in H0pb. rewrite H0pb in Hre.
    rewrite Hstep, Hre. reflexivity.
  - intros Ht Hpos Hfit. apply Z.eqb_eq in Ht. rewrite Ht in Hre.
    assert (E0 : (pb =? 0) = false) by (apply Z.eqb_neq; lia).
    assert (E1 : (c + 18 + pb <=? L) = true) by (apply Z.leb_le; lia).
    rewrite E0, E1 in Hre. rewrite Hstep, Hre.
    rewrite subarray_inside by (fold L; lia). reflexivity.
  - intros Ht Hpos Hfit. apply Z.eqb_eq in Ht. rewrite Ht in Hre.
    assert (E0 : (pb =? 0) = false) by (apply Z.eqb_neq; lia).
    assert (E1 : (c + 18 + pb <=? L) = false) by (apply Z.leb_gt; lia).
    rewrite E0, E1 in Hre.
    split; [rewrite Hstep, Hre; reflexivity |].
    apply (Herr _ _ Hre).
Qed.

Lemma entryReached_directoryBytes (treeSize terminator : Buffer.t) :
  List.length treeSize = 4%nat -> List.length terminator = 2%nat ->
  EntryReached (directoryBytes treeSize terminator) "txt" "scripts" "items" ∅
               (BinaryParser.mk (directoryBytes treeSize terminator) 30).
Proof.
  intros H4 H2.
  destruct treeSize as [|t0 [|t1 [|t2 [|t3 [|]]]]]; try discriminate.
  destruct terminator as [|u0 [|u1 [|]]]; try discriminate.
  unfold EntryReached.
  eexists _, _, _, _, _, _. split_and!.
  - reflexivity.
  - apply Reached_here; reflexivity.
  - apply Reached_here; reflexivity.
  - apply Reached_here; reflexivity.
Qed.

(** The directory with the entry scripts/items.txt whose record ends in
    0xfeff instead of 0xffff does not parse: 'Bad entry terminator'. *)
Lemma entry_record_witness :
  VPKFile.fromFileData "pak01_dir.vpk"
                       (directoryBytes [x29; x00; x00; x00] [xff; xfe])
  = Err BadEntryTerminator.
Proof.
  destruct (entry_record "pak01_dir.vpk"
              (directoryBytes [x29; x00; x00; x00] [xff; xfe])
              "txt" "scripts" "items" ∅
              (BinaryParser.mk (directoryBytes [x29; x00; x00; x00] [xff; xfe]) 30))
    as (_ & _ & CRC & pb & ai & eo & el & term & _ & _ & _ & _ & _ & Ht & _ & H & _).
  - apply entryReached_directoryBytes; reflexivity.
  - vm_compute. discriminate.
  - apply H. vm_compute in Ht. injection Ht as <-. discriminate.
Defined.

(** * More of BinaryParser *)

Lemma readUInt16LE_Err (d : Buffer.t) (o : Z) (e : Error) :
  Buffer.readUInt16LE d o = Err e -> e = OutOfBounds.
Proof.
  unfold Buffer.readUInt16LE.
  repeat (destruct (Buffer.get _ _); try discriminate); congruence.
Qed.

(** X1: with the cursor and the cursor plus 4 among the integers a number
    holds exactly, a cursor-advancing integer read returns exactly when its
    bytes lie inside the buffer, with the little-endian value of those
    bytes, and throws the range error otherwise; in both cases the cursor
    has moved on by the width. *)
Theorem integer_reads_bounds (d : Buffer.t) (c : Z) :
  let L := Buffer.length d in
  let p := BinaryParser.mk d c in
  exactInteger c -> exactInteger (c + 4) ->
  snd (BinaryParser.readUInt32LE None p) = BinaryParser.mk d (c + 4)
  /\ snd (BinaryParser.readUInt16LE None p) = BinaryParser.mk d (c + 2)
  /\ (0 <= c /\ c + 4 <= L ->
      exists b0 b1 b2 b3,
        Buffer.get d c = Some b0 /\ Buffer.get d (c + 1) = Some b1
        /\ Buffer.get d (c + 2) = Some b2 /\ Buffer.get d (c + 3) = Some b3
        /\ fst (BinaryParser.readUInt32LE None p)
           = Ok (Buffer.u8 b0 + 256 * Buffer.u8 b1 + 65536 * Buffer.u8 b2
                 + 16777216 * Buffer.u8 b3)
        /\ 0 <= Buffer.u8 b0 + 256 * Buffer.u8 b1 + 65536 * Buffer.u8 b2
                + 16777216 * Buffer.u8 b3 < 2 ^ 32)
  /\ (c < 0 \/ L < c + 4 ->
      fst (BinaryParser.readUInt32LE None p) = Err OutOfBounds)
  /\ (0 <= c /\ c + 2 <= L ->
      exists b0 b1,
        Buffer.get d c = Some b0 /\ Buffer.get d (c + 1) = Some b1
        /\ fst (BinaryParser.readUInt16LE None p)
           = Ok (Buffer.u8 b0 + 256 * Buffer.u8 b1)
        /\ 0 <= Buffer.u8 b0 + 256 * Buffer.u8 b1 < 2 ^ 16)
  /\ (c < 0 \/ L < c + 2 ->
      fst (BinaryParser.readUInt16LE None p) = Err OutOfBounds).
Proof.
  intros L p _ _. unfold p. rewrite readUInt32LE_at, readUInt16LE_at. cbn [fst snd].
  split_and!; try reflexivity.
  - intros [Hc HL].
    destruct (get_Some d c ltac:(fold L; lia)) as [b0 E0].
    destruct (get_Some d (c + 1) ltac:(fold L; lia)) as [b1 E1].
    destruct (get_Some d (c + 2) ltac:(fold L; lia)) as [b2 E2].
    destruct (get_Some d (c + 3) ltac:(fold L; lia)) as [b3 E3].
    exists b0, b1, b2, b3. unfold Buffer.readUInt32LE. rewrite E0, E1, E2, E3.
    pose proof (u8_range b0). pose proof (u8_range b1).
    pose proof (u8_range b2). pose proof (u8_range b3).
    split_and!; try reflexivity; try lia.
    f_equal. lia.
  - intros Hout.
    destruct (Buffer.readUInt32LE d c) as [v | e] eqn:E.
    + assert (Hin : exists v, Buffer.readUInt32LE d c = Ok v) by eauto.
      apply readUInt32LE_Ok in Hin. fold L in Hin. lia.
    + apply readUInt32LE_Err in E. congruence.
  - intros [Hc HL].
    destruct (get_Some d c ltac:(fold L; lia)) as [b0 E0].
    destruct (get_Some d (c + 1) ltac:(fold L; lia)) as [b1 E1].
    exists b0, b1. unfold Buffer.readUInt16LE. rewrite E0, E1.
    pose proof (u8_range b0). pose proof (u8_range b1).
    split_and!; try reflexivity; try lia.
    f_equal. lia.
  - intros Hout. unfold Buffer.readUInt16LE.
    destruct (Buffer.get d c) as [b0 |] eqn:E0; [| reflexivity].
    destruct (Buffer.get d (c + 1)) as [b1 |] eqn:E1; [| reflexivity].
    exfalso.
    assert (H0 : ~ (c < 0 \/ L <= c)).
    { intros H. apply get_None in H. congruence. }
    assert (H1 : ~ (c + 1 < 0 \/ L <= c + 1)).
    { intros H. apply get_None in H. congruence. }
    lia.
Qed.

(** The two bytes 34 12 read as the 16-bit value 0x1234. *)
Lemma integer_reads_bounds_witness :
  exists b0 b1,
    Buffer.get [x34; x12] 0 = Some b0 /\ Buffer.get [x34; x12] (0 + 1) = Some b1
    /\ fst (BinaryParser.readUInt16LE None (BinaryParser.mk [x34; x12] 0))
       = Ok (Buffer.u8 b0 + 256 * Buffer.u8 b1)
    /\ 0 <= Buffer.u8 b0 + 256 * Buffer.u8 b1 < 2 ^ 16.
Proof.
  destruct (integer_reads_bounds [x34; x12] 0) as (_ & _ & _ & _ & H & _).
  - vm_compute. split; discriminate.
  - vm_compute. split; discriminate.
  - apply H. vm_compute. split; discriminate.
Defined.

(** X2: a read with an explicit offset leaves the parser as it is and
    returns what the cursor-advancing read returns from a cursor at that
    offset. *)
Theorem offset_reads_peek (p : BinaryParser.t) (o : Z) :
  let at_o := BinaryParser.mk (BinaryParser.data p) o in
  BinaryParser.readUInt32LE (Some o) p
  = (fst (BinaryParser.readUInt32LE None at_o), p)
  /\ BinaryParser.readUInt16LE (Some o) p
     = (fst (BinaryParser.readUInt16LE None at_o), p)
  /\ BinaryParser.readString (Some o) p
     = (fst (BinaryParser.readString None at_o), p).
Proof.
  intros at_o. unfold at_o.
  rewrite readUInt32LE_at, readUInt16LE_at, readString_eq. split_and!; reflexivity.
Qed.

Lemma slice_get (d : Buffer.t) (s e : Z) (i : nat) :
  0 <= s -> Z.of_nat i < e - s ->
  Buffer.slice d s e !! i = Buffer.get d (s + Z.of_nat i).
Proof.
  intros Hs Hi. rewrite slice_lookup.
  destruct (decide (i < Z.to_nat e - Z.to_nat s)%nat) as [_ | Hn]; [| lia].
  f_equal. lia.
Qed.

Lemma readBytes_inside (d : Buffer.t) (c n : Z) :
  0 <= c -> 0 <= n -> c + n <= Buffer.length d ->
  BinaryParser.readBytes n (BinaryParser.mk d c)
  = (Ok (Buffer.slice d c (c + n)), BinaryParser.mk d (c + n)).
Proof.
  intros Hc Hn Hfit. rewrite readBytes_eq.
  destruct (Z.leb_spec (c + n) (Buffer.length d)); [| lia].
  rewrite subarray_inside by lia. reflexivity.
Qed.

(** X3: [readBytes(n)] from a cursor [c] returns exactly when [c + n] is
    within the buffer: it then hands out the [n] bytes at [c .. c+n-1] and
    moves the cursor to [c + n]; otherwise it throws 'Insufficient bytes'
    and the cursor stays. *)
Theorem readBytes_exact (d : Buffer.t) (c n : Z) :
  0 <= c -> 0 <= n ->
  let L := Buffer.length d in
  (c + n <= L ->
   BinaryParser.readBytes n (BinaryParser.mk d c)
   = (Ok (Buffer.slice d c (c + n)), BinaryParser.mk d (c + n))
   /\ List.length (Buffer.slice d c (c + n)) = Z.to_nat n
   /\ forall i : nat, Z.of_nat i < n ->
        Buffer.slice d c (c + n) !! i = Buffer.get d (c + Z.of_nat i))
  /\ (L < c + n ->
      BinaryParser.readBytes n (BinaryParser.mk d c)
      = (Err InsufficientData, BinaryParser.mk d c)).
Proof.
  intros Hc Hn L. rewrite readBytes_eq. fold L. split.
  - intros Hfit. destruct (Z.leb_spec (c + n) L); [| lia].
    rewrite subarray_inside by (fold L; lia). split_and!.
    + reflexivity.
    + rewrite slice_length by (fold L; lia). f_equal. lia.
    + intros i Hi. apply slice_get; lia.
  - intros Hout. destruct (Z.leb_spec (c + n) L); [lia | reflexivity].
Qed.

(** Reading two of the three bytes 'abc' gives 'ab' and the cursor 2. *)
Lemma readBytes_exact_witness :
  BinaryParser.readBytes 2 (BinaryParser.mk [x61; x62; x63] 0)
  = (Ok (Buffer.slice [x61; x62; x63] 0 (0 + 2)), BinaryParser.mk [x61; x62; x63] (0 + 2)).
Proof.
  destruct (readBytes_exact [x61; x62; x63] 0 2) as (H & _); [lia | lia |].
  apply H. vm_compute. discriminate.
Defined.

Lemma slice_app (d : Buffer.t) (a b c : Z) :
  0 <= a <= b -> b <= c ->
  Buffer.slice d a b ++ Buffer.slice d b c = Buffer.slice d a c.
Proof.
  intros Hab Hbc. unfold Buffer.slice.
  replace (Z.to_nat c - Z.to_nat a)%nat
    with ((Z.to_nat b - Z.to_nat a) + (Z.to_nat c - Z.to_nat b))%nat by lia.
  rewrite <- take_take_drop, drop_drop.
  replace (Z.to_nat a + (Z.to_nat b - Z.to_nat a))%nat with (Z.to_nat b) by lia.
  reflexivity.
Qed.

(** X4: two [readBytes] in a row hand out, joined, what one [readBytes] of
    the two counts together hands out, and leave the cursor at the same
    place. *)
Theorem readBytes_twice (d : Buffer.t) (c n m : Z) :
  0 <= c -> 0 <= n -> 0 <= m -> c + n + m <= Buffer.length d ->
  (let* a := BinaryParser.readBytes n in
   let* b := BinaryParser.readBytes m in
   ret (a ++ b)) (BinaryParser.mk d c)
  = BinaryParser.readBytes (n + m) (BinaryParser.mk d c).
Proof.
  intros Hc Hn Hm Hfit.
  pose proof (readBytes_inside d c n Hc Hn ltac:(lia)) as E1.
  pose proof (readBytes_inside d (c + n) m ltac:(lia) Hm ltac:(lia)) as E2.
  pose proof (readBytes_inside d c (n + m) Hc ltac:(lia) ltac:(lia)) as E3.
  unfold bind. rewrite E1, E2, E3. unfold ret.
  rewrite slice_app by lia.
  replace (c + n + m) with (c + (n + m)) by lia. reflexivity.
Qed.

(** One byte and then two of 'abc' is the same as three bytes at once. *)
Lemma readBytes_twice_witness :
  (let* a := BinaryParser.readBytes 1 in
   let* b := BinaryParser.readBytes 2 in
   ret (a ++ b)) (BinaryParser.mk [x61; x62; x63] 0)
  = BinaryParser.readBytes (1 + 2) (BinaryParser.mk [x61; x62; x63] 0).
Proof.
  apply (readBytes_twice [x61; x62; x63] 0 1 2); try lia.
  vm_compute. discriminate.
Defined.

(** X5: [readBytes] does not refuse a negative count.  From a cursor [c]
    with [0 <= c + n] it returns no bytes and moves the cursor BACK to
    [c + n]. *)
Theorem readBytes_negative_count (d : Buffer.t) (c n : Z) :
  n < 0 -> 0 <= c + n -> c + n <= Buffer.length d ->
  BinaryParser.readBytes n (BinaryParser.mk d c)
  = (Ok [], BinaryParser.mk d (c + n)).
Proof.
  intros Hn Hlow Hfit. rewrite readBytes_eq.
  destruct (Z.leb_spec (c + n) (Buffer.length d)); [| lia].
  f_equal. f_equal.
  unfold Buffer.subarray, Buffer.rel_index, Buffer.slice.
  destruct (Z.ltb_spec c 0); [lia |]. destruct (Z.ltb_spec (c + n) 0); [lia |].
  replace (Z.to_nat (Z.min (c + n) (Buffer.length d))
           - Z.to_nat (Z.min c (Buffer.length d)))%nat with 0%nat by lia.
  reflexivity.
Qed.

(** [readBytes(-1)] at cursor 2 of 'abc' returns nothing and leaves the
    cursor at 1. *)
Lemma readBytes_negative_count_witness :
  BinaryParser.readBytes (-1) (BinaryParser.mk [x61; x62; x63] 2)
  = (Ok [], BinaryParser.mk [x61; x62; x63] (2 + -1)).
Proof.
  apply (readBytes_negative_count [x61; x62; x63] 2 (-1)); try lia.
  vm_compute. discriminate.
Defined.

(** X6: once [eof()] holds, nothing more can be read: the integer reads
    throw the range error, [readBytes] of a positive count throws
    'Insufficient bytes', and [readString] returns the empty string (moving
    the cursor one further); [eof()] still holds after each of them. *)
Theorem reads_at_eof (d : Buffer.t) (c : Z) :
  let p := BinaryParser.mk d c in
  BinaryParser.eof p = true ->
  Buffer.length d <= c
  /\ fst (BinaryParser.readUInt32LE None p) = Err OutOfBounds
  /\ fst (BinaryParser.readUInt16LE None p) = Err OutOfBounds
  /\ BinaryParser.readString None p = (Ok EmptyString, BinaryParser.mk d (c + 1))
  /\ (forall n, 0 < n ->
        BinaryParser.readBytes n p = (Err InsufficientData, p))
  /\ BinaryParser.eof (snd (BinaryParser.readUInt32LE None p)) = true
  /\ BinaryParser.eof (snd (BinaryParser.readUInt16LE None p)) = true
  /\ BinaryParser.eof (snd (BinaryParser.readString None p)) = true.
Proof.
  intros p Heof. unfold BinaryParser.eof in Heof. simpl in Heof.
  apply Z.leb_le in Heof.
  assert (Hnone : forall i, c <= i -> Buffer.get d i = None).
  { intros i Hi. apply get_None. lia. }
  assert (He : BinaryParser.scanEnd d c = c).
  { apply scanEnd_falsy. rewrite Hnone by lia. reflexivity. }
  unfold p. rewrite readUInt32LE_at, readUInt16LE_at, readString_eq, He.
  cbn [fst snd]. unfold BinaryParser.eof. cbn [BinaryParser.data BinaryParser.cursor].
  split_and!.
  - exact Heof.
  - unfold Buffer.readUInt32LE. rewrite (Hnone c) by lia. reflexivity.
  - unfold Buffer.readUInt16LE. rewrite (Hnone c) by lia. reflexivity.
  - unfold Buffer.toString_ascii. rewrite slice_empty. reflexivity.
  - intros n Hn. rewrite readBytes_eq.
    destruct (Z.leb_spec (c + n) (Buffer.length d)); [lia | reflexivity].
  - apply Z.leb_le. lia.
  - apply Z.leb_le. lia.
  - apply Z.leb_le. lia.
Qed.

(** At the end of 'ab' a 16-bit read throws the range error. *)
Lemma reads_at_eof_witness :
  fst (BinaryParser.readUInt16LE None (BinaryParser.mk [x61; x62] 2))
  = Err OutOfBounds.
Proof.
  destruct (reads_at_eof [x61; x62] 2) as (_ & _ & H & _); [reflexivity |].
  exact H.
Defined.

(** ** asIterator *)

Lemma genCollect_yielded (d : Buffer.t) (budget : nat) (c : Z) :
  0 <= c < Buffer.length d ->
  (Z.to_nat (Buffer.length d - c) <= budget)%nat ->
  genCollect budget (GenYielded (Buffer.length d)) (BinaryParser.mk d c)
  = (Ok (map Some (drop (S (Z.to_nat c)) d)),
     BinaryParser.mk d (Buffer.length d)).
Proof.
  revert c. induction budget as [|budget IH]; intros c Hc Hb; [lia |].
  cbn [genCollect genNext]. unfold bind at 1 2. unfold BinaryParser.setCursor.
  cbn [BinaryParser.data BinaryParser.cursor]. unfold genLoop.
  cbn [BinaryParser.data BinaryParser.cursor].
  destruct (Z.ltb_spec (c + 1) (Buffer.length d)) as [Hlt | Hge].
  - unfold bind. rewrite IH by lia.
    destruct (get_Some d (c + 1) ltac:(lia)) as [x Hx]. rewrite Hx.
    unfold ret. f_equal. f_equal.
    assert (Hl : d !! S (Z.to_nat c) = Some x).
    { rewrite <- get_nat. rewrite <- Hx. f_equal. lia. }
    rewrite (drop_S d x (S (Z.to_nat c)) Hl).
    replace (Z.to_nat (c + 1)) with (S (Z.to_nat c)) by lia. reflexivity.
  - unfold ret. f_equal.
    + rewrite drop_ge by (unfold Buffer.length in *; lia). reflexivity.
    + f_equal. lia.
Qed.

(** X7: spreading the generator of [asIterator()] hands out the bytes from
    the cursor to the end of the buffer, in order, and leaves the parser at
    the end of the buffer (or where it was, when it was already past the
    end); no more than one [next()] per remaining byte and one more are
    needed. *)
Theorem asIterator_collects_rest (d : Buffer.t) (c : Z) (budget : nat) :
  0 <= c ->
  (Z.to_nat (Buffer.length d - c) < budget)%nat ->
  genCollect budget GenFresh (BinaryParser.mk d c)
  = (Ok (map Some (drop (Z.to_nat c) d)),
     BinaryParser.mk d (Z.max c (Buffer.length d))).
Proof.
  intros Hc Hb. destruct budget as [|budget]; [lia |].
  cbn [genCollect genNext]. unfold bind at 1. unfold genLoop.
  cbn [BinaryParser.data BinaryParser.cursor].
  destruct (Z.ltb_spec c (Buffer.length d)) as [Hlt | Hge].
  - unfold bind. rewrite genCollect_yielded by lia.
    destruct (get_Some d c ltac:(lia)) as [x Hx]. rewrite Hx.
    unfold ret. f_equal.
    + f_equal.
      assert (Hl : d !! Z.to_nat c = Some x).
      { rewrite <- get_nat. rewrite <- Hx. f_equal. lia. }
      rewrite (drop_S d x (Z.to_nat c) Hl). reflexivity.
    + f_equal. lia.
  - unfold ret. f_equal.
    + rewrite drop_ge by (unfold Buffer.length in *; lia). reflexivity.
    + f_equal. lia.
Qed.

(** From cursor 1 of 'abc' the generator hands out 'b' and 'c'. *)
Lemma asIterator_collects_rest_witness :
  genCollect 3 GenFresh (BinaryParser.mk [x61; x62; x63] 1)
  = (Ok (map Some (drop (Z.to_nat 1) [x61; x62; x63])),
     BinaryParser.mk [x61; x62; x63] (Z.max 1 (Buffer.length [x61; x62; x63]))).
Proof.
  apply (asIterator_collects_rest [x61; x62; x63] 1 3); [lia |].
  vm_compute. lia.
Defined.

(** X8: the generator works on the parser's own cursor and leaves it ON the
    byte it has just handed out.  A [readBytes(1)] between two [next()]
    therefore returns that same byte again, and the second [next()] steps
    over the byte after it, which nobody gets. *)
Theorem asIterator_shares_cursor (d : Buffer.t) (c : Z) :
  0 <= c -> c + 2 < Buffer.length d ->
  (let* r1 := genNext GenFresh in
   let* bytes := BinaryParser.readBytes 1 in
   let* r2 := genNext (snd r1) in
   ret (fst r1, bytes, fst r2)) (BinaryParser.mk d c)
  = (Ok (IterValue (Buffer.get d c),
         Buffer.slice d c (c + 1),
         IterValue (Buffer.get d (c + 2))),
     BinaryParser.mk d (c + 2)).
Proof.
  intros Hc HL.
  pose proof (readBytes_inside d c 1 Hc ltac:(lia) ltac:(lia)) as E1.
  unfold bind at 1. cbn [genNext]. unfold genLoop.
  cbn [BinaryParser.data BinaryParser.cursor].
  destruct (Z.ltb_spec c (Buffer.length d)); [| lia].
  unfold bind at 1. rewrite E1. cbn [snd genNext].
  unfold bind, BinaryParser.setCursor, genLoop, ret.
  cbn [BinaryParser.data BinaryParser.cursor].
  replace (c + 1 + 1) with (c + 2) by lia.
  destruct (Z.ltb_spec (c + 2) (Buffer.length d)); [| lia].
  reflexivity.
Qed.

(** On 'abc' from the start: 'a' from the generator, 'a' again from
    [readBytes(1)], then 'c' from the generator. *)
Lemma asIterator_shares_cursor_witness :
  (let* r1 := genNext GenFresh in
   let* bytes := BinaryParser.readBytes 1 in
   let* r2 := genNext (snd r1) in
   ret (fst r1, bytes, fst r2)) (BinaryParser.mk [x61; x62; x63] 0)
  = (Ok (IterValue (Some x61), [x61], IterValue (Some x63)),
     BinaryParser.mk [x61; x62; x63] 2).
Proof.
  apply (asIterator_shares_cursor [x61; x62; x63] 0); [lia |].
  vm_compute. reflexivity.
Defined.

(** * More of VPKFile.fromFile *)

Lemma headerRest_at (d : Buffer.t) (version treeSize : Z) :
  VPKFile.headerRest version treeSize (BinaryParser.mk d 12)
  = if version =? 2 then
      match Buffer.readUInt32LE d 12 with
      | Err e => (Err e, BinaryParser.mk d 16)
      | Ok fds =>
          match Buffer.readUInt32LE d 16 with
          | Err e => (Err e, BinaryParser.mk d 20)
          | Ok amd =>
              match Buffer.readUInt32LE d 20 with
              | Err e => (Err e, BinaryParser.mk d 24)
              | Ok omd =>
                  if omd =? 48 then
                    match Buffer.readUInt32LE d 24 with
                    | Err e => (Err e, BinaryParser.mk d 28)
                    | Ok sss =>
                        (Ok (VPKFile.HEADER_SIZE_V2 + treeSize, Some fds,
                             Some amd, Some omd, Some sss),
                         BinaryParser.mk d 28)
                    end
                  else (Err InvalidHeader, BinaryParser.mk d 24)
              end
          end
      end
    else (Ok (VPKFile.HEADER_SIZE_V1 + treeSize, None, None, None, None),
          BinaryParser.mk d 12).
Proof.
  unfold VPKFile.headerRest. destruct (version =? 2); [| reflexivity].
  unfold bind at 1. rewrite readUInt32LE_at. change (12 + 4) with 16.
  destruct (Buffer.readUInt32LE d 12) as [fds | e]; [| reflexivity].
  unfold bind at 1. rewrite readUInt32LE_at. change (16 + 4) with 20.
  destruct (Buffer.readUInt32LE d 16) as [amd | e]; [| reflexivity].
  unfold bind at 1. rewrite readUInt32LE_at. change (20 + 4) with 24.
  destruct (Buffer.readUInt32LE d 20) as [omd | e]; [| reflexivity].
  unfold bind at 1. unfold assert.
  destruct (omd =? 48); [| reflexivity].
  cbn [ret]. unfold bind at 1. rewrite readUInt32LE_at. change (24 + 4) with 28.
  destruct (Buffer.readUInt32LE d 24) as [sss | e]; reflexivity.
Qed.

Lemma afterTreeSize_headerErr (path : string) (d : Buffer.t)
      (version treeSize : Z) (e : Error) (p : BinaryParser.t) :
  VPKFile.headerRest version treeSize (BinaryParser.mk d 12) = (Err e, p) ->
  afterTreeSize path d version treeSize (BinaryParser.mk d 12) = (Err e, p).
Proof. intros H. unfold afterTreeSize, bind. rewrite H. reflexivity. Qed.

Lemma readUInt32LE_short (d : Buffer.t) (o : Z) :
  Buffer.length d < o + 4 -> Buffer.readUInt32LE d o = Err OutOfBounds.
Proof.
  intros Hs. destruct (Buffer.readUInt32LE d o) as [v | e] eqn:E.
  - assert (H : exists v, Buffer.readUInt32LE d o = Ok v) by eauto.
    apply readUInt32LE_Ok in H. lia.
  - apply readUInt32LE_Err in E. congruence.
Qed.

(** X9: which header makes [fromFile] throw what.  Fewer than 4 bytes: the
    range error.  Another magic than 0x55aa1234: 'Invalid file signature'.
    A version other than 1 and 2: 'Unsupported file version'.  A header cut
    short (12 bytes for version 1; 24, and 28 when the third section size is
    48, for version 2): the range error.  Version 2 with a third section
    size other than 48: 'Invalid value of field OtherMD5SectionSize', thrown
    before the fourth size is read. *)
Theorem header_errors (path : string) (d : Buffer.t) :
  let L := Buffer.length d in
  let parsed := VPKFile.fromFileData path d in
  (L < 4 -> parsed = Err OutOfBounds)
  /\ (forall signature, Buffer.readUInt32LE d 0 = Ok signature ->
        signature <> VPKFile.SIGNATURE -> parsed = Err BadSignature)
  /\ (Buffer.readUInt32LE d 0 = Ok VPKFile.SIGNATURE ->
      (L < 8 -> parsed = Err OutOfBounds)
      /\ (forall version, Buffer.readUInt32LE d 4 = Ok version ->
            (version <> 1 -> version <> 2 -> parsed = Err UnsupportedVersion)
            /\ (version = 1 \/ version = 2 -> L < 12 -> parsed = Err OutOfBounds)
            /\ (version = 2 -> L < 24 -> parsed = Err OutOfBounds)
            /\ (version = 2 -> forall omd, Buffer.readUInt32LE d 20 = Ok omd ->
                  (omd <> 48 -> parsed = Err InvalidHeader)
                  /\ (omd = 48 -> L < 28 -> parsed = Err OutOfBounds)))).
Proof.
  intros L parsed. unfold parsed, VPKFile.fromFileData. rewrite parse_unfold.
  split_and!.
  - intros HL. rewrite readUInt32LE_short by (fold L; lia). reflexivity.
  - intros signature Hs Hne. rewrite Hs.
    apply Z.eqb_neq in Hne. rewrite Hne. reflexivity.
  - intros Hs. rewrite Hs, Z.eqb_refl. split.
    + intros HL. rewrite readUInt32LE_short by (fold L; lia). reflexivity.
    + intros version Hv. rewrite Hv. split_and!.
      * intros H1 H2. apply Z.eqb_neq in H1, H2. rewrite H1, H2. reflexivity.
      * intros Hv12 HL.
        assert (E : (version =? 1) || (version =? 2) = true).
        { destruct Hv12 as [-> | ->]; reflexivity. }
        rewrite E. rewrite readUInt32LE_short by (fold L; lia). reflexivity.
      * intros -> HL. cbn [Z.eqb Pos.eqb orb].
        destruct (Buffer.readUInt32LE d 8) as [treeSize | e] eqn:E8.
        -- assert (Hh : exists p,
                     VPKFile.headerRest 2 treeSize (BinaryParser.mk d 12)
                     = (Err OutOfBounds, p)).
           { rewrite headerRest_at. cbn [Z.eqb Pos.eqb].
             destruct (Buffer.readUInt32LE d 12) as [fds | e] eqn:E12.
             - destruct (Buffer.readUInt32LE d 16) as [amd | e] eqn:E16.
               + rewrite readUInt32LE_short by (fold L; lia). eauto.
               + apply readUInt32LE_Err in E16. subst e. eauto.
             - apply readUInt32LE_Err in E12. subst e. eauto. }
           destruct Hh as [p Hh].
           rewrite (afterTreeSize_headerErr _ _ _ _ _ _ Hh). reflexivity.
        -- apply readUInt32LE_Err in E8. subst e. reflexivity.
      * intros -> omd Homd. cbn [Z.eqb Pos.eqb orb].
        assert (H20 : exists v, Buffer.readUInt32LE d 20 = Ok v) by eauto.
        apply readUInt32LE_Ok in H20. fold L in H20.
        destruct (proj2 (readUInt32LE_Ok d 8) ltac:(fold L; lia)) as [treeSize E8].
        destruct (proj2 (readUInt32LE_Ok d 12) ltac:(fold L; lia)) as [fds E12].
        destruct (proj2 (readUInt32LE_Ok d 16) ltac:(fold L; lia)) as [amd E16].
        rewrite E8.
        assert (Hh : VPKFile.headerRest 2 treeSize (BinaryParser.mk d 12)
                     = if omd =? 48 then
                         match Buffer.readUInt32LE d 24 with
                         | Err e => (Err e, BinaryParser.mk d 28)
                         | Ok sss =>
                             (Ok (VPKFile.HEADER_SIZE_V2 + treeSize, Some fds,
                                  Some amd, Some omd, Some sss),
                              BinaryParser.mk d 28)
                         end
                       else (Err InvalidHeader, BinaryParser.mk d 24)).
        { rewrite headerRest_at. cbn [Z.eqb Pos.eqb].
          rewrite E12, E16, Homd. reflexivity. }
        split.
        -- intros Hne. apply Z.eqb_neq in Hne. rewrite Hne in Hh.
           rewrite (afterTreeSize_headerErr _ _ _ _ _ _ Hh). reflexivity.
        -- intros -> HL. cbn [Z.eqb Pos.eqb] in Hh.
           rewrite readUInt32LE_short in Hh by (fold L; lia).
           rewrite (afterTreeSize_headerErr _ _ _ _ _ _ Hh). reflexivity.
Qed.

(** Four bytes that are not the magic: 'Invalid file signature'. *)
Lemma header_errors_witness :
  VPKFile.fromFileData "pak01_dir.vpk" [x00; x01; x02; x03] = Err BadSignature.
Proof.
  destruct (header_errors "pak01_dir.vpk" [x00; x01; x02; x03]) as (_ & H & _).
  apply (H 0x03020100); [reflexivity | discriminate].
Defined.

(** ** Values and errors of the parser's steps *)

Lemma holds_ret {A} (a : A) (Q : A -> Prop) : Q a -> holds (ret a) Q.
Proof. intros HQ p Hp. simpl. auto. Qed.

Lemma holds_assert (b : bool) (e : Error) :
  stepError e -> holds (assert b e) (fun _ => b = true).
Proof. intros He p Hp. destruct b; simpl; auto. Qed.

Lemma holds_bind {A B} (m : SE BinaryParser.t A) (f : A -> SE BinaryParser.t B)
      (Q : A -> Prop) (R : B -> Prop) :
  holds m Q -> (forall a, Q a -> holds (f a) R) -> holds (bind m f) R.
Proof.
  intros Hm Hf p Hp. unfold bind. specialize (Hm p Hp).
  destruct (m p) as [[a | e] p1]; [| exact Hm].
  destruct Hm as [HQ Hp1]. apply (Hf a HQ p1 Hp1).
Qed.

Lemma holds_weaken {A} (m : SE BinaryParser.t A) (Q Q' : A -> Prop) :
  holds m Q -> (forall a, Q a -> Q' a) -> holds m Q'.
Proof.
  intros Hm HQ p Hp. specialize (Hm p Hp).
  destruct (m p) as [[a | e] p1]; [| exact Hm].
  destruct Hm as [Ha Hp1]. auto.
Qed.

Lemma stepError_OutOfBounds : stepError OutOfBounds.
Proof. unfold stepError. tauto. Qed.

Lemma holds_readUInt32LE :
  holds (BinaryParser.readUInt32LE None) (fun v => 0 <= v < 2 ^ 32).
Proof.
  intros [d c] Hp. rewrite readUInt32LE_at.
  destruct (Buffer.readUInt32LE d c) as [v | e] eqn:E.
  - split; [apply (readUInt32LE_nonneg d c v E) |].
    cbn [BinaryParser.cursor] in *. lia.
  - apply readUInt32LE_Err in E. subst e. apply stepError_OutOfBounds.
Qed.

Lemma holds_readUInt16LE :
  holds (BinaryParser.readUInt16LE None) (fun v => 0 <= v < 2 ^ 16).
Proof.
  intros [d c] Hp. rewrite readUInt16LE_at.
  destruct (Buffer.readUInt16LE d c) as [v | e] eqn:E.
  - split; [apply (readUInt16LE_nonneg d c v E) |].
    cbn [BinaryParser.cursor] in *. lia.
  - apply readUInt16LE_Err in E. subst e. apply stepError_OutOfBounds.
Qed.

Lemma holds_readBytes (n : Z) :
  0 <= n -> holds (BinaryParser.readBytes n) (fun b => Buffer.length b = n).
Proof.
  intros Hn [d c] Hp. cbn [BinaryParser.cursor] in Hp. rewrite readBytes_eq.
  destruct (Z.leb_spec (c + n) (Buffer.length d)).
  - rewrite subarray_inside by lia. split.
    + unfold Buffer.length at 1. rewrite slice_length by lia. lia.
    + cbn [BinaryParser.cursor]. lia.
  - unfold stepError. tauto.
Qed.

Lemma holds_eachString {A} (Inv : A -> Prop)
      (body : string -> A -> SE BinaryParser.t A) (n : nat) (acc : A) :
  (forall s a, VPKFile.isEmpty s = false -> Inv a -> holds (body s a) Inv) ->
  Inv acc ->
  holds (VPKFile.eachString n body acc) Inv.
Proof.
  intros Hbody. revert acc.
  induction n as [|n IH]; intros acc Hacc [d c] Hp.
  - simpl. unfold stepError. tauto.
  - cbn [BinaryParser.cursor] in Hp. rewrite eachString_S.
    pose proof (scanEnd_ge d c) as Hge.
    destruct (VPKFile.isEmpty _) eqn:Es.
    + split; [exact Hacc |]. cbn [BinaryParser.cursor]. lia.
    + apply (holds_bind _ _ Inv Inv).
      * apply Hbody; assumption.
      * intros a Ha. apply IH. exact Ha.
      * cbn [BinaryParser.cursor]. lia.
Qed.

Lemma holds_readEntry (extension folder fileName : string) :
  VPKFile.isEmpty extension = false ->
  VPKFile.isEmpty folder = false ->
  VPKFile.isEmpty fileName = false ->
  holds (VPKFile.readEntry extension folder fileName)
        (fun node => entryOk (VPKEntryMeta.path node) node).
Proof.
  intros He Hf Hn. unfold VPKFile.readEntry.
  eapply holds_bind; [apply holds_readUInt32LE | intros CRC HCRC].
  eapply holds_bind; [apply holds_readUInt16LE | intros pb Hpb].
  eapply holds_bind; [apply holds_readUInt16LE | intros ai Hai].
  eapply holds_bind; [apply holds_readUInt32LE | intros eo Heo].
  eapply holds_bind; [apply holds_readUInt32LE | intros el Hel].
  eapply holds_bind; [apply holds_readUInt16LE | intros term _].
  eapply holds_bind;
    [apply holds_assert; unfold stepError; tauto | intros _ _].
  cbv beta in HCRC, Hpb, Hai, Heo, Hel.
  apply (holds_bind _ _
           (fun pre : option Buffer.t =>
              match pre with
              | Some b => pb <> 0 /\ Buffer.length b = pb
              | None => pb = 0
              end)).
  - destruct (Z.eqb_spec pb 0) as [E | E].
    + apply holds_ret. exact E.
    + eapply holds_bind; [apply holds_readBytes; lia | intros b Hb].
      apply holds_ret. auto.
  - intros pre Hpre. apply holds_ret.
    unfold entryOk. cbn [VPKEntryMeta.path VPKEntryMeta.folder
      VPKEntryMeta.fileName VPKEntryMeta.extension VPKEntryMeta.CRC
      VPKEntryMeta.preloadBytes VPKEntryMeta.archiveIndex
      VPKEntryMeta.entryOffset VPKEntryMeta.entryLength VPKEntryMeta.preload].
    split_and!; try reflexivity; try assumption; try lia.
Qed.

Lemma tableOk_insert (entries : gmap string VPKEntryMeta.t)
      (node : VPKEntryMeta.t) :
  tableOk entries -> entryOk (VPKEntryMeta.path node) node ->
  tableOk (<[VPKEntryMeta.path node := node]> entries).
Proof.
  intros Ht Hn key e Hl.
  destruct (decide (VPKEntryMeta.path node = key)) as [<- | Hne].
  - rewrite lookup_insert_eq in Hl. injection Hl as <-. exact Hn.
  - rewrite lookup_insert_ne in Hl by exact Hne. apply (Ht key e Hl).
Qed.

Lemma holds_tree (n : nat) (entries : gmap string VPKEntryMeta.t) :
  tableOk entries -> holds (VPKFile.tree n entries) tableOk.
Proof.
  intros Ht. unfold VPKFile.tree.
  apply holds_eachString; [| exact Ht].
  intros extension es1 He Hes1. unfold VPKFile.extensionBody.
  apply holds_eachString; [| exact Hes1].
  intros folder es2 Hf Hes2. unfold VPKFile.folderBody.
  apply holds_eachString; [| exact Hes2].
  intros fileName es3 Hn Hes3. unfold VPKFile.fileBody.
  eapply holds_bind; [apply holds_readEntry; assumption | intros node Hnode].
  apply holds_ret. apply tableOk_insert; assumption.
Qed.

Lemma holds_headerRest (version treeSize : Z) :
  holds (VPKFile.headerRest version treeSize) (fun _ => True).
Proof.
  unfold VPKFile.headerRest. destruct (version =? 2).
  - eapply holds_bind; [apply holds_readUInt32LE | intros fds _].
    eapply holds_bind; [apply holds_readUInt32LE | intros amd _].
    eapply holds_bind; [apply holds_readUInt32LE | intros omd _].
    eapply holds_bind;
      [apply holds_assert; unfold stepError; tauto | intros _ _].
    eapply holds_bind; [apply holds_readUInt32LE | intros sss _].
    apply holds_ret. exact I.
  - apply holds_ret. exact I.
Qed.

Lemma holds_parse (path : string) (d : Buffer.t) :
  holds (VPKFile.parse path d) (fun f => tableOk (VPKFile.entries f)).
Proof.
  unfold VPKFile.parse, VPKFile.header.
  eapply holds_bind.
  - eapply holds_bind; [apply holds_readUInt32LE | intros sig _].
    eapply holds_bind;
      [apply holds_assert; unfold stepError; tauto | intros _ _].
    eapply holds_bind; [apply holds_readUInt32LE | intros v _].
    eapply holds_bind;
      [apply holds_assert; unfold stepError; tauto | intros _ _].
    eapply holds_bind; [apply holds_readUInt32LE | intros ts _].
    eapply holds_bind; [apply holds_headerRest | intros h _].
    apply (holds_ret _ (fun _ => True)). exact I.
  - intros [version [[[[dataOffset fds] amd] omd] sss]] _.
    eapply holds_bind.
    + apply holds_tree. intros key e Hl. rewrite lookup_empty in Hl. discriminate.
    + intros entries Hes. apply holds_ret. exact Hes.
Qed.

(** X10: every entry of a parsed table is stored under its own path
    [folder/fileName.extension] with none of the three names empty; its
    numbers are within the widths they were read with; and it has a preload
    buffer exactly when [preloadBytes] is not 0, of exactly that many
    bytes. *)
Theorem parsed_table_ok (path : string) (d : Buffer.t) (f : VPKFile.t)
        (key : string) (e : VPKEntryMeta.t) :
  VPKFile.fromFileData path d = Ok f ->
  VPKFile.entries f !! key = Some e ->
  entryOk key e.
Proof.
  intros Hf Hl. unfold VPKFile.fromFileData in Hf.
  pose proof (holds_parse path d (BinaryParser.new d)) as H.
  destruct (VPKFile.parse path d (BinaryParser.new d)) as [[f' | err] p'];
    cbn [fst] in Hf; [| discriminate].
  injection Hf as ->.
  destruct (H ltac:(simpl; lia)) as [Ht _]. apply (Ht key e Hl).
Qed.

(** The entry of the one-entry directory has its two preload bytes. *)
Lemma parsed_table_ok_witness :
  exists e,
    entryOk "scripts/items.txt" e /\ VPKEntryMeta.preload e = Some [xaa; xbb].
Proof.
  destruct (VPKFile.fromFileData "pak01_dir.vpk"
              (directoryBytes [x29; x00; x00; x00] [xff; xff]))
    as [f | err] eqn:Ef; [| vm_compute in Ef; discriminate Ef].
  destruct (VPKFile.entries f !! "scripts/items.txt"%string) as [e |] eqn:El.
  - exists e. split.
    + apply (parsed_table_ok _ _ f _ e Ef El).
    + vm_compute in Ef. injection Ef as <-. vm_compute in El.
      injection El as <-. reflexivity.
  - exfalso. vm_compute in Ef. injection Ef as <-. vm_compute in El.
    discriminate El.
Defined.

(** X11: [fromFile] returns a directory or throws one of six errors: bad
    signature, unsupported version, invalid header, bad entry terminator,
    the range error of an integer read, or 'Insufficient bytes'.  Its loops
    always come to an end. *)
Theorem parse_outcomes (path : string) (d : Buffer.t) :
  match VPKFile.fromFileData path d with
  | Ok f => True
  | Err e =>
      e = BadSignature \/ e = UnsupportedVersion \/ e = InvalidHeader
      \/ e = BadEntryTerminator \/ e = OutOfBounds \/ e = InsufficientData
  end.
Proof.
  pose proof (fromFileData_within_budget path d) as Hb.
  unfold VPKFile.fromFileData in *.
  pose proof (holds_parse path d (BinaryParser.new d) ltac:(simpl; lia)) as H.
  destruct (VPKFile.parse path d (BinaryParser.new d)) as [[f | e] p'];
    cbn [fst] in *.
  - exact I.
  - unfold stepError in H.
    destruct H as [H | [H | [H | [H | [H | [H | H]]]]]]; auto 10.
    subst e. contradiction.
Qed.

Lemma subarray_drop (d : Buffer.t) (off : Z) :
  0 <= off -> Buffer.subarray d off None = drop (Z.to_nat off) d.
Proof.
  intros Hoff. unfold Buffer.subarray, Buffer.rel_index, Buffer.slice, Buffer.length.
  destruct (Z.ltb_spec off 0); [lia |].
  destruct (Z.le_gt_cases off (Z.of_nat (List.length d))) as [Hle | Hgt].
  - rewrite Z.min_l by lia. apply take_ge. rewrite length_drop. lia.
  - rewrite Z.min_r by lia. rewrite Nat.sub_diag.
    rewrite !drop_ge by lia. reflexivity.
Qed.

(** X12: a directory that [fromFile] returns comes from a buffer that
    starts with the magic 0x55aa1234 and a version field of 1 or 2, which is
    its [version]; it keeps the path it was loaded from and has no cached
    handle; its data is the buffer without its first
    [headerSize + treeSize] bytes (nothing, when the buffer is shorter);
    the four section sizes are unset for version 1 and, for version 2, are
    the fields at offsets 12, 16, 20 and 24, the third of them being 48. *)
Theorem parsed_header (path : string) (d : Buffer.t) (f : VPKFile.t) :
  VPKFile.fromFileData path d = Ok f ->
  Buffer.readUInt32LE d 0 = Ok VPKFile.SIGNATURE
  /\ Buffer.readUInt32LE d 4 = Ok (VPKFile.version f)
  /\ (VPKFile.version f = 1 \/ VPKFile.version f = 2)
  /\ VPKFile.path f = path
  /\ VPKFile.fdCache f = JSMap.empty
  /\ (exists treeSize,
        Buffer.readUInt32LE d 8 = Ok treeSize
        /\ VPKFile.data f
           = drop (Z.to_nat (headerSize (VPKFile.version f) + treeSize)) d)
  /\ (VPKFile.version f = 1 ->
      VPKFile.fileDataSectionSize f = None
      /\ VPKFile.archiveMD5SectionSize f = None
      /\ VPKFile.otherMD5SectionSize f = None
      /\ VPKFile.signatureSectionSize f = None)
  /\ (VPKFile.version f = 2 ->
      exists fds amd sss,
        Buffer.readUInt32LE d 12 = Ok fds
        /\ Buffer.readUInt32LE d 16 = Ok amd
        /\ Buffer.readUInt32LE d 20 = Ok 48
        /\ Buffer.readUInt32LE d 24 = Ok sss
        /\ VPKFile.fileDataSectionSize f = Some fds
        /\ VPKFile.archiveMD5SectionSize f = Some amd
        /\ VPKFile.otherMD5SectionSize f = Some 48
        /\ VPKFile.signatureSectionSize f = Some sss).
Proof.
  intros Hf. unfold VPKFile.fromFileData in Hf. rewrite parse_unfold in Hf.
  destruct (Buffer.readUInt32LE d 0) as [signature | e0] eqn:E0;
    [| discriminate Hf].
  destruct (Z.eqb_spec signature VPKFile.SIGNATURE) as [-> | Hs];
    [| discriminate Hf].
  destruct (Buffer.readUInt32LE d 4) as [version | e4] eqn:E4;
    [| discriminate Hf].
  destruct ((version =? 1) || (version =? 2)) eqn:Ev; [| discriminate Hf].
  destruct (Buffer.readUInt32LE d 8) as [treeSize | e8] eqn:E8;
    [| discriminate Hf].
  pose proof (readUInt32LE_nonneg d 8 treeSize E8) as Hts.
  unfold afterTreeSize in Hf. unfold bind at 1 in Hf.
  rewrite headerRest_at in Hf.
  assert (Hdrop : forall hs, 0 <= hs ->
            Buffer.subarray d (hs + treeSize) None
            = drop (Z.to_nat (hs + treeSize)) d).
  { intros hs Hhs. apply subarray_drop. lia. }
  destruct (Z.eqb_spec version 2) as [-> | Hv2].
  - destruct (Buffer.readUInt32LE d 12) as [fds | e] eqn:E12; [| discriminate Hf].
    destruct (Buffer.readUInt32LE d 16) as [amd | e] eqn:E16; [| discriminate Hf].
    destruct (Buffer.readUInt32LE d 20) as [omd | e] eqn:E20; [| discriminate Hf].
    destruct (Z.eqb_spec omd 48) as [-> | Ho]; [| discriminate Hf].
    destruct (Buffer.readUInt32LE d 24) as [sss | e] eqn:E24; [| discriminate Hf].
    unfold bind in Hf.
    destruct (VPKFile.tree _ _ _) as [[entries | e] p']; [| discriminate Hf].
    cbn [fst ret] in Hf. injection Hf as <-.
    cbn [VPKFile.version VPKFile.path VPKFile.fdCache VPKFile.data
         VPKFile.fileDataSectionSize VPKFile.archiveMD5SectionSize
         VPKFile.otherMD5SectionSize VPKFile.signatureSectionSize].
    split_and!; try reflexivity; try (right; reflexivity).
    + exists treeSize. split; [reflexivity |].
      apply (Hdrop VPKFile.HEADER_SIZE_V2). unfold VPKFile.HEADER_SIZE_V2. lia.
    + discriminate.
    + intros _. exists fds, amd, sss. split_and!; reflexivity.
  - assert (Hv1 : version = 1).
    { rewrite orb_false_r in Ev. apply Z.eqb_eq in Ev. exact Ev. }
    subst version. unfold bind in Hf.
    destruct (VPKFile.tree _ _ _) as [[entries | e] p']; [| discriminate Hf].
    cbn [fst ret] in Hf. injection Hf as <-.
    cbn [VPKFile.version VPKFile.path VPKFile.fdCache VPKFile.data
         VPKFile.fileDataSectionSize VPKFile.archiveMD5SectionSize
         VPKFile.otherMD5SectionSize VPKFile.signatureSectionSize].
    split_and!; try reflexivity; try (left; reflexivity).
    + exists treeSize. split; [reflexivity |].
      apply (Hdrop VPKFile.HEADER_SIZE_V1). unfold VPKFile.HEADER_SIZE_V1. lia.
    + intros _. split_and!; reflexivity.
    + discriminate.
Qed.

(** The one-entry directory has version 1 and the two bytes after its tree
    as data. *)
Lemma parsed_header_witness :
  exists f,
    VPKFile.fromFileData "pak01_dir.vpk"
                         (directoryBytes [x29; x00; x00; x00] [xff; xff]) = Ok f
    /\ VPKFile.path f = "pak01_dir.vpk"%string
    /\ VPKFile.data f = [x10; x11].
Proof.
  destruct (VPKFile.fromFileData "pak01_dir.vpk"
              (directoryBytes [x29; x00; x00; x00] [xff; xff]))
    as [f | err] eqn:Ef; [| vm_compute in Ef; discriminate Ef].
  exists f. split; [reflexivity |].
  destruct (parsed_header _ _ f Ef) as (_ & _ & _ & Hp & _).
  split; [exact Hp |].
  vm_compute in Ef. injection Ef as <-. reflexivity.
Defined.

(** * More of VPKFile.readFile and closeSubArchives *)

Lemma normalize_idempotent (p : string) :
  VPKFile.normalize (VPKFile.normalize p) = VPKFile.normalize p.
Proof.
  induction p as [|c p IH]; [reflexivity |].
  cbn [VPKFile.normalize]. rewrite IH. f_equal.
  destruct (Ascii.eqb c "\"%char) eqn:E; [reflexivity |].
  rewrite E. reflexivity.
Qed.

(** X13: [readFile] takes a backslash in the path for a slash.  A path
    whose slashed form is not a key of the table throws 'File not found'
    and touches nothing: no host call, no change to the cache.  An entry
    stored under a key that holds a backslash can therefore never be
    read. *)
Theorem readFile_path_separators `{Imports W} (s : VPKFile.Sys) (path : string)
        (validate : bool) :
  VPKFile.readFile path validate s
  = VPKFile.readFile (VPKFile.normalize path) validate s
  /\ (VPKFile.entries (VPKFile.file s) !! VPKFile.normalize path = None ->
      VPKFile.readFile path validate s = (Err FileNotFound, s))
  /\ (forall key, VPKFile.normalize key <> key ->
      VPKFile.normalize path <> key).
Proof.
  split_and!.
  - unfold VPKFile.readFile. rewrite normalize_idempotent. reflexivity.
  - intros Hn. unfold VPKFile.readFile. rewrite Hn. reflexivity.
  - intros key Hkey Heq. apply Hkey. rewrite <- Heq. apply normalize_idempotent.
Qed.

(** Asking the one-entry directory for 'scripts\nothing.txt' throws 'File
    not found'. *)
Lemma readFile_path_separators_witness :
  VPKFile.readFile "scripts\nothing.txt" true
                   (VPKFile.mkSys inlineFile sampleWorld [])
  = (Err FileNotFound, VPKFile.mkSys inlineFile sampleWorld []).
Proof.
  destruct (readFile_path_separators (VPKFile.mkSys inlineFile sampleWorld [])
              "scripts\nothing.txt" true) as (_ & H & _).
  apply H. reflexivity.
Defined.

Lemma copy_length (source target : Buffer.t) (targetStart sourceStart : Z)
      (sourceEnd : option Z) (b : Buffer.t) :
  Buffer.copy source target targetStart sourceStart sourceEnd = Ok b ->
  List.length b = List.length target.
Proof.
  unfold Buffer.copy. cbv zeta.
  set (se := match sourceEnd with Some e => e | None => Buffer.length source end).
  destruct (_ || _ || _ || _) eqn:E1; [discriminate |].
  apply orb_false_iff in E1 as [E1 E1d].
  apply orb_false_iff in E1 as [E1 E1c].
  apply orb_false_iff in E1 as [E1a E1b].
  apply Z.ltb_ge in E1a, E1b, E1c, E1d.
  destruct (_ || _) eqn:E2; [intros [= <-]; reflexivity |].
  apply orb_false_iff in E2 as [E2a E2b]. apply Z.leb_gt in E2a, E2b.
  intros [= <-]. unfold Buffer.length in *.
  rewrite !length_app, length_take, length_drop.
  rewrite slice_length by (unfold Buffer.length; lia). lia.
Qed.

Lemma write_length (target bytes : Buffer.t) (offset : Z) :
  0 <= offset ->
  List.length (Buffer.write target offset bytes) = List.length target.
Proof.
  intros Ho. unfold Buffer.write. cbv zeta. unfold Buffer.length.
  destruct (Z.leb_spec (Z.min (Z.of_nat (List.length bytes))
                              (Z.of_nat (List.length target) - offset)) 0);
    [reflexivity |].
  rewrite !length_app, !length_take, length_drop. lia.
Qed.

Lemma alloc_length (n : Z) : List.length (Buffer.alloc n) = Z.to_nat n.
Proof. unfold Buffer.alloc. apply length_replicate. Qed.

(** The buffer of [readFile] after the preload is copied in. *)
Lemma preload_copied (e : VPKEntryMeta.t) (key : string) :
  entryOk key e ->
  let buff := Buffer.alloc (VPKEntryMeta.preloadBytes e
                            + VPKEntryMeta.entryLength e) in
  let filled := preloadOf e
                ++ Buffer.alloc (VPKEntryMeta.entryLength e) in
  match VPKEntryMeta.preload e with
  | Some preload => Buffer.copy preload buff 0 0 None = Ok filled
  | None => buff = filled
  end.
Proof.
  intros (_ & _ & _ & _ & _ & _ & Hpb & _ & _ & Hel & Hpre) buff filled.
  unfold filled, preloadOf, buff.
  destruct (VPKEntryMeta.preload e) as [pre |].
  - destruct Hpre as [Hne Hlen].
    set (pb := VPKEntryMeta.preloadBytes e) in *.
    set (el := VPKEntryMeta.entryLength e) in *.
    unfold Buffer.copy. cbv zeta.
    assert (Hal : Buffer.length (Buffer.alloc (pb + el)) = pb + el).
    { unfold Buffer.length. rewrite alloc_length. lia. }
    rewrite Hal, Hlen.
    assert (E1 : (0 <? 0) || (0 <? 0) || (pb <? 0) || (pb <? 0) = false).
    { assert (E : (pb <? 0) = false) by (apply Z.ltb_ge; lia).
      rewrite E. reflexivity. }
    rewrite E1.
    assert (E2 : (pb + el <=? 0) || (pb <=? 0) = false).
    { apply orb_false_iff. split; apply Z.leb_gt; lia. }
    rewrite E2. f_equal.
    replace (Z.min (Z.min (pb - 0) (pb + el - 0)) (pb - 0)) with pb by lia.
    change (take (Z.to_nat 0) (Buffer.alloc (pb + el))) with (@nil byte).
    cbn [app]. f_equal.
    + unfold Buffer.slice. change (Z.to_nat 0) with 0%nat.
      rewrite Nat.sub_0_r. cbn [drop]. apply take_ge.
      unfold Buffer.length in Hlen. lia.
    + unfold Buffer.alloc. rewrite drop_replicate. f_equal. lia.
  - rewrite Hpre. reflexivity.
Qed.

Lemma readFile_branches `{Imports W} (s : VPKFile.Sys) (path key : string)
      (validate : bool) (e : VPKEntryMeta.t) :
  VPKFile.entries (VPKFile.file s) !! VPKFile.normalize path = Some e ->
  entryOk key e ->
  let filled := preloadOf e ++ Buffer.alloc (VPKEntryMeta.entryLength e) in
  VPKFile.readFile path validate s
  = if 0 <? VPKEntryMeta.entryLength e then
      if VPKEntryMeta.archiveIndex e =? 0x7fff then
        (Buffer.copy (VPKFile.data (VPKFile.file s)) filled
                     (VPKEntryMeta.preloadBytes e) (VPKEntryMeta.entryOffset e)
                     (Some (VPKEntryMeta.entryLength e)), s)
      else readExternal (VPKFile.file s) e validate filled s
    else (Ok filled, s).
Proof.
  intros He Hok filled. pose proof (preload_copied e key Hok) as Hpre.
  cbv zeta in Hpre. fold filled in Hpre.
  unfold VPKFile.readFile. rewrite He. unfold bind at 1.
  destruct (VPKEntryMeta.preload e) as [pre |].
  - unfold VPKFile.ofRes at 1. rewrite Hpre.
    destruct (0 <? _); [| reflexivity].
    destruct (_ =? 0x7fff); reflexivity.
  - unfold ret at 1. rewrite Hpre.
    destruct (0 <? _); [| reflexivity].
    destruct (_ =? 0x7fff); reflexivity.
Qed.

Lemma preloadOf_length (e : VPKEntryMeta.t) (key : string) :
  entryOk key e -> Buffer.length (preloadOf e) = VPKEntryMeta.preloadBytes e.
Proof.
  intros (_ & _ & _ & _ & _ & _ & _ & _ & _ & _ & Hpre). unfold preloadOf.
  destruct (VPKEntryMeta.preload e); [tauto | rewrite Hpre; reflexivity].
Qed.

Lemma entryOk_sizes (e : VPKEntryMeta.t) (key : string) :
  entryOk key e ->
  0 <= VPKEntryMeta.preloadBytes e /\ 0 <= VPKEntryMeta.entryLength e
  /\ 0 <= VPKEntryMeta.entryOffset e.
Proof. intros (_ & _ & _ & _ & _ & _ & Hpb & _ & Heo & Hel & _). lia. Qed.

(** Writing [n] bytes right after a prefix of the buffer that the rest of
    it has exactly room for. *)
Lemma write_after_prefix (pre bytes : Buffer.t) (n : Z) :
  Buffer.length bytes = n -> 0 < n ->
  Buffer.write (pre ++ Buffer.alloc n) (Buffer.length pre) bytes = pre ++ bytes.
Proof.
  intros Hb Hn. unfold Buffer.write. cbv zeta.
  assert (Hl : Buffer.length (pre ++ Buffer.alloc n) = Buffer.length pre + n).
  { unfold Buffer.length. rewrite length_app, alloc_length. lia. }
  rewrite Hl, Hb.
  replace (Z.min n (Buffer.length pre + n - Buffer.length pre)) with n by lia.
  destruct (Z.leb_spec n 0); [lia |].
  unfold Buffer.length in *.
  rewrite Nat2Z.id, take_app_length.
  rewrite take_ge by lia.
  rewrite drop_ge by (rewrite length_app, alloc_length; lia).
  rewrite app_nil_r. reflexivity.
Qed.

Lemma readExternal_eq `{Imports W} (s : VPKFile.Sys) (e : VPKEntryMeta.t)
      (validate : bool) (buff : Buffer.t) :
  let ai := VPKEntryMeta.archiveIndex e in
  let pb := VPKEntryMeta.preloadBytes e in
  let el := VPKEntryMeta.entryLength e in
  let eo := VPKEntryMeta.entryOffset e in
  let archivePath := VPKFile.archivePathOf (VPKFile.path (VPKFile.file s)) ai in
  readExternal (VPKFile.file s) e validate buff s
  = match fs_open archivePath (VPKFile.world s) with
    | (Err err, w1) =>
        (Err err,
         VPKFile.mkSys (VPKFile.file s) w1
                       (VPKFile.calls s ++ [CallOpen archivePath]))
    | (Ok fd, w1) =>
        let cached :=
          withCache (VPKFile.file s)
                    (JSMap.set (VPKFile.fdCache (VPKFile.file s)) ai fd) in
        let calls' :=
          VPKFile.calls s ++ [CallOpen archivePath; CallRead fd el eo] in
        match fs_read fd el eo w1 with
        | (Err err, w2) => (Err err, VPKFile.mkSys cached w2 calls')
        | (Ok got, w2) =>
            let bytes := take (Z.to_nat el) got in
            let out := Buffer.write buff pb bytes in
            let s' := VPKFile.mkSys cached w2 calls' in
            if Buffer.length bytes =? el then
              if validate then
                if crc32 out =? VPKEntryMeta.CRC e then (Ok out, s')
                else (Err ValidationFailed, s')
              else (Ok out, s')
            else (Err ShortRead, s')
        end
    end.
Proof.
  intros ai pb el eo archivePath.
  unfold readExternal, bind, VPKFile.open, VPKFile.fdCacheSet, VPKFile.read,
    VPKFile.hostCall, bind, assert, ret, throw, withCache.
  fold ai pb el eo archivePath.
  cbn [VPKFile.world VPKFile.file VPKFile.calls].
  destruct (fs_open archivePath (VPKFile.world s)) as [[fd | err] w1];
    [| reflexivity].
  cbn [VPKFile.world VPKFile.file VPKFile.calls].
  destruct (fs_read fd el eo w1) as [[got | err] w2];
    cbn [VPKFile.world VPKFile.file VPKFile.calls];
    rewrite <- app_assoc; cbn [app]; [| reflexivity].
  destruct (Buffer.length (take (Z.to_nat el) got) =? el); [| reflexivity].
  destruct validate; [| reflexivity].
  destruct (crc32 _ =? _); reflexivity.
Qed.

(** X14: reading an entry of an external archive, when the host opens the
    archive and reads without error.  The archive is the directory path
    with its suffix replaced; one [open] and one [read] of [entryLength]
    bytes at [entryOffset] are made; the new descriptor is put in the cache
    under the archive index.  If the host got fewer bytes than asked for,
    the call throws 'Cannot read file from sub-archive'.  Otherwise the
    content is the preload followed by the bytes read, and it is returned,
    unless [validate] is set and its checksum is not the stored one, which
    throws 'Validation failed'. *)
Theorem readFile_external `{Imports W} (s : VPKFile.Sys) (path key : string)
        (validate : bool) (e : VPKEntryMeta.t) (fd : Z) (w1 w2 : W)
        (got : Buffer.t) :
  let ai := VPKEntryMeta.archiveIndex e in
  let el := VPKEntryMeta.entryLength e in
  let eo := VPKEntryMeta.entryOffset e in
  let archivePath := VPKFile.archivePathOf (VPKFile.path (VPKFile.file s)) ai in
  VPKFile.entries (VPKFile.file s) !! VPKFile.normalize path = Some e ->
  entryOk key e ->
  0 < el -> ai <> 0x7fff ->
  fs_open archivePath (VPKFile.world s) = (Ok fd, w1) ->
  fs_read fd el eo w1 = (Ok got, w2) ->
  let content := preloadOf e ++ take (Z.to_nat el) got in
  snd (VPKFile.readFile path validate s)
  = VPKFile.mkSys
      (withCache (VPKFile.file s)
                 (JSMap.set (VPKFile.fdCache (VPKFile.file s)) ai fd))
      w2 (VPKFile.calls s ++ [CallOpen archivePath; CallRead fd el eo])
  /\ (Buffer.length got < el ->
      fst (VPKFile.readFile path validate s) = Err ShortRead)
  /\ (el <= Buffer.length got ->
      fst (VPKFile.readFile path validate s)
      = if validate && negb (crc32 content =? VPKEntryMeta.CRC e)
        then Err ValidationFailed else Ok content).
Proof.
  intros ai el eo archivePath He Hok Hel Hai Hopen Hread content.
  rewrite (readFile_branches s path key validate e He Hok).
  apply Z.ltb_lt in Hel. fold el. rewrite Hel. apply Z.ltb_lt in Hel.
  apply Z.eqb_neq in Hai. fold ai. rewrite Hai.
  rewrite readExternal_eq. cbv zeta. fold ai el eo archivePath.
  rewrite Hopen, Hread.
  assert (Hbytes : Buffer.length (take (Z.to_nat el) got)
                   = Z.min el (Buffer.length got)).
  { unfold Buffer.length. rewrite length_take. lia. }
  split_and!.
  - destruct (_ =? el); [| reflexivity].
    destruct validate; [| reflexivity].
    destruct (crc32 _ =? _); reflexivity.
  - intros Hshort. rewrite Hbytes.
    destruct (Z.eqb_spec (Z.min el (Buffer.length got)) el); [lia | reflexivity].
  - intros Hfull. rewrite Hbytes.
    destruct (Z.eqb_spec (Z.min el (Buffer.length got)) el); [| lia].
    rewrite <- (preloadOf_length e key Hok).
    rewrite write_after_prefix by (rewrite ?Hbytes; fold el; lia).
    fold content.
    destruct validate; [| reflexivity].
    destruct (crc32 content =? VPKEntryMeta.CRC e); reflexivity.
Qed.

Lemma externalEntry_ok : entryOk "scripts/items.txt" externalEntry.
Proof.
  unfold entryOk.
  split_and!; try reflexivity;
    vm_compute; repeat split;
    first [reflexivity | intros Hx; discriminate Hx].
Qed.

(** With [validate] set, the entry of archive 3 reads as its preload byte
    followed by the two bytes at offset 1 of the archive. *)
Lemma readFile_external_witness :
  fst (VPKFile.readFile "scripts/items.txt" true
                        (VPKFile.mkSys externalFile sampleWorld []))
  = Ok [x41; x02; x03].
Proof.
  destruct (readFile_external (VPKFile.mkSys externalFile sampleWorld [])
              "scripts/items.txt" "scripts/items.txt" true externalEntry
              10 (MemHost.mkWorld (MemHost.files sampleWorld) 11
                                  [(10, "pak01_003.vpk"%string)])
              (MemHost.mkWorld (MemHost.files sampleWorld) 11
                               [(10, "pak01_003.vpk"%string)])
              [x02; x03])
    as (_ & _ & H).
  - reflexivity.
  - apply externalEntry_ok.
  - vm_compute. reflexivity.
  - vm_compute. discriminate.
  - reflexivity.
  - reflexivity.
  - rewrite H by (vm_compute; discriminate). vm_compute. reflexivity.
Defined.

(** X15: when the host fails.  If [open] fails, [readFile] throws that
    error and the cache is as before; if [read] fails, [readFile] throws
    that error with the freshly opened descriptor already in the cache. *)
Theorem readFile_host_failures `{Imports W} (s : VPKFile.Sys) (path key : string)
        (validate : bool) (e : VPKEntryMeta.t) :
  let ai := VPKEntryMeta.archiveIndex e in
  let el := VPKEntryMeta.entryLength e in
  let eo := VPKEntryMeta.entryOffset e in
  let archivePath := VPKFile.archivePathOf (VPKFile.path (VPKFile.file s)) ai in
  VPKFile.entries (VPKFile.file s) !! VPKFile.normalize path = Some e ->
  entryOk key e ->
  0 < el -> ai <> 0x7fff ->
  (forall err w1,
     fs_open archivePath (VPKFile.world s) = (Err err, w1) ->
     VPKFile.readFile path validate s
     = (Err err,
        VPKFile.mkSys (VPKFile.file s) w1
                      (VPKFile.calls s ++ [CallOpen archivePath])))
  /\ (forall fd w1 err w2,
        fs_open archivePath (VPKFile.world s) = (Ok fd, w1) ->
        fs_read fd el eo w1 = (Err err, w2) ->
        VPKFile.readFile path validate s
        = (Err err,
           VPKFile.mkSys
             (withCache (VPKFile.file s)
                        (JSMap.set (VPKFile.fdCache (VPKFile.file s)) ai fd))
             w2 (VPKFile.calls s ++ [CallOpen archivePath; CallRead fd el eo]))).
Proof.
  intros ai el eo archivePath He Hok Hel Hai.
  rewrite (readFile_branches s path key validate e He Hok).
  apply Z.ltb_lt in Hel. fold el. rewrite Hel.
  apply Z.eqb_neq in Hai. fold ai. rewrite Hai.
  rewrite readExternal_eq. cbv zeta. fold ai el eo archivePath.
  split.
  - intros err w1 Hopen. rewrite Hopen. reflexivity.
  - intros fd w1 err w2 Hopen Hread. rewrite Hopen, Hread. reflexivity.
Qed.

(** In a world without the archive file the read throws the host's error
    and caches nothing. *)
Lemma readFile_host_failures_witness :
  VPKFile.readFile "scripts/items.txt" false
                   (VPKFile.mkSys externalFile (MemHost.mkWorld [] 10 []) [])
  = (Err HostError,
     VPKFile.mkSys externalFile (MemHost.mkWorld [] 10 [])
                   [CallOpen "pak01_003.vpk"]).
Proof.
  destruct (readFile_host_failures
              (VPKFile.mkSys externalFile (MemHost.mkWorld [] 10 []) [])
              "scripts/items.txt" "scripts/items.txt" false externalEntry)
    as (H & _).
  - reflexivity.
  - apply externalEntry_ok.
  - vm_compute. reflexivity.
  - vm_compute. discriminate.
  - apply (H HostError (MemHost.mkWorld [] 10 [])). reflexivity.
Defined.

(** X16: an entry held in the directory file's own data (archive index
    0x7fff), with [entryLength] and [entryOffset] within the data.  The
    call returns the preload, then the bytes of the data from [entryOffset]
    up to, not including, position [entryLength], then zero bytes up to the
    length [preloadBytes + entryLength]; it makes no host call.  For
    [entryOffset = 0] these are the preload and the first [entryLength]
    bytes of the data. *)
Theorem readFile_residual_range `{Imports W} (s : VPKFile.Sys) (path key : string)
        (validate : bool) (e : VPKEntryMeta.t) :
  let el := VPKEntryMeta.entryLength e in
  let eo := VPKEntryMeta.entryOffset e in
  let data := VPKFile.data (VPKFile.file s) in
  VPKFile.entries (VPKFile.file s) !! VPKFile.normalize path = Some e ->
  entryOk key e ->
  VPKEntryMeta.archiveIndex e = 0x7fff ->
  0 < el -> el <= Buffer.length data -> eo <= Buffer.length data ->
  VPKFile.readFile path validate s
  = (Ok (preloadOf e ++ Buffer.slice data eo el
           ++ Buffer.alloc (Z.min eo el)), s)
  /\ (eo = 0 ->
      VPKFile.readFile path validate s
      = (Ok (preloadOf e ++ take (Z.to_nat el) data), s)).
Proof.
  intros el eo data He Hok Hai Hel HelL HeoL.
  destruct (entryOk_sizes e key Hok) as (Hpb & _ & Heo). fold eo in Heo.
  pose proof (preloadOf_length e key Hok) as Hpl.
  set (pb := VPKEntryMeta.preloadBytes e) in *.
  assert (Hmain : VPKFile.readFile path validate s
                  = (Ok (preloadOf e ++ Buffer.slice data eo el
                           ++ Buffer.alloc (Z.min eo el)), s)).
  { rewrite (readFile_branches s path key validate e He Hok).
    fold el eo pb data.
    apply Z.ltb_lt in Hel. rewrite Hel. apply Z.ltb_lt in Hel.
    rewrite Hai. cbn [Z.eqb Pos.eqb]. f_equal.
    unfold Buffer.copy. cbv zeta.
    assert (Hfl : Buffer.length (preloadOf e ++ Buffer.alloc el) = pb + el).
    { unfold Buffer.length in *. rewrite length_app, alloc_length. lia. }
    rewrite Hfl.
    assert (E1 : (pb <? 0) || (eo <? 0) || (Buffer.length data <? eo)
                 || (el <? 0) = false).
    { repeat (apply orb_false_iff; split); apply Z.ltb_ge; lia. }
    rewrite E1.
    assert (E0 : (pb + el <=? pb) = false) by (apply Z.leb_gt; lia).
    rewrite E0. cbn [orb].
    destruct (Z.leb_spec el eo) as [Hge | Hlt].
    - f_equal. unfold Buffer.slice.
      replace (Z.to_nat el - Z.to_nat eo)%nat with 0%nat by lia.
      cbn [take app]. rewrite Z.min_r by lia. reflexivity.
    - f_equal.
      replace (Z.min (Z.min (el - eo) (pb + el - pb)) (Buffer.length data - eo))
        with (el - eo) by lia.
      replace (eo + (el - eo)) with el by lia.
      unfold Buffer.length in Hpl.
      replace (Z.to_nat pb) with (List.length (preloadOf e)) by lia.
      rewrite take_app_length. f_equal. f_equal.
      replace (Z.to_nat (pb + (el - eo)))
        with (List.length (preloadOf e) + Z.to_nat (el - eo))%nat by lia.
      rewrite drop_app_add. unfold Buffer.alloc. rewrite drop_replicate.
      f_equal. lia. }
  split; [exact Hmain |].
  intros E0. rewrite Hmain. rewrite E0. f_equal. f_equal. f_equal.
  rewrite Z.min_l by lia. unfold Buffer.alloc. cbn [Z.to_nat replicate].
  rewrite app_nil_r. unfold Buffer.slice. change (Z.to_nat 0) with 0%nat.
  rewrite Nat.sub_0_r. reflexivity.
Qed.

(** The directory's own data [aa bb], read as an entry of length 2 at offset
    0, comes back whole. *)
Lemma readFile_residual_range_witness :
  VPKFile.readFile "scripts/items.txt" false
                   (VPKFile.mkSys staleInlineFile sampleWorld [])
  = (Ok [xaa; xbb], VPKFile.mkSys staleInlineFile sampleWorld []).
Proof.
  destruct (readFile_residual_range
              (VPKFile.mkSys staleInlineFile sampleWorld [])
              "scripts/items.txt" "scripts/items.txt" false
              (VPKEntryMeta.mk "txt" "scripts" "items" "scripts/items.txt"
                               0 0 None 0x7fff 0 2))
    as (_ & H).
  - reflexivity.
  - unfold entryOk.
    split_and!; try reflexivity;
      vm_compute; repeat split;
      first [reflexivity | intros Hx; discriminate Hx].
  - reflexivity.
  - vm_compute. reflexivity.
  - vm_compute. discriminate.
  - vm_compute. discriminate.
  - rewrite H by reflexivity. reflexivity.
Defined.

Lemma copy_prefix (source target : Buffer.t) (targetStart sourceStart : Z)
      (sourceEnd : option Z) (b : Buffer.t) :
  Buffer.copy source target targetStart sourceStart sourceEnd = Ok b ->
  take (Z.to_nat targetStart) b = take (Z.to_nat targetStart) target.
Proof.
  unfold Buffer.copy. cbv zeta.
  destruct (_ || _ || _ || _) eqn:E1; [discriminate |].
  apply orb_false_iff in E1 as [E1 _].
  apply orb_false_iff in E1 as [E1 _].
  apply orb_false_iff in E1 as [E1a _]. apply Z.ltb_ge in E1a.
  destruct (_ || _) eqn:E2; [intros [= <-]; reflexivity |].
  apply orb_false_iff in E2 as [E2a _]. apply Z.leb_gt in E2a.
  intros [= <-]. unfold Buffer.length in *.
  rewrite take_app_le by (rewrite length_take; lia).
  rewrite take_take. f_equal. lia.
Qed.

Lemma write_prefix (target bytes : Buffer.t) (offset : Z) :
  0 <= offset ->
  take (Z.to_nat offset) (Buffer.write target offset bytes)
  = take (Z.to_nat offset) target.
Proof.
  intros Ho. unfold Buffer.write. cbv zeta. unfold Buffer.length.
  destruct (Z.leb_spec (Z.min (Z.of_nat (List.length bytes))
                              (Z.of_nat (List.length target) - offset)) 0);
    [reflexivity |].
  rewrite take_app_le by (rewrite length_take; lia).
  rewrite take_take. f_equal. lia.
Qed.

(** X17: whatever branch it takes, a buffer that [readFile] returns has the
    length [preloadBytes + entryLength] and starts with the entry's preload
    bytes. *)
Theorem readFile_buffer_shape `{Imports W} (s : VPKFile.Sys) (path key : string)
        (validate : bool) (e : VPKEntryMeta.t) (buff : Buffer.t) :
  VPKFile.entries (VPKFile.file s) !! VPKFile.normalize path = Some e ->
  entryOk key e ->
  fst (VPKFile.readFile path validate s) = Ok buff ->
  Buffer.length buff
  = VPKEntryMeta.preloadBytes e + VPKEntryMeta.entryLength e
  /\ take (Z.to_nat (VPKEntryMeta.preloadBytes e)) buff = preloadOf e.
Proof.
  intros He Hok Hres.
  destruct (entryOk_sizes e key Hok) as (Hpb & Hel & _).
  pose proof (preloadOf_length e key Hok) as Hpl.
  set (pb := VPKEntryMeta.preloadBytes e) in *.
  set (el := VPKEntryMeta.entryLength e) in *.
  set (filled := preloadOf e ++ Buffer.alloc el).
  assert (Hfl : List.length filled = Z.to_nat (pb + el)).
  { unfold filled, Buffer.length in *. rewrite length_app, alloc_length. lia. }
  assert (Hfp : take (Z.to_nat pb) filled = preloadOf e).
  { unfold filled, Buffer.length in *.
    replace (Z.to_nat pb) with (List.length (preloadOf e)) by lia.
    apply take_app_length. }
  assert (Hgoal : forall b : Buffer.t,
            List.length b = List.length filled ->
            take (Z.to_nat pb) b = take (Z.to_nat pb) filled ->
            Buffer.length b = pb + el /\ take (Z.to_nat pb) b = preloadOf e).
  { intros b Hb1 Hb2. split; [unfold Buffer.length; lia | congruence]. }
  rewrite (readFile_branches s path key validate e He Hok) in Hres.
  fold pb el filled in Hres.
  destruct (0 <? el).
  - destruct (VPKEntryMeta.archiveIndex e =? 0x7fff).
    + cbn [fst] in Hres. apply Hgoal.
      * apply (copy_length _ _ _ _ _ _ Hres).
      * apply (copy_prefix _ _ _ _ _ _ Hres).
    + rewrite readExternal_eq in Hres. cbv zeta in Hres. fold pb el in Hres.
      destruct (fs_open _ _) as [[fd | err] w1]; [| discriminate Hres].
      destruct (fs_read _ _ _ _) as [[got | err] w2]; [| discriminate Hres].
      assert (Hout : forall r : res Buffer.t,
                r = Ok buff ->
                r = Ok (Buffer.write filled pb (take (Z.to_nat el) got)) ->
                Buffer.length buff = pb + el
                /\ take (Z.to_nat pb) buff = preloadOf e).
      { intros r Hr1 Hr2. rewrite Hr1 in Hr2. injection Hr2 as ->.
        apply Hgoal; [apply write_length | apply write_prefix]; lia. }
      destruct (_ =? el); [| discriminate Hres].
      destruct validate.
      * destruct (crc32 _ =? _); [| discriminate Hres].
        cbn [fst] in Hres. apply (Hout _ Hres eq_refl).
      * cbn [fst] in Hres. apply (Hout _ Hres eq_refl).
  - cbn [fst] in Hres. injection Hres as <-. apply Hgoal; reflexivity.
Qed.

(** The buffer read for the entry of archive 3 has 3 bytes and starts with
    the preload byte 'A'. *)
Lemma readFile_buffer_shape_witness :
  Buffer.length [x41; x02; x03]
  = VPKEntryMeta.preloadBytes externalEntry + VPKEntryMeta.entryLength externalEntry
  /\ take (Z.to_nat (VPKEntryMeta.preloadBytes externalEntry)) [x41; x02; x03]
     = preloadOf externalEntry.
Proof.
  apply (readFile_buffer_shape (VPKFile.mkSys externalFile sampleWorld [])
           "scripts/items.txt" "scripts/items.txt" false externalEntry).
  - reflexivity.
  - apply externalEntry_ok.
  - vm_compute. reflexivity.
Defined.

Lemma readFile_file `{Imports W} (s : VPKFile.Sys) (path : string)
      (validate : bool) :
  VPKFile.file (snd (VPKFile.readFile path validate s)) = VPKFile.file s
  \/ exists e fd,
       VPKFile.entries (VPKFile.file s) !! VPKFile.normalize path = Some e
       /\ VPKFile.file (snd (VPKFile.readFile path validate s))
          = withCache (VPKFile.file s)
                      (JSMap.set (VPKFile.fdCache (VPKFile.file s))
                                 (VPKEntryMeta.archiveIndex e) fd).
Proof.
  set (r := VPKFile.readFile path validate s).
  assert (Er : r = VPKFile.readFile path validate s) by reflexivity.
  clearbody r. unfold VPKFile.readFile in Er.
  destruct (VPKFile.entries (VPKFile.file s) !! VPKFile.normalize path)
    as [e |] eqn:He; [| left; rewrite Er; reflexivity].
  unfold bind at 1 in Er.
  assert (Hpre : exists r0 : res Buffer.t,
             (match VPKEntryMeta.preload e with
              | Some preload =>
                  VPKFile.ofRes
                    (Buffer.copy preload
                       (Buffer.alloc (VPKEntryMeta.preloadBytes e
                                      + VPKEntryMeta.entryLength e)) 0 0 None)
              | None =>
                  ret (Buffer.alloc (VPKEntryMeta.preloadBytes e
                                     + VPKEntryMeta.entryLength e))
              end) s = (r0, s)).
  { destruct (VPKEntryMeta.preload e); eexists; reflexivity. }
  destruct Hpre as [[b | err] Hb]; rewrite Hb in Er;
    [| left; rewrite Er; reflexivity].
  destruct (0 <? _); [| left; rewrite Er; reflexivity].
  destruct (_ =? 0x7fff); [left; rewrite Er; reflexivity |].
  change (r = readExternal (VPKFile.file s) e validate b s) in Er.
  rewrite readExternal_eq in Er. cbv zeta in Er.
  destruct (fs_open _ _) as [[fd | err] w1]; [| left; rewrite Er; reflexivity].
  right. exists e, fd. split; [reflexivity |].
  destruct (fs_read _ _ _ _) as [[got | err] w2]; [| rewrite Er; reflexivity].
  destruct (_ =? _); [| rewrite Er; reflexivity].
  destruct validate; [| rewrite Er; reflexivity].
  destruct (crc32 _ =? _); rewrite Er; reflexivity.
Qed.

Lemma closeSubArchives_file `{Imports W} (s : VPKFile.Sys) :
  VPKFile.file (snd (VPKFile.closeSubArchives s))
  = withCache (VPKFile.file s) JSMap.empty.
Proof.
  unfold VPKFile.closeSubArchives, bind. cbn [VPKFile.fdCacheClear].
  set (array := JSMap.values (VPKFile.fdCache (VPKFile.file s))).
  set (cleared := VPKFile.mkSys _ _ _).
  destruct (closeEach_spec array 0 array cleared) as (Hf & _).
  destruct (VPKFile.closeEach array 0 array cleared) as [rs s2].
  cbn [snd] in *. rewrite Hf. reflexivity.
Qed.

(** X18: neither [readFile] nor [closeSubArchives] changes what was parsed:
    the entry table, the data, the path, the version and the section sizes
    of the object are the same after any call, returned or thrown. *)
Theorem methods_keep_directory `{Imports W} (s : VPKFile.Sys) (path : string)
        (validate : bool) :
  let same (f : VPKFile.t) :=
    VPKFile.entries f = VPKFile.entries (VPKFile.file s)
    /\ VPKFile.data f = VPKFile.data (VPKFile.file s)
    /\ VPKFile.path f = VPKFile.path (VPKFile.file s)
    /\ VPKFile.version f = VPKFile.version (VPKFile.file s)
    /\ VPKFile.fileDataSectionSize f = VPKFile.fileDataSectionSize (VPKFile.file s)
    /\ VPKFile.archiveMD5SectionSize f
       = VPKFile.archiveMD5SectionSize (VPKFile.file s)
    /\ VPKFile.otherMD5SectionSize f = VPKFile.otherMD5SectionSize (VPKFile.file s)
    /\ VPKFile.signatureSectionSize f
       = VPKFile.signatureSectionSize (VPKFile.file s) in
  same (VPKFile.file (snd (VPKFile.readFile path validate s)))
  /\ same (VPKFile.file (snd (VPKFile.closeSubArchives s))).
Proof.
  intros same. split.
  - destruct (readFile_file s path validate) as [-> | (e & fd & _ & ->)];
      unfold same; split_and!; reflexivity.
  - rewrite closeSubArchives_file. unfold same. split_and!; reflexivity.
Qed.

(** ** The handle cache *)

Lemma set_keys (m : JSMap.t Z) (k v : Z) :
  map fst (JSMap.set m k v)
  = if decide (k ∈ map fst m) then map fst m else map fst m ++ [k].
Proof.
  induction m as [|[k' v'] m IH]; [reflexivity |].
  cbn [JSMap.set map fst].
  destruct (Z.eqb_spec k' k) as [-> | Hne].
  - cbn [map fst]. rewrite decide_True by (left). reflexivity.
  - cbn [map fst]. rewrite IH.
    destruct (decide (k ∈ map fst m)) as [Hin | Hnin].
    + rewrite decide_True by (right; exact Hin). reflexivity.
    + rewrite decide_False; [reflexivity |].
      intros Hin. apply elem_of_cons in Hin as [-> | Hin]; auto.
Qed.

Lemma cacheGet_set (m : JSMap.t Z) (k v k' : Z) :
  cacheGet (JSMap.set m k v) k' = if k =? k' then Some v else cacheGet m k'.
Proof.
  induction m as [|[k0 v0] m IH].
  - reflexivity.
  - cbn [JSMap.set]. destruct (Z.eqb_spec k0 k) as [-> | Hne].
    + cbn [cacheGet]. destruct (k =? k'); reflexivity.
    + cbn [cacheGet]. rewrite IH.
      destruct (Z.eqb_spec k0 k') as [-> | Hne'].
      * destruct (Z.eqb_spec k k'); [congruence | reflexivity].
      * reflexivity.
Qed.

Lemma readFile_cache `{Imports W} (s : VPKFile.Sys) (path : string)
      (validate : bool) :
  let cache := VPKFile.fdCache (VPKFile.file s) in
  VPKFile.fdCache (VPKFile.file (snd (VPKFile.readFile path validate s)))
  = match VPKFile.entries (VPKFile.file s) !! VPKFile.normalize path with
    | Some e =>
        if (0 <? VPKEntryMeta.entryLength e)
           && negb (VPKEntryMeta.archiveIndex e =? 0x7fff)
        then
          match fs_open (VPKFile.archivePathOf (VPKFile.path (VPKFile.file s))
                                               (VPKEntryMeta.archiveIndex e))
                        (VPKFile.world s) with
          | (Ok fd, _) => JSMap.set cache (VPKEntryMeta.archiveIndex e) fd
          | (Err _, _) => cache
          end
        else cache
    | None => cache
    end.
Proof.
  intros cache.
  set (r := VPKFile.readFile path validate s).
  assert (Er : r = VPKFile.readFile path validate s) by reflexivity.
  clearbody r. unfold VPKFile.readFile in Er.
  destruct (VPKFile.entries (VPKFile.file s) !! VPKFile.normalize path)
    as [e |] eqn:He; [| rewrite Er; reflexivity].
  unfold bind at 1 in Er.
  assert (Hpre : exists b : Buffer.t,
             (match VPKEntryMeta.preload e with
              | Some preload =>
                  VPKFile.ofRes
                    (Buffer.copy preload
                       (Buffer.alloc (VPKEntryMeta.preloadBytes e
                                      + VPKEntryMeta.entryLength e)) 0 0 None)
              | None =>
                  ret (Buffer.alloc (VPKEntryMeta.preloadBytes e
                                     + VPKEntryMeta.entryLength e))
              end) s = (Ok b, s)).
  { destruct (VPKEntryMeta.preload e) as [pre |]; [| eexists; reflexivity].
    destruct (copy_whole_ok pre
                (Buffer.alloc (VPKEntryMeta.preloadBytes e
                               + VPKEntryMeta.entryLength e))) as [b Hb].
    exists b. unfold VPKFile.ofRes. rewrite Hb. reflexivity. }
  destruct Hpre as [b Hb]. rewrite Hb in Er.
  destruct (0 <? VPKEntryMeta.entryLength e); [| rewrite Er; reflexivity].
  destruct (VPKEntryMeta.archiveIndex e =? 0x7fff); [rewrite Er; reflexivity |].
  cbn [andb negb].
  change (r = readExternal (VPKFile.file s) e validate b s) in Er.
  rewrite readExternal_eq in Er. cbv zeta in Er.
  destruct (fs_open _ _) as [[fd | err] w1]; [| rewrite Er; reflexivity].
  destruct (fs_read _ _ _ _) as [[got | err] w2]; [| rewrite Er; reflexivity].
  destruct (_ =? _); [| rewrite Er; reflexivity].
  destruct validate; [| rewrite Er; reflexivity].
  destruct (crc32 _ =? _); rewrite Er; reflexivity.
Qed.

(** X19: the cache holds at most one handle for an archive index, and
    [readFile] keeps it so.  A call opens an archive when its entry has
    content outside the preload, in an archive other than 0x7fff, and the
    host's [open] of that archive's path returns a descriptor: the cache
    then gives that very descriptor for the entry's archive index, whatever
    it gave before, and gives for every other index what it gave before.
    A call that opens nothing leaves the cache as it was. *)
Theorem fdCache_one_handle_per_index `{Imports W} (s : VPKFile.Sys)
        (path : string) (validate : bool) :
  let cache := VPKFile.fdCache (VPKFile.file s) in
  let cache' :=
    VPKFile.fdCache (VPKFile.file (snd (VPKFile.readFile path validate s))) in
  let opened (e : VPKEntryMeta.t) (fd : Z) : Prop :=
    VPKFile.entries (VPKFile.file s) !! VPKFile.normalize path = Some e
    /\ 0 < VPKEntryMeta.entryLength e
    /\ VPKEntryMeta.archiveIndex e <> 0x7fff
    /\ fst (fs_open (VPKFile.archivePathOf (VPKFile.path (VPKFile.file s))
                                           (VPKEntryMeta.archiveIndex e))
                    (VPKFile.world s)) = Ok fd in
  NoDup (map fst cache) ->
  NoDup (map fst cache')
  /\ (forall e fd,
        opened e fd ->
        cache' = JSMap.set cache (VPKEntryMeta.archiveIndex e) fd
        /\ cacheGet cache' (VPKEntryMeta.archiveIndex e) = Some fd
        /\ forall k, k <> VPKEntryMeta.archiveIndex e ->
             cacheGet cache' k = cacheGet cache k)
  /\ ((exists e fd, opened e fd) \/ cache' = cache).
Proof.
  intros cache cache' opened Hnd.
  pose proof (readFile_cache s path validate) as Hc. cbv zeta in Hc.
  fold cache cache' in Hc.
  assert (Hset : forall i fd,
             NoDup (map fst (JSMap.set cache i fd))
             /\ cacheGet (JSMap.set cache i fd) i = Some fd
             /\ forall k, k <> i ->
                  cacheGet (JSMap.set cache i fd) k = cacheGet cache k).
  { intros i fd. split_and!.
    - rewrite set_keys. destruct (decide _) as [Hin | Hnin]; [exact Hnd |].
      apply NoDup_app. split_and!; [exact Hnd | | apply NoDup_singleton].
      intros x Hx Hx'. apply list_elem_of_singleton in Hx'. subst x.
      contradiction.
    - rewrite cacheGet_set, Z.eqb_refl. reflexivity.
    - intros k Hk. rewrite cacheGet_set.
      destruct (Z.eqb_spec i k); [congruence | reflexivity]. }
  destruct (VPKFile.entries (VPKFile.file s) !! VPKFile.normalize path)
    as [e |] eqn:He.
  - destruct (Z.ltb_spec 0 (VPKEntryMeta.entryLength e)) as [Hel | Hel];
      destruct (Z.eqb_spec (VPKEntryMeta.archiveIndex e) 0x7fff) as [Hai | Hai];
      cbn [andb negb] in Hc.
    + split_and!; [rewrite Hc; exact Hnd | | right; exact Hc].
      intros e' fd (He' & _ & Hai' & _). congruence.
    + destruct (fs_open _ _) as [[fd | err] w1] eqn:Eo.
      * destruct (Hset (VPKEntryMeta.archiveIndex e) fd) as (H1 & H2 & H3).
        rewrite <- Hc in H1, H2, H3. split_and!.
        -- exact H1.
        -- intros e' fd' (He' & _ & _ & Hfd').
           assert (e' = e) by congruence. subst e'.
           rewrite Eo in Hfd'. cbn [fst] in Hfd'.
           assert (fd' = fd) by congruence. subst fd'.
           split_and!; [exact Hc | exact H2 | exact H3].
        -- left. exists e, fd. unfold opened. rewrite Eo.
           split_and!; [reflexivity | exact Hel | exact Hai | reflexivity].
      * split_and!; [rewrite Hc; exact Hnd | | right; exact Hc].
        intros e' fd' (He' & _ & _ & Hfd').
        assert (e' = e) by congruence. subst e'.
        rewrite Eo in Hfd'. discriminate Hfd'.
    + split_and!; [rewrite Hc; exact Hnd | | right; exact Hc].
      intros e' fd (He' & Hel' & _). assert (e' = e) by congruence. subst e'. lia.
    + split_and!; [rewrite Hc; exact Hnd | | right; exact Hc].
      intros e' fd (He' & Hel' & _). assert (e' = e) by congruence. subst e'. lia.
  - split_and!; [rewrite Hc; exact Hnd | | right; exact Hc].
    intros e' fd (He' & _). discriminate He'.
Qed.

(** After the first read of the entry of archive 3, the cache gives for 3
    the descriptor 10 that the host's [open] returned. *)
Lemma fdCache_one_handle_per_index_witness :
  cacheGet
    (VPKFile.fdCache
       (VPKFile.file
          (snd (VPKFile.readFile "scripts/items.txt" false
                  (VPKFile.mkSys externalFile sampleWorld [])))))
    (VPKEntryMeta.archiveIndex externalEntry)
  = Some 10.
Proof.
  destruct (fdCache_one_handle_per_index
              (VPKFile.mkSys externalFile sampleWorld [])
              "scripts/items.txt" false) as (_ & H & _).
  - simpl. apply NoDup_nil_2.
  - destruct (H externalEntry 10) as (_ & H1 & _); [| exact H1].
    split_and!.
    + reflexivity.
    + vm_compute. reflexivity.
    + vm_compute. discriminate.
    + reflexivity.
Defined.

(** X20: a second [closeSubArchives] right after the first does nothing: it
    makes no host call, returns normally and leaves everything as it is. *)
Theorem closeSubArchives_again `{Imports W} (s : VPKFile.Sys) :
  let s1 := snd (VPKFile.closeSubArchives s) in
  VPKFile.closeSubArchives s1 = (Ok tt, s1).
Proof.
  intros s1. pose proof (closeSubArchives_file s) as Hf. fold s1 in Hf.
  destruct s1 as [f w c]. cbn [VPKFile.file] in Hf. subst f.
  reflexivity.
Qed.

(** ** The path of an external archive *)

Lemma string_length_app (a b : string) :
  String.length (a +:+ b) = (String.length a + String.length b)%nat.
Proof. induction a as [|c a IH]; simpl; [reflexivity | rewrite IH; reflexivity]. Qed.

Lemma substring_all (s : string) : substring 0 (String.length s) s = s.
Proof. induction s as [|c s IH]; simpl; [reflexivity | rewrite IH; reflexivity]. Qed.

Lemma substring_app_r (a b : string) :
  substring (String.length a) (String.length b) (a +:+ b) = b.
Proof.
  induction a as [|c a IH]; simpl; [apply substring_all | exact IH].
Qed.

Lemma substring_app_l (a b : string) :
  substring 0 (String.length a) (a +:+ b) = a.
Proof.
  induction a as [|c a IH]; simpl.
  - destruct b; reflexivity.
  - rewrite IH. reflexivity.
Qed.

Lemma substring_split (s : string) (k : nat) :
  (k <= String.length s)%nat ->
  substring 0 k s +:+ substring k (String.length s - k) s = s.
Proof.
  revert k. induction s as [|c s IH]; intros k Hk; simpl in *.
  - destruct k; reflexivity.
  - destruct k as [|k]; simpl.
    + rewrite substring_all. reflexivity.
    + change (String c (substring 0 k s
                        +:+ substring k (String.length s - k) s) = String c s).
      f_equal. apply IH. lia.
Qed.

Lemma concat_zeros_length (n : nat) :
  String.length (String.concat EmptyString (replicate n "0"%string)) = n.
Proof.
  induction n as [|n IH]; [reflexivity |].
  cbn [replicate String.concat].
  destruct (replicate n "0"%string) eqn:E.
  - destruct n; [reflexivity | discriminate E].
  - rewrite !string_length_app, IH. reflexivity.
Qed.

Lemma padStart3_length (s : string) :
  String.length (VPKFile.padStart3 s) = Nat.max 3 (String.length s).
Proof.
  unfold VPKFile.padStart3. rewrite string_length_app, concat_zeros_length. lia.
Qed.

Lemma toString_short :
  forallb (fun n => (String.length (VPKFile.toString (Z.of_nat n)) <=? 3)%nat)
          (seq 0 1000) = true.
Proof. vm_compute. reflexivity. Qed.

(** X21: the file an entry of archive [i] is read from.  For a directory
    path that ends in '_dir.vpk' this suffix is replaced by '_', the index
    in decimal padded with zeros to at least three digits (exactly three
    below 1000), and '.vpk'.  A directory path that does not end in
    '_dir.vpk' is left as it is, so the directory file itself is what gets
    opened. *)
Theorem archivePath_of_index (i : Z) :
  (forall stem,
     VPKFile.archivePathOf (stem +:+ "_dir.vpk") i
     = (stem +:+ "_" +:+ VPKFile.padStart3 (VPKFile.toString i) +:+ ".vpk")%string)
  /\ (forall dirPath,
        (forall stem, dirPath <> (stem +:+ "_dir.vpk")%string) ->
        VPKFile.archivePathOf dirPath i = dirPath)
  /\ (3 <= String.length (VPKFile.padStart3 (VPKFile.toString i)))%nat
  /\ (0 <= i < 1000 ->
      String.length (VPKFile.padStart3 (VPKFile.toString i)) = 3%nat).
Proof.
  split_and!.
  - intros stem. unfold VPKFile.archivePathOf, VPKFile.replaceDirSuffix.
    rewrite string_length_app. change (String.length "_dir.vpk") with 8%nat.
    replace (String.length stem + 8 - 8)%nat with (String.length stem) by lia.
    assert (E1 : (8 <=? String.length stem + 8)%nat = true)
      by (apply Nat.leb_le; lia).
    rewrite E1.
    pose proof (substring_app_r stem "_dir.vpk") as E2.
    change (String.length "_dir.vpk") with 8%nat in E2. rewrite E2.
    rewrite (substring_app_l stem "_dir.vpk"). reflexivity.
  - intros dirPath Hno. unfold VPKFile.archivePathOf, VPKFile.replaceDirSuffix.
    destruct (8 <=? String.length dirPath)%nat eqn:E1; [| reflexivity].
    destruct (String.eqb_spec
                (substring (String.length dirPath - 8) 8 dirPath) "_dir.vpk")
      as [E2 | E2]; [| reflexivity].
    exfalso. apply Nat.leb_le in E1.
    apply (Hno (substring 0 (String.length dirPath - 8) dirPath)).
    rewrite <- E2.
    pose proof (substring_split dirPath (String.length dirPath - 8) ltac:(lia)) as Hs.
    replace (String.length dirPath - (String.length dirPath - 8))%nat
      with 8%nat in Hs by lia.
    symmetry. exact Hs.
  - rewrite padStart3_length. lia.
  - intros Hi. rewrite padStart3_length.
    pose proof toString_short as Hall. rewrite forallb_forall in Hall.
    specialize (Hall (Z.to_nat i)).
    rewrite Z2Nat.id in Hall by lia.
    assert (Hin : In (Z.to_nat i) (seq 0 1000)) by (apply in_seq; lia).
    apply Hall in Hin. apply Nat.leb_le in Hin. lia.
Qed.

(** Archive 3 of 'pak01_dir.vpk' is 'pak01_003.vpk'. *)
Lemma archivePath_of_index_witness :
  VPKFile.archivePathOf "pak01_dir.vpk" 3 = "pak01_003.vpk"%string
  /\ String.length (VPKFile.padStart3 (VPKFile.toString 3)) = 3%nat.
Proof.
  destruct (archivePath_of_index 3) as (H1 & _ & _ & H4).
  split.
  - exact (H1 "pak01"%string).
  - apply H4. lia.
Defined.

(** * Strings in the buffer *)

Lemma get_app_middle (pre bs rest : Buffer.t) (i : nat) :
  Buffer.get (pre ++ bs ++ rest) (Z.of_nat (List.length pre + i))
  = (bs ++ rest) !! i.
Proof.
  rewrite get_nat. rewrite lookup_app_r by lia. f_equal. lia.
Qed.

(** X22: a run of non-zero bytes followed by a zero byte is read back as one
    string.  With the cursor at the start of the run, [readString] returns
    the run decoded as ASCII (each byte with its top bit cleared) and leaves
    the cursor just after the zero byte, at the start of what follows. *)
Theorem readString_of_bytes (pre bs rest : Buffer.t) :
  Forall (fun b => b <> x00) bs ->
  BinaryParser.readString None
    (BinaryParser.mk (pre ++ bs ++ x00 :: rest) (Z.of_nat (List.length pre)))
  = (Ok (string_of_list_ascii (map Buffer.ascii_char bs)),
     BinaryParser.mk (pre ++ bs ++ x00 :: rest)
                     (Z.of_nat (List.length pre + List.length bs + 1))).
Proof.
  intros Hnz.
  set (d := pre ++ bs ++ x00 :: rest).
  set (c := Z.of_nat (List.length pre)).
  set (z := Z.of_nat (List.length pre + List.length bs)).
  assert (Hz : Buffer.get d z = Some x00).
  { unfold z, d. rewrite get_app_middle.
    rewrite lookup_app_r by lia. rewrite Nat.sub_diag. reflexivity. }
  assert (Hbs : forall i, c <= i < z -> Buffer.truthy (Buffer.get d i) = true).
  { intros i Hi. replace i with (Z.of_nat (List.length pre + Z.to_nat (i - c)))
      by (unfold c in *; lia).
    unfold d. rewrite get_app_middle.
    assert (Hlt : (Z.to_nat (i - c) < List.length bs)%nat) by (unfold c, z in *; lia).
    rewrite lookup_app_l by exact Hlt.
    destruct (lookup_lt_is_Some_2 bs _ Hlt) as [b Hb]. rewrite Hb.
    apply truthy_true. exists b. split; [reflexivity |].
    rewrite Forall_forall in Hnz. apply Hnz.
    apply (list_elem_of_lookup_2 _ _ _ Hb). }
  assert (He : BinaryParser.scanEnd d c = z).
  { pose proof (scanEnd_ge d c) as Hge.
    pose proof (scanEnd_stops d c) as Hstop. cbv zeta in Hstop.
    set (e := BinaryParser.scanEnd d c) in *.
    destruct (Z.lt_trichotomy e z) as [Hlt | [Heq | Hgt]]; [| exact Heq |].
    - exfalso. specialize (Hbs e ltac:(lia)).
      apply truthy_false in Hstop. congruence.
    - exfalso.
      assert (Ht : Buffer.truthy (Buffer.get d z) = true).
      { apply (scan_truthy (List.length d) d c z).
        fold (BinaryParser.scanEnd d c). fold e. unfold c, z in *. lia. }
      rewrite Hz in Ht. discriminate Ht. }
  rewrite readString_eq, He. f_equal.
  - f_equal. unfold Buffer.toString_ascii, Buffer.slice. f_equal. f_equal.
    unfold c, z, d. rewrite !Nat2Z.id.
    rewrite drop_app_length.
    replace (List.length pre + List.length bs - List.length pre)%nat
      with (List.length bs) by lia.
    apply take_app_length.
  - f_equal. unfold z. lia.
Qed.

(** In 'xtxt0yz' the string read from cursor 1 is 'txt', and the cursor ends
    at 5. *)
Lemma readString_of_bytes_witness :
  BinaryParser.readString None
    (BinaryParser.mk ([x78] ++ [x74; x78; x74] ++ x00 :: [x79; x7a])
                     (Z.of_nat (List.length [x78])))
  = (Ok (string_of_list_ascii (map Buffer.ascii_char [x74; x78; x74])),
     BinaryParser.mk ([x78] ++ [x74; x78; x74] ++ x00 :: [x79; x7a])
                     (Z.of_nat (List.length [x78]
                                + List.length [x74; x78; x74] + 1))).
Proof.
  apply (readString_of_bytes [x78] [x74; x78; x74] [x79; x7a]).
  repeat (apply Forall_cons; split; [discriminate |]). apply Forall_nil_2.
Defined.

(** X23: an entry with [entryLength] 0 is its preload and nothing else:
    [readFile] returns the preload bytes, makes no host call and leaves the
    cache alone, whatever archive index the entry names and whether or not
    [validate] is set. *)
Theorem readFile_preload_only `{Imports W} (s : VPKFile.Sys) (path key : string)
        (validate : bool) (e : VPKEntryMeta.t) :
  VPKFile.entries (VPKFile.file s) !! VPKFile.normalize path = Some e ->
  entryOk key e ->
  VPKEntryMeta.entryLength e = 0 ->
  VPKFile.readFile path validate s = (Ok (preloadOf e), s).
Proof.
  intros He Hok Hel.
  rewrite (readFile_branches s path key validate e He Hok). rewrite Hel.
  change (0 <? 0) with false. cbv iota.
  change (Buffer.alloc 0) with (@nil byte). rewrite app_nil_r. reflexivity.
Qed.

(** The entry that is preload only reads as its preload byte 'A'. *)
Lemma readFile_preload_only_witness :
  VPKFile.readFile "scripts/items.txt" true
                   (VPKFile.mkSys stalePreloadFile sampleWorld [])
  = (Ok [x41], VPKFile.mkSys stalePreloadFile sampleWorld []).
Proof.
  apply (readFile_preload_only
           (VPKFile.mkSys stalePreloadFile sampleWorld [])
           "scripts/items.txt" "scripts/items.txt" true
           (VPKEntryMeta.mk "txt" "scripts" "items" "scripts/items.txt"
                            0 1 (Some [x41]) 0x7fff 0 0)).
  - reflexivity.
  - unfold entryOk.
    split_and!; try reflexivity;
      vm_compute; repeat split;
      first [reflexivity | intros Hx; discriminate Hx].
  - reflexivity.
Defined.
